(** * Token estimation and conversation accounting of the ChatGPT token counter

    A shallow embedding of [lib/gpt-tokenizer.js] (class [GPTTokenizer]) and of
    the accounting part of the content script (class [ChatGPTTokenTracker]),
    followed by the properties of the specification stated over it.

    Modelling conventions.
    - A JavaScript string is a [string]: a sequence of code units, each one an
      8-bit [ascii] standing for the character U+0000..U+00FF of the same
      number.  The character classes [\s] and [\w] and the case mapping of
      [toLowerCase] are the ECMAScript ones restricted to that range.
    - A JavaScript number is an exact rational ([Q]) or, where the code only
      ever produces integers (lengths, token counts, timestamps), an integer
      ([Z]).  [Math.ceil] is [Qceiling].  On the way to a token count the one
      operation that binary64 rounds is [words.length * 1.3]; module
      [Binary64] models that product with its rounding and
      [times13_ceiling] shows that its ceiling is the exact one.  Costs are
      exact rationals in [GPTTokenizer.calculateCost]; module [Doubles]
      gives the cost with the binary64 rounding of every operation.
    - A dynamically typed argument is a [JsVal]; a call that can raise returns
      a [Completion].
    - The object literal [modelConfigs] is used as a map from model ids to
      profiles.  Besides its four own keys it answers to the names every
      object inherits from [Object.prototype] ("constructor", "toString",
      ...), with a member that is truthy and has none of the fields of a
      profile, so that the numbers computed from it are [NaN].  Module
      [GPTTokenizer] is the class on the model ids that are not such names
      (the lookup goes through the four own keys, numbers are [Z] and [Q]);
      module [AnyModelId] is the class on every model id, with [NaN], and
      [encode_any_own] and [calculateCost_any_own] relate the two.  What is
      stated over [GPTTokenizer] about a number that depends on the model
      assumes that the id is not inherited ([ObjectPrototype.isInherited]). *)

From Stdlib Require Import ZArith QArith Qround Qpower List String Ascii Bool.
From Stdlib Require Import Lia Lqa DecimalString.
Import ListNotations.

Open Scope string_scope.
Open Scope Z_scope.

Set Warnings "-register-all".

(** ** JavaScript values and completions *)

Module JS.

Inductive JsVal : Type :=
| JUndefined
| JNull
| JBool (b : bool)
| JNum (n : Z)
| JStr (s : string)
| JArr (items : list JsVal)
| JObj (fields : list (string * JsVal)).

Inductive JsError : Type :=
| TypeError.

Inductive Completion (A : Type) : Type :=
| Normal (a : A)
| Throw (e : JsError).

Arguments Normal {A} a.
Arguments Throw {A} e.

Definition bind {A B : Type} (m : Completion A) (k : A -> Completion B)
  : Completion B :=
  match m with
  | Normal a => k a
  | Throw e => Throw e
  end.

(** [typeof v] *)
Definition typeof (v : JsVal) : string :=
  match v with
  | JUndefined => "undefined"
  | JNull => "object"
  | JBool _ => "boolean"
  | JNum _ => "number"
  | JStr _ => "string"
  | JArr _ => "object"
  | JObj _ => "object"
  end.

(** ToBoolean, as used by [!v], [if (v)] and [a || b]. *)
Definition truthy (v : JsVal) : bool :=
  match v with
  | JUndefined => false
  | JNull => false
  | JBool b => b
  | JNum n => negb (n =? 0)
  | JStr s => negb (s =? "")%string
  | JArr _ => true
  | JObj _ => true
  end.

(** [Array.isArray(v)] *)
Definition isArray (v : JsVal) : bool :=
  match v with
  | JArr _ => true
  | _ => false
  end.

(** The elements a [for ... of] loop visits on a value that passed the
    [Array.isArray] test. *)
Definition arrayItems (v : JsVal) : list JsVal :=
  match v with
  | JArr items => items
  | _ => []
  end.

Fixpoint assoc {A : Type} (k : string) (l : list (string * A)) : option A :=
  match l with
  | [] => None
  | (k', a) :: l' => if (k =? k')%string then Some a else assoc k l'
  end.

(** [v.name] on a value that passed the [typeof v === 'object'] test:
    a missing property reads as [undefined]. *)
Definition getField (v : JsVal) (name : string) : JsVal :=
  match v with
  | JObj fields =>
      match assoc name fields with
      | Some x => x
      | None => JUndefined
      end
  | _ => JUndefined
  end.

(** The receiver of a [String.prototype] method call such as [text.trim()]
    or [text.toLowerCase()]: on anything but a string the call raises a
    [TypeError] ([null] and [undefined] have no properties, the other
    values have no such method). *)
Definition stringReceiver (v : JsVal) : Completion string :=
  match v with
  | JStr s => Normal s
  | _ => Throw TypeError
  end.

End JS.

Import JS.

Notation "x <- m ;; k" := (bind m (fun x => k))
  (at level 61, m at next level, right associativity).

(** ** Strings as sequences of code units *)

Module Text.

Definition chars (s : string) : list ascii := list_ascii_of_string s.

Definition code (c : ascii) : N := N_of_ascii c.

(** The class [\s]: TAB, LF, VT, FF, CR, SPACE and NO-BREAK SPACE. *)
Definition isSpace (c : ascii) : bool :=
  let n := code c in
  ((9 <=? n) && (n <=? 13) || (n =? 32) || (n =? 160))%N.

(** The class [\w]: [A-Za-z0-9_]. *)
Definition isWord (c : ascii) : bool :=
  let n := code c in
  ((48 <=? n) && (n <=? 57) || (65 <=? n) && (n <=? 90)
   || (n =? 95) || (97 <=? n) && (n <=? 122))%N.

(** The class [[^\w\s]]. *)
Definition isSpecial (c : ascii) : bool :=
  negb (isWord c) && negb (isSpace c).

Fixpoint dropSpaces (s : list ascii) : list ascii :=
  match s with
  | [] => []
  | c :: s' => if isSpace c then dropSpaces s' else s
  end.

Fixpoint trimEnd (s : list ascii) : list ascii :=
  match s with
  | [] => []
  | c :: s' =>
      match trimEnd s' with
      | [] => if isSpace c then [] else [c]
      | r => c :: r
      end
  end.

(** [s.trim()] *)
Definition trim (s : list ascii) : list ascii := trimEnd (dropSpaces s).

(** [s.replace(/\s+/g, ' ')]: every maximal run of white space becomes one
    SPACE.  [inRun] tells that the previous code unit was white space. *)
Fixpoint replaceRuns (inRun : bool) (s : list ascii) : list ascii :=
  match s with
  | [] => []
  | c :: s' =>
      if isSpace c
      then (if inRun then replaceRuns true s' else " "%char :: replaceRuns true s')
      else c :: replaceRuns false s'
  end.

Definition collapseSpaces (s : list ascii) : list ascii := replaceRuns false s.

(** [s.split(/\s+/)]: the pieces between the maximal runs of white space,
    the empty pieces before a leading and after a trailing run included;
    the empty string splits into one empty piece.  [cur] is the piece being
    read, in reverse. *)
Fixpoint splitRuns (cur : list ascii) (inRun : bool) (s : list ascii)
  : list (list ascii) :=
  match s with
  | [] => [rev cur]
  | c :: s' =>
      if isSpace c
      then (if inRun then splitRuns [] true s'
            else rev cur :: splitRuns [] true s')
      else splitRuns (c :: cur) false s'
  end.

Definition splitSpaces (s : list ascii) : list (list ascii) :=
  splitRuns [] false s.

(** [(s.match(/[^\w\s]/g) || [])]: one match per special code unit. *)
Definition matchSpecial (s : list ascii) : list ascii := filter isSpecial s.

(** [toLowerCase] on one code unit: A-Z and the capital letters of the
    Latin-1 block (U+00C0..U+00DE without the multiplication sign). *)
Definition lowerChar (c : ascii) : ascii :=
  let n := code c in
  if ((65 <=? n) && (n <=? 90)
      || (192 <=? n) && (n <=? 222) && negb (n =? 215))%N
  then ascii_of_N (n + 32)
  else c.

Definition toLowerCase (s : list ascii) : list ascii := map lowerChar s.

Fixpoint startsWith (sub s : list ascii) : bool :=
  match sub, s with
  | [], _ => true
  | _ :: _, [] => false
  | a :: sub', b :: s' => Ascii.eqb a b && startsWith sub' s'
  end.

(** [s.includes(sub)] *)
Fixpoint includes (s sub : list ascii) : bool :=
  startsWith sub s
  || match s with
     | [] => false
     | _ :: s' => includes s' sub
     end.

End Text.

Import Text.

(** ** lib/gpt-tokenizer.js: class GPTTokenizer *)

Module GPTTokenizer.

Record ModelConfig : Type := {
  avgCharsPerToken : Q;
  maxTokens : Z;
  costPer1kInput : Q;
  costPer1kOutput : Q
}.

Definition config_gpt_4 : ModelConfig :=
  {| avgCharsPerToken := 4; maxTokens := 8192;
     costPer1kInput := 3 # 100; costPer1kOutput := 6 # 100 |}.

Definition config_gpt_4o : ModelConfig :=
  {| avgCharsPerToken := 4; maxTokens := 128000;
     costPer1kInput := 5 # 1000; costPer1kOutput := 15 # 1000 |}.

Definition config_gpt_4_turbo : ModelConfig :=
  {| avgCharsPerToken := 4; maxTokens := 128000;
     costPer1kInput := 1 # 100; costPer1kOutput := 3 # 100 |}.

Definition config_gpt_35_turbo : ModelConfig :=
  {| avgCharsPerToken := 4; maxTokens := 4096;
     costPer1kInput := 15 # 10000; costPer1kOutput := 2 # 1000 |}.

Definition modelConfigs : list (string * ModelConfig) :=
  [ ("gpt-4", config_gpt_4);
    ("gpt-4o", config_gpt_4o);
    ("gpt-4-turbo", config_gpt_4_turbo);
    ("gpt-3.5-turbo", config_gpt_35_turbo) ].

Definition defaultModel : string := "gpt-4o".

(** [this.modelConfigs[model] || this.modelConfigs[this.defaultModel]] for
    a [model] that is not a name inherited from [Object.prototype] (for the
    others see [AnyModelId.getModelConfig]); the default id is a key of the
    table, so the second lookup succeeds. *)
Definition getModelConfig (model : string) : ModelConfig :=
  match assoc model modelConfigs with
  | Some config => config
  | None =>
      match assoc defaultModel modelConfigs with
      | Some config => config
      | None => config_gpt_4o
      end
  end.

Definition ofNat (n : nat) : Q := inject_Z (Z.of_nat n).

(** [encode(text, model)] *)
Definition encode (text : JsVal) (model : string) : Completion Z :=
  if negb (truthy text) || negb (typeof text =? "string")%string
  then Normal 0
  else
    let config := getModelConfig model in
    trimmed <- (s <- stringReceiver text ;; Normal (trim (chars s))) ;;
    let normalizedText := collapseSpaces trimmed in
    let words :=
      filter (fun word => (0 <? List.length word)%nat)
             (splitSpaces normalizedText) in
    let specialChars := List.length (matchSpecial normalizedText) in
    let charBasedEstimate :=
      Qceiling (ofNat (List.length normalizedText) / avgCharsPerToken config) in
    let wordBasedEstimate := Qceiling (ofNat (List.length words) * (13 # 10)) in
    let specialCharTokens := Qceiling (ofNat specialChars * (1 # 2)) in
    Normal (Z.max charBasedEstimate (wordBasedEstimate + specialCharTokens)).

(** The body of the [for ... of] loop of [encodeChat]: the tokens one
    message adds to [totalTokens]. *)
Definition encodeChatMessage (message : JsVal) (model : string)
  : Completion Z :=
  if negb (truthy message) || negb (typeof message =? "object")%string
  then Normal 0
  else
    roleTokens <-
      (if truthy (getField message "role")
       then encode (getField message "role") model else Normal 0) ;;
    contentTokens <-
      (if truthy (getField message "content")
       then encode (getField message "content") model else Normal 0) ;;
    nameTokens <-
      (if truthy (getField message "name")
       then n <- encode (getField message "name") model ;; Normal (n + 1)
       else Normal 0) ;;
    Normal (4 + roleTokens + contentTokens + nameTokens).

Fixpoint encodeChatLoop (totalTokens : Z) (messages : list JsVal)
  (model : string) : Completion Z :=
  match messages with
  | [] => Normal totalTokens
  | message :: rest =>
      n <- encodeChatMessage message model ;;
      encodeChatLoop (totalTokens + n) rest model
  end.

(** [encodeChat(messages, model)] *)
Definition encodeChat (messages : JsVal) (model : string) : Completion Z :=
  if negb (isArray messages)
  then Normal 0
  else
    totalTokens <- encodeChatLoop (0 + 4) (arrayItems messages) model ;;
    Normal (totalTokens + 2).

(** [calculateCost(inputTokens, outputTokens, model)] *)
Definition calculateCost (inputTokens outputTokens : Z) (model : string) : Q :=
  let config := getModelConfig model in
  let inputCost := ((inject_Z inputTokens / 1000) * costPer1kInput config)%Q in
  let outputCost := ((inject_Z outputTokens / 1000) * costPer1kOutput config)%Q in
  (inputCost + outputCost)%Q.

(** [detectModel(text)] *)
Definition detectModel (text : JsVal) : Completion string :=
  lowerText <- (s <- stringReceiver text ;; Normal (toLowerCase (chars s))) ;;
  if includes lowerText (chars "gpt-4o") then Normal "gpt-4o"
  else if includes lowerText (chars "gpt-4-turbo")
          || includes lowerText (chars "gpt-4 turbo")
       then Normal "gpt-4-turbo"
  else if includes lowerText (chars "gpt-4") then Normal "gpt-4"
  else if includes lowerText (chars "gpt-3.5")
          || includes lowerText (chars "gpt-3.5-turbo")
       then Normal "gpt-3.5-turbo"
  else Normal defaultModel.

End GPTTokenizer.

Import GPTTokenizer.

(** ** The content script: class ChatGPTTokenTracker

    Only the accounting state is modelled: [this.currentConversation], the
    setting [this.settings.defaultModel], the conversation history kept in
    [chrome.storage.local] and the continuations of suspended [async]
    methods.  The overlay, the popup messages and the DOM observers are
    outside the model; what the code reads from the page (the address, the
    text of the model indicators, the clock, the generated identifier) is
    an explicit input. *)

Module ChatGPTTokenTracker.

(** A message as [extractMessageFromElement] builds it (the [element]
    reference is left out). *)
Record Message : Type := {
  role : string;
  content : string;
  timestamp : Z
}.

(** [urlId] is [None] for a conversation object without the field and for
    the [null] that [startNewConversation()] stores. *)
Record Conversation : Type := {
  id : string;
  urlId : option string;
  messages : list Message;
  totalInputTokens : Z;
  totalOutputTokens : Z;
  totalCost : Q;
  model : string;
  startTime : Z
}.

Definition setMessages (c : Conversation) (ms : list Message) : Conversation :=
  {| id := id c; urlId := urlId c; messages := ms;
     totalInputTokens := totalInputTokens c;
     totalOutputTokens := totalOutputTokens c;
     totalCost := totalCost c; model := model c; startTime := startTime c |}.

Definition setTotalInputTokens (c : Conversation) (n : Z) : Conversation :=
  {| id := id c; urlId := urlId c; messages := messages c;
     totalInputTokens := n;
     totalOutputTokens := totalOutputTokens c;
     totalCost := totalCost c; model := model c; startTime := startTime c |}.

Definition setTotalOutputTokens (c : Conversation) (n : Z) : Conversation :=
  {| id := id c; urlId := urlId c; messages := messages c;
     totalInputTokens := totalInputTokens c;
     totalOutputTokens := n;
     totalCost := totalCost c; model := model c; startTime := startTime c |}.

Definition setTotalCost (c : Conversation) (q : Q) : Conversation :=
  {| id := id c; urlId := urlId c; messages := messages c;
     totalInputTokens := totalInputTokens c;
     totalOutputTokens := totalOutputTokens c;
     totalCost := q; model := model c; startTime := startTime c |}.

(** [createNewConversation()], with the generated identifier and the clock
    reading as inputs. *)
Definition createNewConversation (newId : string) (now : Z) : Conversation :=
  {| id := newId; urlId := None; messages := [];
     totalInputTokens := 0; totalOutputTokens := 0; totalCost := 0;
     model := "gpt-4o"; startTime := now |}.

(** The callback of [messages.some(...)] in [processMessages]. *)
Definition sameMessage (message existing : Message) : bool :=
  (content existing =? content message)%string
  && (role existing =? role message)%string.

(** The callback of [messages.forEach(...)] in [processMessages], on the
    pair of [this.currentConversation] and the local [hasNewMessages]. *)
Definition processMessage (state : Conversation * bool) (message : Message)
  : Completion (Conversation * bool) :=
  let (conv, hasNewMessages) := state in
  let exists_ := existsb (sameMessage message) (messages conv) in
  if negb exists_
  then
    let conv := setMessages conv (messages conv ++ [message]) in
    tokens <- encode (JStr (content message)) (model conv) ;;
    if (role message =? "user")%string
    then Normal (setTotalInputTokens conv (totalInputTokens conv + tokens), true)
    else if (role message =? "assistant")%string
    then Normal (setTotalOutputTokens conv (totalOutputTokens conv + tokens), true)
    else Normal (conv, true)
  else Normal (conv, hasNewMessages).

Fixpoint forEach (state : Conversation * bool) (batch : list Message)
  : Completion (Conversation * bool) :=
  match batch with
  | [] => Normal state
  | message :: rest =>
      state' <- processMessage state message ;;
      forEach state' rest
  end.

(** [processMessages(messages)]: the conversation after the call and the
    final value of [hasNewMessages]. *)
Definition processMessages (conv : Conversation) (batch : list Message)
  : Completion (Conversation * bool) :=
  state <- forEach (conv, false) batch ;;
  let (conv, hasNewMessages) := state in
  if hasNewMessages
  then
    Normal (setTotalCost conv
              (calculateCost (totalInputTokens conv) (totalOutputTokens conv)
                 (model conv)),
            true)
  else Normal (conv, false).

(** [array.slice(-n)]: the last [n] elements. *)
Definition sliceLast {A : Type} (n : nat) (l : list A) : list A :=
  skipn (List.length l - n) l.

(** [performMemoryCleanup()], on the current conversation. *)
Definition performMemoryCleanup (conv : Conversation) : Conversation :=
  if (100 <? List.length (messages conv))%nat
  then setMessages conv (sliceLast 50 (messages conv))
  else conv.

(** *** Conversation boundaries *)

Record HistoryEntry : Type := {
  closed : Conversation;
  endTime : Z
}.

(** What a suspended [async] method does when it is resumed. *)
Inductive Continuation : Type :=
| SaveConversationToHistory_afterGet.

Record Tracker : Type := {
  currentConversation : Conversation;
  settingsDefaultModel : string;
  conversationsHistory : list HistoryEntry;
  suspended : list Continuation
}.

(** What one synchronous run of the tracker reads from the page. *)
Record Page : Type := {
  href : string;
  modelIndicators : list string;
  dateNow : Z;
  generatedId : string
}.

Definition isIdChar (c : ascii) : bool :=
  let n := code c in
  ((48 <=? n) && (n <=? 57) || (65 <=? n) && (n <=? 90)
   || (97 <=? n) && (n <=? 122) || (n =? 45))%N.

Fixpoint takeWhile {A : Type} (p : A -> bool) (l : list A) : list A :=
  match l with
  | [] => []
  | a :: l' => if p a then a :: takeWhile p l' else []
  end.

(** [url.match(/\/c\/([a-zA-Z0-9-]+)/)]: the capture group of the leftmost
    match, if any. *)
Fixpoint matchConversationUrl (url : list ascii) : option (list ascii) :=
  match url with
  | [] => None
  | _ :: url' =>
      if startsWith (chars "/c/") url
      then
        match takeWhile isIdChar (skipn 3 url) with
        | [] => matchConversationUrl url'
        | captured => Some captured
        end
      else matchConversationUrl url'
  end.

(** [detectCurrentModel()] *)
Fixpoint detectCurrentModelLoop (indicators : list string)
  (settingsDefault : string) : Completion string :=
  match indicators with
  | [] => Normal settingsDefault
  | textContent :: rest =>
      let text := string_of_list_ascii (toLowerCase (chars textContent)) in
      model <- detectModel (JStr text) ;;
      if negb (model =? defaultModel)%string
      then Normal model
      else detectCurrentModelLoop rest settingsDefault
  end.

Definition detectCurrentModel (page : Page) (t : Tracker) : Completion string :=
  detectCurrentModelLoop (modelIndicators page) (settingsDefaultModel t).

(** [saveConversationToHistory()] is [async] and its first statement awaits
    [chrome.storage.local.get]: a call runs it up to that [await] and leaves
    the rest as a continuation, which the event loop resumes only after the
    calling code has run to completion. *)
Definition saveConversationToHistory (t : Tracker) : Tracker :=
  {| currentConversation := currentConversation t;
     settingsDefaultModel := settingsDefaultModel t;
     conversationsHistory := conversationsHistory t;
     suspended := suspended t ++ [SaveConversationToHistory_afterGet] |}.

(** The rest of [saveConversationToHistory()]: [history.push({
    ...this.currentConversation, endTime: Date.now() })], the cap at 100
    entries and the write back. *)
Definition resume (now : Z) (k : Continuation) (t : Tracker) : Tracker :=
  match k with
  | SaveConversationToHistory_afterGet =>
      let history :=
        (conversationsHistory t
         ++ [ {| closed := currentConversation t; endTime := now |} ])%list in
      let history :=
        if (100 <? List.length history)%nat
        then skipn (List.length history - 100)%nat history
        else history in
      {| currentConversation := currentConversation t;
         settingsDefaultModel := settingsDefaultModel t;
         conversationsHistory := history;
         suspended := suspended t |}
  end.

(** The event loop resuming every suspended method, at clock reading [now]. *)
Definition runSuspended (now : Z) (t : Tracker) : Tracker :=
  fold_left (fun t k => resume now k t) (suspended t)
    {| currentConversation := currentConversation t;
       settingsDefaultModel := settingsDefaultModel t;
       conversationsHistory := conversationsHistory t;
       suspended := [] |}.

(** [startNewConversation(urlId = null)] *)
Definition startNewConversation (urlId : option string) (page : Page)
  (t : Tracker) : Completion Tracker :=
  let t :=
    if (0 <? List.length (messages (currentConversation t)))%nat
    then saveConversationToHistory t
    else t in
  detected <- detectCurrentModel page t ;;
  Normal
    {| currentConversation :=
         {| id := generatedId page; urlId := urlId; messages := [];
            totalInputTokens := 0; totalOutputTokens := 0; totalCost := 0;
            model := detected; startTime := dateNow page |};
       settingsDefaultModel := settingsDefaultModel t;
       conversationsHistory := conversationsHistory t;
       suspended := suspended t |}.

(** [conversationMatch[1] !== this.currentConversation.urlId] *)
Definition differsFrom (captured : string) (stored : option string) : bool :=
  match stored with
  | Some s => negb (captured =? s)%string
  | None => true
  end.

(** ToBoolean of [this.currentConversation.urlId]. *)
Definition hasUrlId (stored : option string) : bool :=
  match stored with
  | Some s => negb (s =? "")%string
  | None => false
  end.

(** The two tests of [detectNewConversation()]: [Some arg] when
    [startNewConversation] is called, with its argument. *)
Definition boundary (conv : Conversation) (observed : option string)
  : option (option string) :=
  match observed with
  | Some captured =>
      if differsFrom captured (urlId conv) then Some (Some captured) else None
  | None =>
      if hasUrlId (urlId conv) then Some None else None
  end.

(** [detectNewConversation()] *)
Definition detectNewConversation (page : Page) (t : Tracker)
  : Completion Tracker :=
  let conversationMatch :=
    option_map string_of_list_ascii (matchConversationUrl (chars (href page))) in
  match boundary (currentConversation t) conversationMatch with
  | Some arg => startNewConversation arg page t
  | None => Normal t
  end.

End ChatGPTTokenTracker.

Import ChatGPTTokenTracker.

(** ** The product [words.length * 1.3] in binary64 *)

Module Binary64.

(** The double written [1.3] is [mantissa13 * 2^-52]. *)
Definition mantissa13 : Z := 5854679515581645.

(** Round to nearest, ties to even: the multiple of [2^shift] nearest to [n]. *)
Definition roundToMultiple (n shift : Z) : Z :=
  let unit := 2 ^ shift in
  let q := n / unit in
  let r := n mod unit in
  if (unit <? 2 * r) || ((2 * r =? unit) && Z.odd q)
  then (q + 1) * unit
  else q * unit.

(** A non-negative integer rounded to 53 significant bits. *)
Definition round53 (n : Z) : Z :=
  let shift := Z.log2 n - 52 in
  if shift <=? 0 then n else roundToMultiple n shift.

(** [w * 1.3] for an integer [w]: the exact product of the two doubles is
    [(w * mantissa13) * 2^-52], and the result is that product rounded to 53
    significant bits. *)
Definition times13 (w : Z) : Q := round53 (w * mantissa13) # (2 ^ 52).

End Binary64.

Import Binary64.

(** ** The quantities of the specification

    Definitions that follow the words of the specification, to be compared
    with what the code computes. *)

Module Spec.

(** "Normalize: trim, collapse internal whitespace runs to a single space." *)
Definition normalize (text : list ascii) : list ascii :=
  collapseSpaces (trim text).

(** "wordCount is the count of whitespace-delimited non-empty tokens": one
    for every code unit that is not white space and stands at the start of
    the text or after white space. *)
Fixpoint countWords (atStart : bool) (s : list ascii) : nat :=
  match s with
  | [] => 0
  | c :: s' =>
      if isSpace c then countWords true s'
      else ((if atStart then 1 else 0) + countWords false s')%nat
  end.

Definition wordCount (s : list ascii) : nat := countWords true s.

(** "countOfNonWordNonWhitespaceChars" *)
Fixpoint specialCount (s : list ascii) : nat :=
  match s with
  | [] => 0
  | c :: s' =>
      ((if isWord c then 0 else if isSpace c then 0 else 1) + specialCount s')%nat
  end.

(** "the Model Profile for modelId (falling back to a designated default
    profile if modelId is unknown)" *)
Definition profile (modelId : string) : ModelConfig :=
  if (modelId =? "gpt-4")%string then config_gpt_4
  else if (modelId =? "gpt-4o")%string then config_gpt_4o
  else if (modelId =? "gpt-4-turbo")%string then config_gpt_4_turbo
  else if (modelId =? "gpt-3.5-turbo")%string then config_gpt_35_turbo
  else config_gpt_4o.

(** "Result = max(character-based estimate, word-based estimate +
    special-character surcharge)", from the three counts. *)
Definition estimateFrom (L W S : nat) (avg : Q) : Z :=
  Z.max (Qceiling (ofNat L / avg))
        (Qceiling (ofNat W * (13 # 10)) + Qceiling (ofNat S * (1 # 2))).

Definition estimate (text : list ascii) (modelId : string) : Z :=
  let n := normalize text in
  estimateFrom (List.length n) (wordCount n) (specialCount n)
    (avgCharsPerToken (profile modelId)).

(** *** Chat-formatted payloads *)

(** "messages: sequence of {role, content, name?}" *)
Record ChatMessage : Type := {
  chatRole : string;
  chatContent : string;
  chatName : option string
}.

(** The object a caller passes for such a message; the [name] property is
    there exactly when the field is present. *)
Definition toJs (msg : ChatMessage) : JsVal :=
  JObj (("role", JStr (chatRole msg))
        :: ("content", JStr (chatContent msg))
        :: match chatName msg with
           | Some n => [("name", JStr n)]
           | None => []
           end).

Definition estimateString (s modelId : string) : Z := estimate (chars s) modelId.

Definition sumZ (l : list Z) : Z := fold_right Z.add 0 l.

(** "4 tokens per message, plus estimate(role-string), plus estimate(content),
    plus estimate(name)+1 if a name field is present" *)
Definition chatMessageTokens (modelId : string) (msg : ChatMessage) : Z :=
  4 + estimateString (chatRole msg) modelId
  + estimateString (chatContent msg) modelId
  + match chatName msg with
    | Some n => estimateString n modelId + 1
    | None => 0
    end.

Definition estimateChat (msgs : list ChatMessage) (modelId : string) : Z :=
  4 + sumZ (map (chatMessageTokens modelId) msgs) + 2.

(** The same with the name counted only when it is present and not the
    empty string. *)
Definition chatMessageTokensNamed (modelId : string) (msg : ChatMessage) : Z :=
  4 + estimateString (chatRole msg) modelId
  + estimateString (chatContent msg) modelId
  + match chatName msg with
    | Some n => if (n =? "")%string then 0 else estimateString n modelId + 1
    | None => 0
    end.

Definition estimateChatNamed (msgs : list ChatMessage) (modelId : string) : Z :=
  4 + sumZ (map (chatMessageTokensNamed modelId) msgs) + 2.

(** *** Conversation accounting *)

(** "a dedup key = (role, content) exact match against the conversation's
    already-recorded messages" *)
Definition recorded (m : Message) (conv : Conversation) : bool :=
  existsb (sameMessage m) (messages conv).

Definition tokensOf (modelId : string) (m : Message) : Z :=
  estimateString (content m) modelId.

(** "the sum of per-message estimated tokens for all messages in the
    sequence", for one role. *)
Fixpoint sumTokens (roleName modelId : string) (ms : list Message) : Z :=
  match ms with
  | [] => 0
  | m :: ms' =>
      (if (role m =? roleName)%string then tokensOf modelId m else 0)
      + sumTokens roleName modelId ms'
  end.

Definition costConsistent (conv : Conversation) : Prop :=
  (totalCost conv
   == calculateCost (totalInputTokens conv) (totalOutputTokens conv)
        (model conv))%Q.

(** "cumulative token counts equal the sum of per-message estimated tokens
    for all messages in the sequence, partitioned by role; cumulative cost
    equals Cost Calculator(cumulative input, cumulative output, active
    model)" *)
Definition accountingInvariant (conv : Conversation) : Prop :=
  totalInputTokens conv = sumTokens "user" (model conv) (messages conv)
  /\ totalOutputTokens conv = sumTokens "assistant" (model conv) (messages conv)
  /\ costConsistent conv.

(** What holds of the totals once messages may have been dropped. *)
Definition totalsCoverMessages (conv : Conversation) : Prop :=
  sumTokens "user" (model conv) (messages conv) <= totalInputTokens conv
  /\ sumTokens "assistant" (model conv) (messages conv) <= totalOutputTokens conv
  /\ costConsistent conv.

(** A conversation as [createNewConversation] and [startNewConversation]
    build it. *)
Definition fresh (conv : Conversation) : Prop :=
  messages conv = [] /\ totalInputTokens conv = 0
  /\ totalOutputTokens conv = 0 /\ totalCost conv = 0%Q.

(** The operations the tracker applies to an open conversation. *)
Inductive Operation : Type :=
| Ingest (batch : list Message)
| MemoryCleanup.

Definition applyOperation (conv : Conversation) (op : Operation)
  : Completion Conversation :=
  match op with
  | Ingest batch => r <- processMessages conv batch ;; Normal (fst r)
  | MemoryCleanup => Normal (performMemoryCleanup conv)
  end.

Fixpoint run (conv : Conversation) (ops : list Operation)
  : Completion Conversation :=
  match ops with
  | [] => Normal conv
  | op :: ops' => conv' <- applyOperation conv op ;; run conv' ops'
  end.

Definition isIngest (op : Operation) : bool :=
  match op with
  | Ingest _ => true
  | MemoryCleanup => false
  end.

(** "calling ingest(conv, [m]) twice with the identical message m yields
    changed=true then changed=false", the tokens of [m] being added to the
    total of its role once. *)
Definition dedupTwice (conv : Conversation) (m : Message) : Prop :=
  exists conv1 : Conversation,
    processMessages conv [m] = Normal (conv1, true)
    /\ processMessages conv1 [m] = Normal (conv1, false)
    /\ totalInputTokens conv1
       = totalInputTokens conv
         + (if (role m =? "user")%string then tokensOf (model conv) m else 0)
    /\ totalOutputTokens conv1
       = totalOutputTokens conv
         + (if (role m =? "assistant")%string then tokensOf (model conv) m else 0).




(** What the [forEach] callback of [processMessages] does with a candidate
    that is not recorded yet. *)
Definition recordMessage (conv : Conversation) (m : Message) : Conversation :=
  let conv := setMessages conv (messages conv ++ [m]) in
  let tokens := tokensOf (model conv) m in
  if (role m =? "user")%string
  then setTotalInputTokens conv (totalInputTokens conv + tokens)
  else if (role m =? "assistant")%string
  then setTotalOutputTokens conv (totalOutputTokens conv + tokens)
  else conv.

Definition step (state : Conversation * bool) (m : Message)
  : Conversation * bool :=
  if recorded m (fst state) then state else (recordMessage (fst state) m, true).

(** The tokens counted in a total that no recorded message accounts for. *)
Definition unaccountedInput (conv : Conversation) : Z :=
  totalInputTokens conv - sumTokens "user" (model conv) (messages conv).

Definition unaccountedOutput (conv : Conversation) : Z :=
  totalOutputTokens conv - sumTokens "assistant" (model conv) (messages conv).


(** *** The normalized text, from its words

    "the length of text after trimming and collapsing internal whitespace
    runs to a single space": what is left of the text is its words (the
    maximal runs of code units that are not white space), in order, with
    one SPACE between two neighbours. *)
Fixpoint wordsOf (s : list ascii) : list (list ascii) :=
  match s with
  | [] => []
  | c :: s' =>
      if isSpace c then wordsOf s'
      else
        match s' with
        | [] => [[c]]
        | d :: _ =>
            if isSpace d then [c] :: wordsOf s'
            else
              match wordsOf s' with
              | w :: ws => (c :: w) :: ws
              | [] => [[c]]
              end
        end
  end.

Fixpoint joinWords (ws : list (list ascii)) : list ascii :=
  match ws with
  | [] => []
  | w :: rest =>
      match rest with
      | [] => w
      | _ :: _ => (w ++ " "%char :: joinWords rest)%list
      end
  end.

Definition normalizedText (text : list ascii) : list ascii :=
  joinWords (wordsOf text).

(** "a dedup key = (role, content)": no recorded message of the
    conversation has both the role and the content of [m]. *)
Definition keyIsNew (m : Message) (conv : Conversation) : Prop :=
  forall existing : Message,
    In existing (messages conv) ->
    role existing <> role m \/ content existing <> content m.

End Spec.

(** ** Concrete conversations and pages used below *)

Module Examples.

Definition helloMessage : Message :=
  {| role := "user"; content := "Hello, world!"; timestamp := 1 |}.

Definition emptyConversation : Conversation := createNewConversation "conv_1" 0.

(** [emptyConversation] after the ingest of [helloMessage]. *)
Definition helloConversation : Conversation :=
  {| id := "conv_1"; urlId := None; messages := [helloMessage];
     totalInputTokens := 4; totalOutputTokens := 0;
     totalCost := calculateCost 4 0 "gpt-4o";
     model := "gpt-4o"; startTime := 0 |}.

Fixpoint repeatChar (c : ascii) (n : nat) : string :=
  match n with
  | O => ""
  | S n' => String c (repeatChar c n')
  end.

(** User messages with pairwise different contents: "aaaaa", "aaaaaa", ... *)
Definition userMessage (k : nat) : Message :=
  {| role := "user"; content := repeatChar "a" (k + 5);
     timestamp := Z.of_nat k |}.

Definition manyMessages (n : nat) : list Message := map userMessage (seq 0 n).

(** A conversation opened at /c/abc with one recorded message. *)
Definition abcConversation : Conversation :=
  {| id := "conv_abc"; urlId := Some "abc"; messages := [helloMessage];
     totalInputTokens := 4; totalOutputTokens := 0;
     totalCost := calculateCost 4 0 "gpt-4o";
     model := "gpt-4o"; startTime := 100 |}.

Definition abcTracker : Tracker :=
  {| currentConversation := abcConversation;
     settingsDefaultModel := "gpt-4o";
     conversationsHistory := [];
     suspended := [] |}.

(** The page after the user moved to /c/xyz. *)
Definition xyzPage : Page :=
  {| href := "https://chatgpt.com/c/xyz";
     modelIndicators := ["ChatGPT GPT-4 Turbo"];
     dateNow := 200;
     generatedId := "conv_xyz" |}.

(** The conversation [startNewConversation] creates on [xyzPage]. *)
Definition xyzConversation : Conversation :=
  {| id := "conv_xyz"; urlId := Some "xyz"; messages := [];
     totalInputTokens := 0; totalOutputTokens := 0; totalCost := 0;
     model := "gpt-4-turbo"; startTime := 200 |}.

End Examples.

Import Examples.

(** ** Normal forms of texts and message sequences *)

Module Forms.

(** A text in which every white-space code unit is a single SPACE that
    stands between two other code units; [afterSpace] tells that the text
    starts right after a SPACE (or at the start of the whole text). *)
Fixpoint collapsedFrom (afterSpace : bool) (s : list ascii) : bool :=
  match s with
  | [] => negb afterSpace
  | c :: s' =>
      if isSpace c
      then negb afterSpace && Ascii.eqb c " " && collapsedFrom true s'
      else collapsedFrom false s'
  end.

Definition isNormalized (s : list ascii) : bool :=
  match s with
  | [] => true
  | _ => collapsedFrom true s
  end.

(** No two messages of the sequence have the same (role, content). *)
Fixpoint distinctKeys (ms : list Message) : bool :=
  match ms with
  | [] => true
  | m :: rest => negb (existsb (sameMessage m) rest) && distinctKeys rest
  end.

End Forms.

Import Forms.

(** ** The content script: reading a message off the page *)

Module MessageExtraction.

(** What [extractMessageFromElement] reads from an element: the attribute
    [data-message-author-role] ([None] for the [null] of a missing
    attribute), the text of the element, its class list as a string, whether
    it has a descendant matching [[class*="avatar"]], and the text of the
    first descendant matching [[class*="markdown"], .text-base, p], if any. *)
Record Element : Type := {
  roleAttribute : option string;
  textContent : string;
  innerText : string;
  classList : string;
  hasAvatar : bool;
  contentElement : option (string * string)
}.

(** [a || b] on strings: [a] unless it is empty. *)
Definition orElse (a b : string) : string :=
  if (a =? "")%string then b else a.

(** [extractMessageFromElement(element)], with the clock reading; [None]
    is the [null] result. *)
Definition extractMessageFromElement (now : Z) (element : Element)
  : option Message :=
  let role :=
    match roleAttribute element with
    | Some roleAttr =>
        if negb (roleAttr =? "")%string then roleAttr
        else if includes (chars (textContent element)) (chars "ChatGPT")
                || includes (chars (classList element)) (chars "assistant")
                || hasAvatar element
        then "assistant" else "user"
    | None =>
        if includes (chars (textContent element)) (chars "ChatGPT")
           || includes (chars (classList element)) (chars "assistant")
           || hasAvatar element
        then "assistant" else "user"
    end in
  let content :=
    match contentElement element with
    | Some (text, inner) => orElse text (orElse inner "")
    | None => orElse (textContent element) (orElse (innerText element) "")
    end in
  let content := string_of_list_ascii (trim (chars content)) in
  if (content =? "")%string || (String.length content <? 5)%nat
  then None
  else Some {| role := role; content := content; timestamp := now |}.

End MessageExtraction.

(** ** lib/gpt-tokenizer.js, second part: class PerformanceManager *)

Module PerformanceManager.

(** ToInt32: the number wrapped into [-2^31, 2^31). *)
Definition toInt32 (z : Z) : Z := (z + 2 ^ 31) mod 2 ^ 32 - 2 ^ 31.

(** [a << n] *)
Definition shiftLeft (a n : Z) : Z := toInt32 (Z.shiftl (toInt32 a) n).

(** [a & b] *)
Definition bitAnd (a b : Z) : Z := Z.land (toInt32 a) (toInt32 b).

(** The body of the loop of [hashString]. *)
Definition hashStep (hash : Z) (c : ascii) : Z :=
  let char := Z.of_N (code c) in
  let hash := (shiftLeft hash 5 - hash) + char in
  bitAnd hash hash.

(** [hashString(str)] *)
Definition hashString (str : string) : Z :=
  if (String.length str =? 0)%nat then 0
  else fold_left hashStep (chars str) 0.

(** The polynomial the hash computes before wrapping. *)
Definition polynomial31 (s : list ascii) : Z :=
  fold_left (fun h c => 31 * h + Z.of_N (code c)) s 0.

(** The part of the manager's state that token calculations touch:
    [tokenCache] (a [Map], in insertion order), [metrics.tokenCalculations]
    and the callbacks handed to [requestIdleCallback]. *)
Record State : Type := {
  tokenCache : list (string * Z);
  tokenCalculations : Z;
  idleCallbacks : list (string * string * string)
}.

(** What the page provides. *)
Record Window : Type := {
  hasRequestIdleCallback : bool;
  hasGPTTokenizer : bool
}.

(** The result of [optimizeTokenCalculation]: a number, or a promise that
    an idle callback resolves later. *)
Inductive Result : Type :=
| Value (n : Z)
| Promise.

Definition decimalNat (n : nat) : string :=
  DecimalString.NilZero.string_of_uint (Nat.to_uint n).

Definition decimalZ (z : Z) : string :=
  DecimalString.NilZero.string_of_int (Z.to_int z).

(** [`${model}:${text.length}:${this.hashString(text)}`] *)
Definition cacheKey (text model : string) : string :=
  model ++ ":" ++ decimalNat (String.length text) ++ ":"
  ++ decimalZ (hashString text).

(** [map.set(key, value)] *)
Fixpoint mapSet (key : string) (value : Z) (m : list (string * Z))
  : list (string * Z) :=
  match m with
  | [] => [(key, value)]
  | (k, v) :: m' =>
      if (key =? k)%string then (k, value) :: m' else (k, v) :: mapSet key value m'
  end.

(** [calculateTokensInternal(text, model)] *)
Definition calculateTokensInternal (w : Window) (text model : string)
  : Completion Z :=
  if hasGPTTokenizer w
  then encode (JStr text) model
  else Normal (Qceiling (ofNat (String.length text) / 4)).

(** [optimizeTokenCalculation(text, model)], with the configuration flag
    [optimizations.useRequestIdleCallback]. *)
Definition optimizeTokenCalculation (useRequestIdleCallback : bool)
  (w : Window) (text model : string) (st : State)
  : Completion (Result * State) :=
  let key := cacheKey text model in
  match assoc key (tokenCache st) with
  | Some cached => Normal (Value cached, st)
  | None =>
      if useRequestIdleCallback && hasRequestIdleCallback w
      then
        Normal (Promise,
                {| tokenCache := tokenCache st;
                   tokenCalculations := tokenCalculations st;
                   idleCallbacks := idleCallbacks st ++ [(key, text, model)] |})
      else
        result <- calculateTokensInternal w text model ;;
        Normal (Value result,
                {| tokenCache := mapSet key result (tokenCache st);
                   tokenCalculations := tokenCalculations st + 1;
                   idleCallbacks := idleCallbacks st |})
  end.

(** The callback that [optimizeTokenCalculation] hands to
    [requestIdleCallback], when the browser runs it: the calculation,
    [tokenCache.set], the metric, and the value its promise resolves with. *)
Definition runIdleCallback (w : Window) (callback : string * string * string)
  (st : State) : Completion (Z * State) :=
  let '(key, text, model) := callback in
  result <- calculateTokensInternal w text model ;;
  Normal (result,
          {| tokenCache := mapSet key result (tokenCache st);
             tokenCalculations := tokenCalculations st + 1;
             idleCallbacks := idleCallbacks st |}).

Fixpoint runIdleCallbacksFrom (w : Window)
  (pending : list (string * string * string)) (st : State)
  : Completion (list Z * State) :=
  match pending with
  | [] => Normal ([], st)
  | callback :: rest =>
      r <- runIdleCallback w callback st ;;
      rs <- runIdleCallbacksFrom w rest (snd r) ;;
      Normal (fst r :: fst rs, snd rs)
  end.

(** The browser running the pending idle callbacks, in the order they were
    requested: the values their promises resolve with, and the state. *)
Definition runIdleCallbacks (w : Window) (st : State)
  : Completion (list Z * State) :=
  runIdleCallbacksFrom w (idleCallbacks st)
    {| tokenCache := tokenCache st;
       tokenCalculations := tokenCalculations st;
       idleCallbacks := [] |}.

End PerformanceManager.

(** ** Names every object inherits *)

Module ObjectPrototype.

(** The names [{}] inherits from [Object.prototype]: reading one of them on
    an object that has no own property of that name gives a function (the
    prototype object for [__proto__]), which is truthy and which [++] turns
    into [NaN]. *)
Definition inheritedKeys : list string :=
  [ "constructor"; "hasOwnProperty"; "isPrototypeOf"; "propertyIsEnumerable";
    "toLocaleString"; "toString"; "valueOf";
    "__defineGetter__"; "__defineSetter__";
    "__lookupGetter__"; "__lookupSetter__"; "__proto__" ].

Definition isInherited (key : string) : bool :=
  existsb (String.eqb key) inheritedKeys.

End ObjectPrototype.

(** ** lib/gpt-tokenizer.js: class GPTTokenizer, on every model id

    [encode], [getModelConfig] and [calculateCost] as the source computes
    them for any string passed as the model, the names [modelConfigs]
    inherits included. *)

Module AnyModelId.

(** A JavaScript number: a value or [NaN]. *)
Inductive Number (A : Type) : Type :=
| Finite (a : A)
| NaN.

Arguments Finite {A} a.
Arguments NaN {A}.

(** What [this.modelConfigs[model]] evaluates to: one of the four profiles,
    a member inherited from [Object.prototype] (a function, or the prototype
    object for [__proto__]), or [undefined]. *)
Inductive Member : Type :=
| Profile (config : ModelConfig)
| InheritedMember
| Undefined.

(** [this.modelConfigs[model]]: own keys first, then the prototype. *)
Definition member (model : string) : Member :=
  match assoc model modelConfigs with
  | Some config => Profile config
  | None =>
      if ObjectPrototype.isInherited model then InheritedMember else Undefined
  end.

(** [a || b]: an object and a function are truthy, [undefined] is not. *)
Definition orElse (a b : Member) : Member :=
  match a with
  | Undefined => b
  | _ => a
  end.

(** [getModelConfig(model)]:
    [this.modelConfigs[model] || this.modelConfigs[this.defaultModel]] *)
Definition getModelConfig (model : string) : Member :=
  orElse (member model) (member defaultModel).

(** [config.field] as an operand of [/] or [*]: the number of a profile;
    [undefined], which ToNumber turns into [NaN], on an inherited member;
    a [TypeError] on [undefined]. *)
Definition field (f : ModelConfig -> Q) (config : Member)
  : Completion (Number Q) :=
  match config with
  | Profile c => Normal (Finite (f c))
  | InheritedMember => Normal NaN
  | Undefined => Throw TypeError
  end.

(** An arithmetic operation: [NaN] as soon as an operand is [NaN]. *)
Definition lift2 {A B C : Type} (f : A -> B -> C) (a : Number A)
  (b : Number B) : Number C :=
  match a, b with
  | Finite x, Finite y => Finite (f x y)
  | _, _ => NaN
  end.

(** [a / b]; the divisors of this class are 4 and 1000, never 0. *)
Definition divide (a b : Number Q) : Number Q := lift2 Qdiv a b.

(** [a * b] *)
Definition times (a b : Number Q) : Number Q := lift2 Qmult a b.

(** [Math.ceil(a)] *)
Definition mathCeil (a : Number Q) : Number Z :=
  match a with
  | Finite q => Finite (Qceiling q)
  | NaN => NaN
  end.

(** [Math.max(a, b)] *)
Definition mathMax (a b : Number Z) : Number Z := lift2 Z.max a b.


(** [encode(text, model)] *)
Definition encode (text : JsVal) (model : string) : Completion (Number Z) :=
  if negb (truthy text) || negb (typeof text =? "string")%string
  then Normal (Finite 0)
  else
    let config := orElse (member model) (member defaultModel) in
    trimmed <- (s <- stringReceiver text ;; Normal (trim (chars s))) ;;
    let normalizedText := collapseSpaces trimmed in
    let words :=
      filter (fun word => (0 <? List.length word)%nat)
             (splitSpaces normalizedText) in
    let specialChars := List.length (matchSpecial normalizedText) in
    charsPerToken <- field avgCharsPerToken config ;;
    let charBasedEstimate :=
      mathCeil (divide (Finite (ofNat (List.length normalizedText)))
                  charsPerToken) in
    let wordBasedEstimate :=
      mathCeil (Finite (ofNat (List.length words) * (13 # 10))%Q) in
    let specialCharTokens :=
      mathCeil (Finite (ofNat specialChars * (1 # 2))%Q) in
    Normal (mathMax charBasedEstimate
              (lift2 Z.add wordBasedEstimate specialCharTokens)).

(** [calculateCost(inputTokens, outputTokens, model)] *)
Definition calculateCost (inputTokens outputTokens : Z) (model : string)
  : Completion (Number Q) :=
  let config := getModelConfig model in
  inputPrice <- field costPer1kInput config ;;
  let inputCost :=
    times (divide (Finite (inject_Z inputTokens)) (Finite 1000%Q))
      inputPrice in
  outputPrice <- field costPer1kOutput config ;;
  let outputCost :=
    times (divide (Finite (inject_Z outputTokens)) (Finite 1000%Q))
      outputPrice in
  Normal (lift2 Qplus inputCost outputCost).


End AnyModelId.

(** ** Costs in binary64

    [calculateCost] with the rounding of the source's arithmetic: every
    decimal literal, quotient, product and sum is the binary64 number
    nearest to the exact value, ties to even.  The numbers of this class
    are far from the ends of the binary64 range (token counts are integers
    below 2^53, prices are between 0.0015 and 0.06), so the exponent is not
    bounded here. *)

Module Doubles.

(** [2^k], for an integer [k] of either sign. *)
Definition pow2 (k : Z) : Q := (2 ^ k)%Q.

(** The integer part of the binary logarithm of a positive rational. *)
Definition exponent (q : Q) : Z :=
  let e := Z.log2 (Qnum q) - Z.log2 (Zpos (Qden q)) in
  if Qle_bool (pow2 e) q then e else e - 1.

(** The nearest integer, ties to even. *)
Definition roundHalfEven (q : Q) : Z :=
  let f := Qfloor q in
  let twice := (2 * (q - inject_Z f))%Q in
  if Qle_bool twice 1
  then (if Qeq_bool twice 1 && Z.odd f then f + 1 else f)
  else f + 1.

(** The binary64 number nearest to a positive rational: 53 significant
    bits. *)
Definition roundPositive (q : Q) : Q :=
  let unit := pow2 (exponent q - 52) in
  (inject_Z (roundHalfEven (q / unit)) * unit)%Q.

Definition round (q : Q) : Q :=
  if Qle_bool q 0
  then (if Qeq_bool q 0 then 0%Q else (- roundPositive (- q))%Q)
  else roundPositive q.

(** [calculateCost(inputTokens, outputTokens, model)], for a model id that
    is not a name inherited from [Object.prototype]. *)
Definition calculateCost (inputTokens outputTokens : Z) (model : string) : Q :=
  let config := getModelConfig model in
  let inputCost :=
    round (round (inject_Z inputTokens / 1000)
           * round (costPer1kInput config)) in
  let outputCost :=
    round (round (inject_Z outputTokens / 1000)
           * round (costPer1kOutput config)) in
  round (inputCost + outputCost).

End Doubles.

(** ** lib/error-handler.js: class ErrorHandler *)

Module ErrorHandler.

Record ErrorEntry : Type := {
  timestamp : Z;
  category : string;
  message : string
}.

(** [errorLog], the list kept in [localStorage] under
    'chatgpt-token-counter-critical-errors', and [retryAttempts]. *)
Record Handler : Type := {
  errorLog : list ErrorEntry;
  criticalErrors : list ErrorEntry;
  retryAttempts : list (string * Z)
}.

Definition maxLogSize : nat := 100.

Definition maxRetries : Z := 3.

(** [array.shift()] *)
Definition shift {A : Type} (l : list A) : list A := tl l.

(** [isCriticalError(category)] *)
Definition isCriticalError (category : string) : bool :=
  existsb (String.eqb category)
    ["Chrome API Error"; "Storage Error"; "Memory Error"; "Unhandled Error"].

(** [reportCriticalError(errorEntry)]: it has no [await], so a call runs it
    to its end. *)
Definition reportCriticalError (errorEntry : ErrorEntry) (h : Handler)
  : Handler :=
  let criticalErrors := (criticalErrors h ++ [errorEntry])%list in
  let criticalErrors :=
    if (10 <? List.length criticalErrors)%nat
    then shift criticalErrors else criticalErrors in
  {| errorLog := errorLog h; criticalErrors := criticalErrors;
     retryAttempts := retryAttempts h |}.

(** [logError(category, error, context)], with the clock reading and the
    message of the error. *)
Definition logError (now : Z) (category message : string) (h : Handler)
  : Handler :=
  let errorEntry :=
    {| timestamp := now; category := category; message := message |} in
  let log := (errorLog h ++ [errorEntry])%list in
  let log := if (maxLogSize <? List.length log)%nat then shift log else log in
  let h :=
    {| errorLog := log; criticalErrors := criticalErrors h;
       retryAttempts := retryAttempts h |} in
  if isCriticalError category then reportCriticalError errorEntry h else h.

(** [s.endsWith(sub)] *)
Definition endsWith (sub s : list ascii) : bool :=
  startsWith (rev sub) (rev s).

Definition supportedDomains : list string := ["chat.openai.com"; "chatgpt.com"].

(** [supportedDomains.some(domain => currentDomain === domain ||
    currentDomain.endsWith('.' + domain))] *)
Definition isSupported (currentDomain : string) : bool :=
  existsb (fun domain =>
             (currentDomain =? domain)%string
             || endsWith (chars ("." ++ domain)) (chars currentDomain))
    supportedDomains.

(** [validateChatGPTDomain()], with [window.location.hostname] and the clock
    reading. *)
Definition validateChatGPTDomain (now : Z) (currentDomain : string)
  (h : Handler) : bool * Handler :=
  if isSupported currentDomain
  then (true, h)
  else (false,
        logError now "Unsupported Domain"
          ("Domain " ++ currentDomain ++ " not supported") h).

(** What a call of the retried function comes to. *)
Inductive Outcome : Type :=
| Resolved (value : JsVal)
| Rejected (message : string).

(** [delete obj[key]] *)
Fixpoint remove (key : string) (m : list (string * Z)) : list (string * Z) :=
  match m with
  | [] => []
  | (k, v) :: m' =>
      if (key =? k)%string then remove key m' else (k, v) :: remove key m'
  end.

(** [obj[key] = value] *)
Fixpoint put (key : string) (value : Z) (m : list (string * Z))
  : list (string * Z) :=
  match m with
  | [] => [(key, value)]
  | (k, v) :: m' =>
      if (key =? k)%string then (k, value) :: m' else (k, v) :: put key value m'
  end.

(** What happens while a call is suspended at an [await]: the other tasks
    of the page run and change the handler (other calls of
    [retryWithBackoff] among them), and time passes. *)
Record Interval : Type := {
  others : Handler -> Handler;
  elapsed : Z
}.

(** What one call of [retryWithBackoff] did: the number of calls of [fn],
    the number of times it was suspended, the delays slept, and the clock. *)
Record Trace : Type := {
  calls : nat;
  awaits : nat;
  slept : list Z;
  clock : Z
}.

Definition setRetryAttempts (h : Handler) (r : list (string * Z)) : Handler :=
  {| errorLog := errorLog h; criticalErrors := criticalErrors h;
     retryAttempts := r |}.

(** [`Max retries (${maxRetries}) exceeded for ${key}: ${error.message}`] *)
Definition maxRetriesMessage (maxRetries : Z) (key message : string) : string :=
  "Max retries (" ++ PerformanceManager.decimalZ maxRetries
  ++ ") exceeded for " ++ key ++ ": " ++ message.

(** The delay before the retry that follows the failed attempt number
    [attempt]: [Math.min(1000 * Math.pow(2, attempt - 1), 10000)]. *)
Definition backoffDelay (attempt : Z) : Z :=
  Z.min (1000 * 2 ^ (attempt - 1)) 10000.

(** [retryWithBackoff(key, fn, maxRetries)].  The [n]-th call of [fn]
    returns a promise that comes to [fn n] (the callers pass an [async]
    function); the method is [async]: it is suspended at [await fn()] and
    at [await this.sleep(delay)], the [i]-th suspension lasting
    [suspension i], and it reads [this.retryAttempts[key]] again when it
    calls itself.  The recursive call is the next unit of [fuel]. *)
Fixpoint retryWithBackoff (fuel : nat) (key : string) (fn : nat -> Outcome)
  (maxRetries : Z) (suspension : nat -> Interval) (h : Handler) (tr : Trace)
  : option (Outcome * Handler * Trace) :=
  match fuel with
  | O => None
  | S fuel' =>
      let attempt :=
        match assoc key (retryAttempts h) with
        | Some n => if n =? 0 then 0 else n
        | None => 0
        end + 1 in
      let h := setRetryAttempts h (put key attempt (retryAttempts h)) in
      let outcome := fn (calls tr) in
      let h := others (suspension (awaits tr)) h in
      let tr :=
        {| calls := S (calls tr); awaits := S (awaits tr); slept := slept tr;
           clock := clock tr + elapsed (suspension (awaits tr)) |} in
      match outcome with
      | Resolved value =>
          Some (Resolved value,
                setRetryAttempts h (remove key (retryAttempts h)), tr)
      | Rejected message =>
          if maxRetries <=? attempt
          then
            Some (Rejected (maxRetriesMessage maxRetries key message),
                  setRetryAttempts h (remove key (retryAttempts h)), tr)
          else
            let delay := backoffDelay attempt in
            let h := others (suspension (awaits tr)) h in
            let tr :=
              {| calls := calls tr; awaits := S (awaits tr);
                 slept := (slept tr ++ [delay])%list;
                 clock := clock tr + delay + elapsed (suspension (awaits tr)) |} in
            let h := logError (clock tr) "Retry Attempt" message h in
            retryWithBackoff fuel' key fn maxRetries suspension h tr
      end
  end.

(** The other tasks leave the counter of [key] alone. *)
Definition leavesCounter (key : string) (suspension : nat -> Interval) : Prop :=
  forall (i : nat) (h : Handler),
    assoc key (retryAttempts (others (suspension i) h))
    = assoc key (retryAttempts h).

End ErrorHandler.

(** ** popup/popup.js: class PopupController *)

Module PopupController.

Record Aggregate : Type := {
  count : Z;
  totalTokens : Z;
  totalCost : Q;
  inputTokens : Z;
  outputTokens : Z
}.

(** The callback of [conversations.reduce(...)] in
    [aggregateConversations], on a conversation of the stored history. *)
Definition aggregateStep (acc : Aggregate) (conv : HistoryEntry) : Aggregate :=
  let c := closed conv in
  {| count := count acc + 1;
     totalTokens :=
       totalTokens acc + (totalInputTokens c + totalOutputTokens c);
     totalCost := (totalCost acc + ChatGPTTokenTracker.totalCost c)%Q;
     inputTokens := inputTokens acc + totalInputTokens c;
     outputTokens := outputTokens acc + totalOutputTokens c |}.

(** [aggregateConversations(conversations)] *)
Definition aggregateConversations (conversations : list HistoryEntry)
  : Aggregate :=
  fold_left aggregateStep conversations
    {| count := 0; totalTokens := 0; totalCost := 0;
       inputTokens := 0; outputTokens := 0 |}.

Definition modelLimits : list (string * Z) :=
  [ ("gpt-4o", 128000);
    ("gpt-4-turbo", 128000);
    ("gpt-4", 8192);
    ("gpt-3.5-turbo", 4096) ].

(** [getModelMaxTokens(model)]: [modelLimits[model] || 128000], for a
    [model] that is not a name inherited from [Object.prototype] (for such
    a name the inherited member, which is truthy, is returned). *)
Definition getModelMaxTokens (model : string) : Z :=
  match assoc model modelLimits with
  | Some limit => if limit =? 0 then 128000 else limit
  | None => 128000
  end.

(** The warning of [updateContextProgress]. *)
Inductive Warning : Type :=
| Hidden
| ApproachingLimit
| LimitNearlyReached.

(** [Math.min(a, b)] *)
Definition mathMin (a b : Q) : Q := if Qle_bool a b then a else b.

(** [a > b] *)
Definition greater (a b : Q) : bool := negb (Qle_bool a b).

(** [updateContextProgress()]: the percentage and the warning it shows for
    the conversation it was sent. *)
Definition updateContextProgress (data : Conversation) : Q * Warning :=
  let maxTokens := getModelMaxTokens (model data) in
  let currentTokens := totalInputTokens data + totalOutputTokens data in
  let percentage :=
    mathMin ((inject_Z currentTokens / inject_Z maxTokens) * 100)%Q 100 in
  (percentage,
   if greater percentage 80
   then (if greater percentage 95 then LimitNearlyReached else ApproachingLimit)
   else Hidden).

End PopupController.

(** ** The background service worker: class TokenCounterBackground *)

Module TokenCounterBackground.

(** The value of a property of [modelUsage]: a number or [NaN]. *)
Inductive Count : Type :=
| Number (n : Z)
| NaN.

Record Summary : Type := {
  totalConversations : Z;
  totalTokens : Z;
  totalCost : Q;
  inputTokens : Z;
  outputTokens : Z;
  modelUsage : list (string * Count)
}.

(** [usage[model]++] on an own property. *)
Definition increment (value : Count) : Count :=
  match value with
  | Number n => Number ((if n =? 0 then 0 else n) + 1)
  | NaN => Number (0 + 1)
  end.

(** [if (!usage[model]) usage[model] = 0; usage[model]++], on the own
    properties of the object [usage].  A name that is only inherited is
    truthy: it is not reset, and [++] stores [NaN] under it, except for
    [__proto__], whose setter ignores a number. *)
Fixpoint countModel (model : string) (usage : list (string * Count))
  : list (string * Count) :=
  match usage with
  | [] =>
      if ObjectPrototype.isInherited model
      then (if (model =? "__proto__")%string then [] else [(model, NaN)])
      else [(model, Number (0 + 1))]
  | (k, value) :: usage' =>
      if (model =? k)%string
      then (k, increment value) :: usage'
      else (k, value) :: countModel model usage'
  end.

(** The callback of [conversations.reduce(...)] in [calculateSummary]. *)
Definition summaryStep (acc : Summary) (conv : HistoryEntry) : Summary :=
  let c := closed conv in
  {| totalConversations := totalConversations acc + 1;
     totalTokens :=
       totalTokens acc + (totalInputTokens c + totalOutputTokens c);
     totalCost := (totalCost acc + ChatGPTTokenTracker.totalCost c)%Q;
     inputTokens := inputTokens acc + totalInputTokens c;
     outputTokens := outputTokens acc + totalOutputTokens c;
     modelUsage := countModel (model c) (modelUsage acc) |}.

(** [calculateSummary(conversations)] *)
Definition calculateSummary (conversations : list HistoryEntry) : Summary :=
  fold_left summaryStep conversations
    {| totalConversations := 0; totalTokens := 0; totalCost := 0;
       inputTokens := 0; outputTokens := 0; modelUsage := [] |}.

(** [isChatGPTUrl(url)] *)
Definition isChatGPTUrl (url : string) : bool :=
  includes (chars url) (chars "chat.openai.com")
  || includes (chars url) (chars "chatgpt.com").

(** What the properties of [modelUsage] are compared with: the sum of the
    numbers stored in it, and the conversations of a model. *)
Definition usageTotal (usage : list (string * Count)) : Z :=
  fold_right (fun entry total =>
                match snd entry with Number n => n + total | NaN => total end)
    0 usage.

Definition conversationsOf (model : string) (conversations : list HistoryEntry)
  : list HistoryEntry :=
  filter (fun conv => (ChatGPTTokenTracker.model (closed conv) =? model)%string)
    conversations.

End TokenCounterBackground.

(** ** More concrete data *)

Module MoreExamples.

(** [emptyConversation] after the ingest of 101 user messages. *)
Definition busyConversation : Conversation :=
  match processMessages emptyConversation (manyMessages 101) with
  | Normal (conv, _) => conv
  | Throw _ => emptyConversation
  end.

Definition emptyState : PerformanceManager.State :=
  {| PerformanceManager.tokenCache := [];
     PerformanceManager.tokenCalculations := 0;
     PerformanceManager.idleCallbacks := [] |}.

Definition plainWindow : PerformanceManager.Window :=
  {| PerformanceManager.hasRequestIdleCallback := false;
     PerformanceManager.hasGPTTokenizer := true |}.

(** The page in Chrome: [requestIdleCallback] is there. *)
Definition chromeWindow : PerformanceManager.Window :=
  {| PerformanceManager.hasRequestIdleCallback := true;
     PerformanceManager.hasGPTTokenizer := true |}.

Definition emptyHandler : ErrorHandler.Handler :=
  {| ErrorHandler.errorLog := [];
     ErrorHandler.criticalErrors := [];
     ErrorHandler.retryAttempts := [] |}.

(** A function that fails twice and then succeeds. *)
Definition failsTwice (n : nat) : ErrorHandler.Outcome :=
  if (n <? 2)%nat then ErrorHandler.Rejected "busy"
  else ErrorHandler.Resolved JNull.

(** Suspensions during which nothing else touches the handler, each
    lasting 5 milliseconds. *)
Definition quiet (i : nat) : ErrorHandler.Interval :=
  {| ErrorHandler.others := fun h => h; ErrorHandler.elapsed := 5 |}.

(** Suspensions during the first of which a second call of
    [retryWithBackoff] on "storage_set_local" starts: it finds the counter
    at 1 and sets it to 2. *)
Definition secondCallStarts (i : nat) : ErrorHandler.Interval :=
  match i with
  | O =>
      {| ErrorHandler.others :=
           fun h =>
             ErrorHandler.setRetryAttempts h
               (ErrorHandler.put "storage_set_local" 2
                  (ErrorHandler.retryAttempts h));
         ErrorHandler.elapsed := 5 |}
  | S _ => quiet i
  end.

Definition startTrace : ErrorHandler.Trace :=
  {| ErrorHandler.calls := 0; ErrorHandler.awaits := 0;
     ErrorHandler.slept := []; ErrorHandler.clock := 0 |}.

Definition assistantElement : MessageExtraction.Element :=
  {| MessageExtraction.roleAttribute := None;
     MessageExtraction.textContent := "ChatGPT  Here is the answer. ";
     MessageExtraction.innerText := "";
     MessageExtraction.classList := "group w-full";
     MessageExtraction.hasAvatar := false;
     MessageExtraction.contentElement := Some ("  Here is the answer. ", "") |}.

(** [emptyConversation] after the ingest of "Hello, world!" from the user
    and of a reply; and a candidate that shares its content with the first
    and its role with the second. *)
Definition replyMessage : Message :=
  {| role := "assistant"; content := "Hi there"; timestamp := 2 |}.

Definition repliedConversation : Conversation :=
  match processMessages emptyConversation [helloMessage; replyMessage] with
  | Normal (conv, _) => conv
  | Throw _ => emptyConversation
  end.

Definition echoMessage : Message :=
  {| role := "assistant"; content := "Hello, world!"; timestamp := 3 |}.

(** A closed conversation of the history with the given model and totals. *)
Definition closedConversation (model : string) (input output : Z)
  : HistoryEntry :=
  {| closed :=
       {| id := "conv_1"; urlId := None; messages := [];
          totalInputTokens := input; totalOutputTokens := output;
          totalCost := 0; model := model; startTime := 0 |};
     endTime := 1 |}.

Definition exampleHistory : list HistoryEntry :=
  [ closedConversation "gpt-4o" 10 20;
    closedConversation "gpt-4" 5 5;
    closedConversation "gpt-4o" 1 2 ].

End MoreExamples.

Import MoreExamples.

(** ** Facts about the string operations *)

Section TextFacts.

Lemma chars_append (s t : string) : chars (s ++ t) = (chars s ++ chars t)%list.
Proof.
  induction s as [|c s IH]; simpl; [reflexivity|].
  unfold chars in *. simpl. now rewrite IH.
Qed.

Lemma isSpace_blank : isSpace " "%char = true.
Proof. reflexivity. Qed.

(** The matches of [/[^\w\s]/g] are counted by [Spec.specialCount]. *)
Lemma matchSpecial_count (s : list ascii) :
  List.length (matchSpecial s) = Spec.specialCount s.
Proof.
  induction s as [|c s IH]; simpl; [reflexivity|].
  unfold isSpecial at 1.
  destruct (isWord c), (isSpace c); simpl; now rewrite IH.
Qed.

(** The non-empty pieces of [split(/\s+/)] are counted by [Spec.countWords]. *)
Lemma splitRuns_count (s cur : list ascii) (inRun : bool) :
  (inRun = true -> cur = []) ->
  List.length (filter (fun word => (0 <? List.length word)%nat)
                 (splitRuns cur inRun s))
  = (Spec.countWords (match cur with [] => true | _ => false end) s
     + match cur with [] => 0 | _ => 1 end)%nat.
Proof.
  revert cur inRun.
  induction s as [|c s IH]; intros cur inRun Hinv; simpl.
  - destruct cur as [|a cur]; simpl; [reflexivity|].
    rewrite length_app. simpl.
    replace (0 <? List.length (rev cur) + 1)%nat with true; [reflexivity|].
    symmetry. apply Nat.ltb_lt. lia.
  - destruct (isSpace c) eqn:Hc.
    + destruct inRun.
      * rewrite (Hinv eq_refl). rewrite IH by reflexivity. simpl. lia.
      * cbn [filter]. destruct cur as [|a cur].
        -- simpl. rewrite IH by reflexivity. simpl. lia.
        -- replace (0 <? List.length (rev (a :: cur)))%nat with true.
           ++ cbn [List.length]. rewrite IH by reflexivity. simpl. lia.
           ++ symmetry. apply Nat.ltb_lt. simpl. rewrite length_app. simpl. lia.
    + rewrite IH by discriminate. simpl. destruct cur; lia.
Qed.

Lemma splitSpaces_count (s : list ascii) :
  List.length (filter (fun word => (0 <? List.length word)%nat) (splitSpaces s))
  = Spec.wordCount s.
Proof.
  unfold splitSpaces, Spec.wordCount.
  rewrite splitRuns_count by discriminate. simpl. lia.
Qed.

(** Normalization keeps the words and the special characters of a text. *)
Lemma countWords_replaceRuns (s : list ascii) (inRun atStart : bool) :
  (inRun = true -> atStart = true) ->
  Spec.countWords atStart (replaceRuns inRun s) = Spec.countWords atStart s.
Proof.
  revert inRun atStart.
  induction s as [|c s IH]; intros inRun atStart Hinv; simpl; [reflexivity|].
  destruct (isSpace c) eqn:Hc.
  - destruct inRun.
    + rewrite (Hinv eq_refl). now apply IH.
    + cbn [Spec.countWords]. rewrite isSpace_blank. now apply IH.
  - cbn [Spec.countWords]. rewrite Hc. rewrite IH by discriminate. reflexivity.
Qed.

Lemma countWords_trimEnd (s : list ascii) (atStart : bool) :
  Spec.countWords atStart (trimEnd s) = Spec.countWords atStart s.
Proof.
  revert atStart.
  induction s as [|c s IH]; intros atStart; simpl; [reflexivity|].
  destruct (trimEnd s) as [|a r] eqn:Hr.
  - destruct (isSpace c) eqn:Hc; simpl.
    + now rewrite <- IH.
    + rewrite Hc. now rewrite <- IH.
  - cbn [Spec.countWords]. destruct (isSpace c); now rewrite <- IH.
Qed.

Lemma countWords_dropSpaces (s : list ascii) :
  Spec.countWords true (dropSpaces s) = Spec.countWords true s.
Proof.
  induction s as [|c s IH]; simpl; [reflexivity|].
  destruct (isSpace c) eqn:Hc; [exact IH|].
  simpl. now rewrite Hc.
Qed.

Lemma wordCount_normalize (s : list ascii) :
  Spec.wordCount (Spec.normalize s) = Spec.wordCount s.
Proof.
  unfold Spec.wordCount, Spec.normalize, collapseSpaces, trim.
  rewrite countWords_replaceRuns by discriminate.
  now rewrite countWords_trimEnd, countWords_dropSpaces.
Qed.





End TextFacts.

(** ** The token estimator *)

Section Estimator.

Lemma getModelConfig_profile (modelId : string) :
  getModelConfig modelId = Spec.profile modelId.
Proof.
  unfold getModelConfig, Spec.profile, modelConfigs, assoc.
  destruct (modelId =? "gpt-4")%string; [reflexivity|].
  destruct (modelId =? "gpt-4o")%string; [reflexivity|].
  destruct (modelId =? "gpt-4-turbo")%string; [reflexivity|].
  destruct (modelId =? "gpt-3.5-turbo")%string; reflexivity.
Qed.

(** Every profile of the table has the same calibration constant. *)
Lemma avgCharsPerToken_profile (modelId : string) :
  avgCharsPerToken (Spec.profile modelId) = 4%Q.
Proof.
  unfold Spec.profile.
  destruct (modelId =? "gpt-4")%string; [reflexivity|].
  destruct (modelId =? "gpt-4o")%string; [reflexivity|].
  destruct (modelId =? "gpt-4-turbo")%string; [reflexivity|].
  destruct (modelId =? "gpt-3.5-turbo")%string; reflexivity.
Qed.

(** On a string, [encode] returns the estimate of the specification; the
    early return on the empty string agrees with the formula. *)
Lemma encode_string (text modelId : string) :
  encode (JStr text) modelId = Normal (Spec.estimate (chars text) modelId).
Proof.
  unfold encode, Spec.estimate. cbn [truthy typeof].
  destruct (text =? "")%string eqn:He.
  - apply String.eqb_eq in He. subst text. cbn [negb orb].
    rewrite avgCharsPerToken_profile. reflexivity.
  - cbn [negb orb String.eqb]. cbn [stringReceiver bind].
    rewrite getModelConfig_profile, matchSpecial_count, splitSpaces_count.
    reflexivity.
Qed.

Lemma ofNat_nonneg (n : nat) : (0 <= ofNat n)%Q.
Proof. unfold ofNat, Qle. simpl. lia. Qed.

Lemma ofNat_le (a b : nat) : (a <= b)%nat -> (ofNat a <= ofNat b)%Q.
Proof. intros H. unfold ofNat. rewrite <- Zle_Qle. lia. Qed.

Lemma estimateFrom_nonneg (L W S : nat) : 0 <= Spec.estimateFrom L W S 4.
Proof.
  unfold Spec.estimateFrom.
  apply Z.le_trans with (Qceiling (ofNat L / 4)); [|apply Z.le_max_l].
  change 0 with (Qceiling 0). apply Qceiling_resp_le.
  apply Qle_shift_div_l; [reflexivity|].
  rewrite Qmult_0_l. apply ofNat_nonneg.
Qed.


Lemma estimate_nonneg (text : list ascii) (modelId : string) :
  0 <= Spec.estimate text modelId.
Proof.
  unfold Spec.estimate. rewrite avgCharsPerToken_profile.
  apply estimateFrom_nonneg.
Qed.

(** *** Appending a code unit that is not white space *)








End Estimator.

(** ** The normalized text as the words of the text *)

Section Words.











End Words.

(** ** The class on every model id *)

Section AnyModel.

Lemma own_keys_not_inherited (model : string) :
  ObjectPrototype.isInherited model = true -> assoc model modelConfigs = None.
Proof.
  intros H. unfold modelConfigs. cbn [assoc].
  destruct (String.eqb_spec model "gpt-4") as [->|_]; [discriminate H|].
  destruct (String.eqb_spec model "gpt-4o") as [->|_]; [discriminate H|].
  destruct (String.eqb_spec model "gpt-4-turbo") as [->|_]; [discriminate H|].
  destruct (String.eqb_spec model "gpt-3.5-turbo") as [->|_];
    [discriminate H | reflexivity].
Qed.


(** On an inherited name the lookup gives the inherited member. *)
Lemma getModelConfig_any_inherited (model : string) :
  ObjectPrototype.isInherited model = true ->
  AnyModelId.getModelConfig model = AnyModelId.InheritedMember.
Proof.
  intros H. unfold AnyModelId.getModelConfig, AnyModelId.member.
  now rewrite (own_keys_not_inherited model H), H.
Qed.




Lemma calculateCost_any_inherited (inputTokens outputTokens : Z)
  (model : string) :
  ObjectPrototype.isInherited model = true ->
  AnyModelId.calculateCost inputTokens outputTokens model
  = Normal AnyModelId.NaN.
Proof.
  intros H. unfold AnyModelId.calculateCost.
  rewrite (getModelConfig_any_inherited model H). reflexivity.
Qed.

End AnyModel.

(** ** Claims on the token estimator *)







(** ** Claims on the chat estimate, the cost and the model detector *)

Section ChatEstimate.

Lemma estimate_empty (modelId : string) : Spec.estimate [] modelId = 0.
Proof. unfold Spec.estimate. rewrite avgCharsPerToken_profile. reflexivity. Qed.

(** A field that is tested with [if (message.f)] before it is encoded adds
    the estimate of its text, the empty text adding nothing either way. *)
Lemma encode_if_truthy (s modelId : string) :
  (if negb (s =? "")%string then encode (JStr s) modelId else Normal 0)
  = Normal (Spec.estimateString s modelId).
Proof.
  destruct (s =? "")%string eqn:He; cbn [negb].
  - apply String.eqb_eq in He. subst s.
    unfold Spec.estimateString. now rewrite estimate_empty.
  - apply encode_string.
Qed.

Lemma encodeChatMessage_toJs (msg : Spec.ChatMessage) (modelId : string) :
  encodeChatMessage (Spec.toJs msg) modelId
  = Normal (Spec.chatMessageTokensNamed modelId msg).
Proof.
  destruct msg as [r c n]. unfold encodeChatMessage, Spec.toJs.
  cbn [truthy typeof negb orb String.eqb Ascii.eqb Bool.eqb getField assoc
       Spec.chatRole Spec.chatContent Spec.chatName].
  rewrite !encode_if_truthy. cbn [bind].
  unfold Spec.chatMessageTokensNamed.
  cbn [Spec.chatRole Spec.chatContent Spec.chatName].
  destruct n as [n|]; cbn [app assoc String.eqb Ascii.eqb Bool.eqb truthy].
  - destruct (n =? "")%string; cbn [negb bind]; [reflexivity|].
    rewrite encode_string. reflexivity.
  - reflexivity.
Qed.

Lemma encodeChatLoop_toJs (msgs : list Spec.ChatMessage) (modelId : string)
  (totalTokens : Z) :
  encodeChatLoop totalTokens (map Spec.toJs msgs) modelId
  = Normal (totalTokens
            + Spec.sumZ (map (Spec.chatMessageTokensNamed modelId) msgs)).
Proof.
  revert totalTokens.
  induction msgs as [|msg msgs IH]; intros totalTokens; simpl.
  - f_equal. lia.
  - rewrite encodeChatMessage_toJs. cbn [bind]. rewrite IH. f_equal. lia.
Qed.

End ChatEstimate.

(** C4, as amended.  For every sequence of messages and every model id that
    is not a name inherited from [Object.prototype], [encodeChat] returns 4
    for the whole exchange, plus for each message 4 and the estimates of its
    role and of its content and, when its name is present and is not the
    empty string, the estimate of the name plus 1, plus 2 for the completion
    priming. *)
Theorem encodeChat_overheads (msgs : list Spec.ChatMessage) (modelId : string) :
  ObjectPrototype.isInherited modelId = false ->
  encodeChat (JArr (map Spec.toJs msgs)) modelId
  = Normal (4
            + Spec.sumZ
                (map (fun msg =>
                        4 + Spec.estimateString (Spec.chatRole msg) modelId
                        + Spec.estimateString (Spec.chatContent msg) modelId
                        + match Spec.chatName msg with
                          | Some n =>
                              if (n =? "")%string then 0
                              else Spec.estimateString n modelId + 1
                          | None => 0
                          end) msgs)
            + 2).
Proof.
  intros _.
  unfold encodeChat. cbn [isArray negb arrayItems].
  rewrite encodeChatLoop_toJs. cbn [bind]. reflexivity.
Qed.

Lemma encodeChat_overheads_witness :
  ObjectPrototype.isInherited "gpt-4" = false
  /\ encodeChat
       (JArr (map Spec.toJs
                [ {| Spec.chatRole := "user"; Spec.chatContent := "hi";
                     Spec.chatName := Some "Al" |};
                  {| Spec.chatRole := "assistant";
                     Spec.chatContent := "Hello, world!";
                     Spec.chatName := None |} ])) "gpt-4"
     = Normal (4 + ((4 + 2 + 2 + (2 + 1)) + (4 + 3 + 4 + 0)) + 2).
Proof.
  split; [reflexivity|].
  rewrite (encodeChat_overheads _ "gpt-4" eq_refl). reflexivity.
Defined.

(** C4, as stated, fails on a message whose name is the empty string: the
    code adds nothing for it, the claim adds 1. *)
Lemma encodeChat_empty_name_counterexample :
  let msgs :=
    [ {| Spec.chatRole := "user"; Spec.chatContent := "hi";
         Spec.chatName := Some "" |} ] in
  encodeChat (JArr (map Spec.toJs msgs)) "gpt-4o" = Normal 14
  /\ Spec.estimateChat msgs "gpt-4o" = 15
  /\ encodeChat (JArr (map Spec.toJs msgs)) "gpt-4o"
     <> Normal (Spec.estimateChat msgs "gpt-4o").
Proof.
  cbv zeta. split; [reflexivity|]. split; [reflexivity|].
  vm_compute. discriminate.
Qed.

Lemma calculateCost_zero (modelId : string) : (calculateCost 0 0 modelId == 0)%Q.
Proof. unfold calculateCost, Qdiv. cbv zeta. rewrite !Qmult_0_l. reflexivity. Qed.




Section Detector.

Lemma lowerChar_idempotent (c : ascii) : lowerChar (lowerChar c) = lowerChar c.
Proof. destruct c as [[] [] [] [] [] [] [] []]; reflexivity. Qed.

Lemma toLowerCase_idempotent (s : list ascii) :
  toLowerCase (toLowerCase s) = toLowerCase s.
Proof.
  unfold toLowerCase. rewrite map_map.
  apply map_ext. intros c. apply lowerChar_idempotent.
Qed.

Lemma chars_of_list (l : list ascii) : chars (string_of_list_ascii l) = l.
Proof. apply list_ascii_of_string_of_list_ascii. Qed.

Lemma startsWith_app (p q s : list ascii) :
  startsWith (p ++ q) s = true -> startsWith p s = true.
Proof.
  revert s. induction p as [|a p IH]; intros s H; [reflexivity|].
  destruct s as [|b s]; simpl in *; [discriminate|].
  apply andb_true_iff in H. destruct H as [Hab H].
  rewrite Hab. simpl. now apply IH.
Qed.

(** A text that includes a marker includes every prefix of the marker. *)
Lemma includes_app (s p q : list ascii) :
  includes s (p ++ q) = true -> includes s p = true.
Proof.
  induction s as [|b s IH]; simpl; intros H.
  - rewrite orb_false_r in *. now apply startsWith_app with q.
  - apply orb_true_iff in H. apply orb_true_iff. destruct H as [H|H].
    + left. now apply startsWith_app with q.
    + right. now apply IH.
Qed.

Lemma startsWith_toLowerCase (p s : list ascii) :
  startsWith p s = true -> startsWith (toLowerCase p) (toLowerCase s) = true.
Proof.
  revert s. induction p as [|a p IH]; intros s H; [reflexivity|].
  destruct s as [|b s]; simpl in *; [discriminate|].
  apply andb_true_iff in H. destruct H as [Hab H].
  apply Ascii.eqb_eq in Hab. subst b. rewrite Ascii.eqb_refl. simpl.
  now apply IH.
Qed.

(** [includes] is preserved by lower-casing both texts. *)
Lemma includes_toLowerCase (s p : list ascii) :
  includes s p = true -> includes (toLowerCase s) (toLowerCase p) = true.
Proof.
  induction s as [|b s IH]; simpl; intros H.
  - rewrite orb_false_r in *. now apply (startsWith_toLowerCase p []).
  - apply orb_true_iff in H. apply orb_true_iff. destruct H as [H|H].
    + left. now apply (startsWith_toLowerCase p (b :: s)).
    + right. now apply IH.
Qed.

End Detector.

(** C6.  [detectModel] is case-insensitive: it gives the same answer on a
    text and on its lower-case form (so on "GPT-4O" and "gpt-4o").  Specific
    markers are tested before generic ones: a text with a specific marker
    ("gpt-4o", "gpt-4-turbo", "gpt-4 turbo"), in any letter case, also
    includes the generic marker "gpt-4" and resolves to the specific model,
    never to "gpt-4"; "gpt-4 turbo" resolves to "gpt-4-turbo".  When no
    marker matches the answer is the default model id. *)
Theorem detectModel_case_and_specificity (t : string) :
  let lowerText := toLowerCase (chars t) in
  detectModel (JStr t) = detectModel (JStr (string_of_list_ascii lowerText))
  /\ detectModel (JStr "GPT-4O") = detectModel (JStr "gpt-4o")
  /\ (includes lowerText (chars "gpt-4o") = true ->
      includes lowerText (chars "gpt-4") = true
      /\ detectModel (JStr t) = Normal "gpt-4o")
  /\ (includes lowerText (chars "gpt-4-turbo") = true
      \/ includes lowerText (chars "gpt-4 turbo") = true ->
      includes lowerText (chars "gpt-4") = true
      /\ (detectModel (JStr t) = Normal "gpt-4-turbo"
          \/ detectModel (JStr t) = Normal "gpt-4o")
      /\ detectModel (JStr t) <> Normal "gpt-4"
      /\ (includes lowerText (chars "gpt-4o") = false ->
          detectModel (JStr t) = Normal "gpt-4-turbo"))
  /\ (includes (chars t) (chars "gpt-4 turbo") = true ->
      includes lowerText (chars "gpt-4 turbo") = true)
  /\ detectModel (JStr "gpt-4 turbo") = Normal "gpt-4-turbo"
  /\ (includes lowerText (chars "gpt-4") = false ->
      includes lowerText (chars "gpt-3.5") = false ->
      detectModel (JStr t) = Normal defaultModel)
  /\ defaultModel = "gpt-4o".
Proof.
  cbv zeta.
  split; [|split; [|split; [|split; [|split; [|split; [|split]]]]]].
  - unfold detectModel. cbn [stringReceiver bind].
    now rewrite chars_of_list, toLowerCase_idempotent.
  - reflexivity.
  - intros H. split.
    + apply (includes_app _ (chars "gpt-4") (chars "o")). exact H.
    + unfold detectModel. cbn [stringReceiver bind]. now rewrite H.
  - intros H.
    assert (Hg : includes (toLowerCase (chars t)) (chars "gpt-4") = true).
    { destruct H as [H|H].
      - apply (includes_app _ (chars "gpt-4") (chars "-turbo")). exact H.
      - apply (includes_app _ (chars "gpt-4") (chars " turbo")). exact H. }
    assert (Ht : includes (toLowerCase (chars t)) (chars "gpt-4-turbo")
                 || includes (toLowerCase (chars t)) (chars "gpt-4 turbo")
                 = true).
    { apply orb_true_iff. exact H. }
    split; [exact Hg|].
    unfold detectModel. cbn [stringReceiver bind]. rewrite Ht.
    destruct (includes (toLowerCase (chars t)) (chars "gpt-4o")).
    + split; [now right|]. split; [discriminate|]. discriminate.
    + split; [now left|]. split; [discriminate|]. reflexivity.
  - intros H. apply (includes_toLowerCase _ (chars "gpt-4 turbo")). exact H.
  - reflexivity.
  - intros H4 H35.
    unfold detectModel. cbn [stringReceiver bind]. rewrite H4.
    destruct (includes (toLowerCase (chars t)) (chars "gpt-4o")) eqn:Ho.
    { apply (includes_app _ (chars "gpt-4") (chars "o")) in Ho. congruence. }
    destruct (includes (toLowerCase (chars t)) (chars "gpt-4-turbo")) eqn:Ht.
    { apply (includes_app _ (chars "gpt-4") (chars "-turbo")) in Ht. congruence. }
    destruct (includes (toLowerCase (chars t)) (chars "gpt-4 turbo")) eqn:Hs.
    { apply (includes_app _ (chars "gpt-4") (chars " turbo")) in Hs. congruence. }
    destruct (includes (toLowerCase (chars t)) (chars "gpt-3.5-turbo")) eqn:H3.
    { apply (includes_app _ (chars "gpt-3.5") (chars "-turbo")) in H3. congruence. }
    rewrite H35. reflexivity.
  - reflexivity.
Qed.

Lemma detectModel_case_and_specificity_witness :
  includes (toLowerCase (chars "ChatGPT GPT-4 Turbo")) (chars "gpt-4 turbo") = true
  /\ includes (toLowerCase (chars "ChatGPT GPT-4 Turbo")) (chars "gpt-4o") = false
  /\ detectModel (JStr "ChatGPT GPT-4 Turbo") = Normal "gpt-4-turbo".
Proof.
  split; [reflexivity|]. split; [reflexivity|].
  destruct (detectModel_case_and_specificity "ChatGPT GPT-4 Turbo")
    as (_ & _ & _ & Hspecific & _).
  destruct Hspecific as (_ & _ & _ & Hturbo); [right; reflexivity|].
  apply Hturbo. reflexivity.
Defined.

Section InvalidInput.

Lemma encode_total (x : JsVal) (modelId : string) :
  exists n : Z, encode x modelId = Normal n.
Proof.
  destruct x as [| |b|n|s|items|fields];
    try (exists 0; unfold encode; cbn [typeof String.eqb Ascii.eqb Bool.eqb negb];
         now rewrite orb_true_r).
  exists (Spec.estimate (chars s) modelId). apply encode_string.
Qed.

Lemma encode_non_string (x : JsVal) (modelId : string) :
  (typeof x =? "string")%string = false -> encode x modelId = Normal 0.
Proof.
  intros H. unfold encode. rewrite H. cbn [negb]. now rewrite orb_true_r.
Qed.

Lemma encode_if_total (x : JsVal) (modelId : string) :
  exists n : Z,
    (if truthy x then encode x modelId else Normal 0) = Normal n.
Proof.
  destruct (truthy x); [apply encode_total | now exists 0].
Qed.

Lemma encodeChatMessage_total (message : JsVal) (modelId : string) :
  exists n : Z, encodeChatMessage message modelId = Normal n.
Proof.
  unfold encodeChatMessage.
  destruct (negb (truthy message) || negb (typeof message =? "object")%string);
    [now exists 0|].
  destruct (encode_if_total (getField message "role") modelId) as [r ->].
  destruct (encode_if_total (getField message "content") modelId) as [c ->].
  cbn [bind].
  destruct (truthy (getField message "name")).
  - destruct (encode_total (getField message "name") modelId) as [n ->].
    cbn [bind]. now eexists.
  - cbn [bind]. now eexists.
Qed.

Lemma encodeChatLoop_total (items : list JsVal) (modelId : string)
  (totalTokens : Z) :
  exists n : Z, encodeChatLoop totalTokens items modelId = Normal n.
Proof.
  revert totalTokens.
  induction items as [|message items IH]; intros totalTokens; simpl.
  - now eexists.
  - destruct (encodeChatMessage_total message modelId) as [k ->].
    cbn [bind]. apply IH.
Qed.

Lemma encodeChat_total (x : JsVal) (modelId : string) :
  exists n : Z, encodeChat x modelId = Normal n.
Proof.
  destruct x as [| |b|n|s|items|fields]; try (now exists 0).
  unfold encodeChat. cbn [isArray negb arrayItems].
  destruct (encodeChatLoop_total items modelId (0 + 4)) as [k ->].
  cbn [bind]. now eexists.
Qed.

End InvalidInput.

(** C7, as amended.  For every input value [encode] and [encodeChat] return
    a number and never raise: [encode] returns 0 for every value that is not
    a string, [encodeChat] returns 0 for every value that is not an array
    and counts nothing for [null]; [detectModel] returns a model id for every
    string. *)
Theorem invalid_input_handling (x : JsVal) (modelId : string) :
  (exists n : Z, encode x modelId = Normal n)
  /\ ((typeof x =? "string")%string = false -> encode x modelId = Normal 0)
  /\ (exists n : Z, encodeChat x modelId = Normal n)
  /\ (isArray x = false -> encodeChat x modelId = Normal 0)
  /\ encodeChatMessage JNull modelId = Normal 0
  /\ (forall s : string, exists detected : string,
        detectModel (JStr s) = Normal detected).
Proof.
  split; [apply encode_total|].
  split; [apply encode_non_string|].
  split; [apply encodeChat_total|].
  split; [|split].
  - intros H. unfold encodeChat. now rewrite H.
  - reflexivity.
  - intros s. unfold detectModel. cbn [stringReceiver bind].
    repeat match goal with
           | |- context [if ?b then _ else _] => destruct b
           end; now eexists.
Qed.

Lemma invalid_input_handling_witness :
  (typeof (JNum 42) =? "string")%string = false
  /\ isArray JNull = false
  /\ encode (JNum 42) "gpt-4o" = Normal 0
  /\ encodeChat JNull "gpt-4o" = Normal 0.
Proof.
  split; [reflexivity|]. split; [reflexivity|]. split.
  - apply (proj1 (proj2 (invalid_input_handling (JNum 42) "gpt-4o"))).
    reflexivity.
  - apply (proj1 (proj2 (proj2 (proj2 (invalid_input_handling JNull "gpt-4o"))))).
    reflexivity.
Defined.

(** C7, as stated, fails for [detectModel]: on a value that is not a string
    it raises instead of returning a model id. *)
Lemma detectModel_non_string_counterexample :
  detectModel JNull = Throw TypeError
  /\ detectModel (JNum 42) = Throw TypeError
  /\ ~ (exists detected : string, detectModel JNull = Normal detected).
Proof.
  split; [reflexivity|]. split; [reflexivity|].
  intros [detected H]. discriminate H.
Qed.

(** ** The conversation accumulator *)

Section Accumulator.

Lemma sameMessage_refl (m : Message) : sameMessage m m = true.
Proof. unfold sameMessage. now rewrite !String.eqb_refl. Qed.


Lemma processMessage_step (conv : Conversation) (hasNewMessages : bool)
  (m : Message) :
  processMessage (conv, hasNewMessages) m
  = Normal (Spec.step (conv, hasNewMessages) m).
Proof.
  unfold processMessage, Spec.step, Spec.recorded. cbn [fst].
  destruct (existsb (sameMessage m) (messages conv)); cbn [negb]; [reflexivity|].
  rewrite encode_string. cbn [bind].
  unfold Spec.recordMessage, Spec.tokensOf, Spec.estimateString.
  cbv zeta.
  destruct (role m =? "user")%string; [reflexivity|].
  destruct (role m =? "assistant")%string; reflexivity.
Qed.

Lemma forEach_fold (batch : list Message) (state : Conversation * bool) :
  forEach state batch = Normal (fold_left Spec.step batch state).
Proof.
  revert state.
  induction batch as [|m batch IH]; intros [conv b]; cbn [forEach fold_left].
  - reflexivity.
  - rewrite processMessage_step. cbn [bind]. apply IH.
Qed.

(** [processMessages] in one equation: the fold of the callback, then the
    cost when something was added. *)
Lemma processMessages_fold (conv : Conversation) (batch : list Message) :
  processMessages conv batch
  = Normal
      (let (conv', hasNewMessages) := fold_left Spec.step batch (conv, false) in
       if hasNewMessages
       then (setTotalCost conv'
               (calculateCost (totalInputTokens conv') (totalOutputTokens conv')
                  (model conv')), true)
       else (conv', false)).
Proof.
  unfold processMessages. rewrite forEach_fold. cbn [bind].
  destruct (fold_left Spec.step batch (conv, false)) as [conv' [|]]; reflexivity.
Qed.

Lemma recordMessage_messages (conv : Conversation) (m : Message) :
  messages (Spec.recordMessage conv m) = (messages conv ++ [m])%list.
Proof.
  unfold Spec.recordMessage. cbv zeta.
  destruct (role m =? "user")%string; [reflexivity|].
  destruct (role m =? "assistant")%string; reflexivity.
Qed.

Lemma recordMessage_model (conv : Conversation) (m : Message) :
  model (Spec.recordMessage conv m) = model conv.
Proof.
  unfold Spec.recordMessage. cbv zeta.
  destruct (role m =? "user")%string; [reflexivity|].
  destruct (role m =? "assistant")%string; reflexivity.
Qed.

Lemma recordMessage_cost (conv : Conversation) (m : Message) :
  totalCost (Spec.recordMessage conv m) = totalCost conv.
Proof.
  unfold Spec.recordMessage. cbv zeta.
  destruct (role m =? "user")%string; [reflexivity|].
  destruct (role m =? "assistant")%string; reflexivity.
Qed.

Lemma recordMessage_input (conv : Conversation) (m : Message) :
  totalInputTokens (Spec.recordMessage conv m)
  = totalInputTokens conv
    + (if (role m =? "user")%string then Spec.tokensOf (model conv) m else 0).
Proof.
  unfold Spec.recordMessage. cbv zeta.
  destruct (role m =? "user")%string; [reflexivity|].
  destruct (role m =? "assistant")%string; cbn; lia.
Qed.

Lemma recordMessage_output (conv : Conversation) (m : Message) :
  totalOutputTokens (Spec.recordMessage conv m)
  = totalOutputTokens conv
    + (if (role m =? "assistant")%string then Spec.tokensOf (model conv) m else 0).
Proof.
  unfold Spec.recordMessage. cbv zeta.
  destruct (role m =? "user")%string eqn:Hu.
  - apply String.eqb_eq in Hu. rewrite Hu. cbn. lia.
  - destruct (role m =? "assistant")%string; cbn; lia.
Qed.

(** Once [hasNewMessages] is set it stays set. *)
Lemma fold_step_flag (batch : list Message) (conv : Conversation) :
  snd (fold_left Spec.step batch (conv, true)) = true.
Proof.
  revert conv. induction batch as [|m batch IH]; intros conv; simpl.
  - reflexivity.
  - unfold Spec.step at 2. cbn [fst].
    destruct (Spec.recorded m conv); apply IH.
Qed.

(** When [hasNewMessages] ends up unset, nothing was touched. *)
Lemma fold_step_unchanged (batch : list Message) (conv conv' : Conversation) :
  fold_left Spec.step batch (conv, false) = (conv', false) -> conv' = conv.
Proof.
  revert conv. induction batch as [|m batch IH]; intros conv; simpl.
  - now intros [= ->].
  - unfold Spec.step at 2. cbn [fst].
    destruct (Spec.recorded m conv); [apply IH|].
    intros H. pose proof (fold_step_flag batch (Spec.recordMessage conv m)) as F.
    rewrite H in F. discriminate F.
Qed.

Lemma processMessages_unchanged (conv conv' : Conversation)
  (batch : list Message) :
  processMessages conv batch = Normal (conv', false) -> conv' = conv.
Proof.
  rewrite processMessages_fold.
  destruct (fold_left Spec.step batch (conv, false)) as [c [|]] eqn:E.
  - discriminate.
  - intros [= <-]. now apply fold_step_unchanged with batch.
Qed.

End Accumulator.

Section DedupKey.

(** A candidate whose key no recorded message has passes the [some] test of
    [processMessages]. *)
Lemma keyIsNew_not_recorded (m : Message) (conv : Conversation) :
  Spec.keyIsNew m conv -> existsb (sameMessage m) (messages conv) = false.
Proof.
  unfold Spec.keyIsNew. intros Hnew.
  destruct (existsb (sameMessage m) (messages conv)) eqn:E; [|reflexivity].
  apply existsb_exists in E. destruct E as (existing & Hin & Hsame).
  unfold sameMessage in Hsame. apply andb_true_iff in Hsame.
  destruct Hsame as [Hc Hr].
  apply String.eqb_eq in Hc. apply String.eqb_eq in Hr.
  destruct (Hnew existing Hin) as [H|H]; contradiction.
Qed.

End DedupKey.

(** C2, as amended.  For every conversation [conv] whose model id is not a
    name inherited from [Object.prototype] and every message [m] such that
    no recorded message of [conv] has both the role and the content of [m],
    ingesting [m] twice yields changed=true on the first call and
    changed=false on the second, [m] is recorded last, and the estimated
    tokens of [m] are added to the total of its role exactly once.  A
    candidate is skipped whenever a message with the same (role, content)
    is recorded anywhere in the sequence, whatever its time stamp, and
    whenever a call reports changed=false the conversation is the one it was
    given, its cost included. *)
Theorem ingest_dedup :
  (forall (conv : Conversation) (m : Message),
      ObjectPrototype.isInherited (model conv) = false ->
      Spec.keyIsNew m conv ->
      Spec.dedupTwice conv m
      /\ exists conv1 : Conversation,
           processMessages conv [m] = Normal (conv1, true)
           /\ messages conv1 = (messages conv ++ [m])%list)
  /\ (forall (conv : Conversation) (m existing : Message)
             (before after : list Message),
        messages conv = (before ++ existing :: after)%list ->
        role existing = role m -> content existing = content m ->
        processMessages conv [m] = Normal (conv, false))
  /\ (forall (conv conv' : Conversation) (batch : list Message),
        processMessages conv batch = Normal (conv', false) -> conv' = conv).
Proof.
  split; [|split].
  - intros conv m _ Hkey.
    assert (Hnew : Spec.recorded m conv = false)
      by now apply keyIsNew_not_recorded.
    assert (Hrun : processMessages conv [m]
                   = Normal
                       (setTotalCost (Spec.recordMessage conv m)
                          (calculateCost
                             (totalInputTokens (Spec.recordMessage conv m))
                             (totalOutputTokens (Spec.recordMessage conv m))
                             (model (Spec.recordMessage conv m))), true)).
    { rewrite processMessages_fold. cbn [fold_left].
      unfold Spec.step. cbn [fst]. now rewrite Hnew. }
    split.
    + unfold Spec.dedupTwice. eexists. split; [exact Hrun|].
      split; [|split].
      * rewrite processMessages_fold. cbn [fold_left].
        unfold Spec.step at 1. cbn [fst].
        unfold Spec.recorded at 1. cbn [messages setTotalCost].
        rewrite recordMessage_messages, existsb_app. cbn [existsb].
        rewrite sameMessage_refl, orb_true_r. reflexivity.
      * cbn [totalInputTokens setTotalCost]. apply recordMessage_input.
      * cbn [totalOutputTokens setTotalCost]. apply recordMessage_output.
    + eexists. split; [exact Hrun|].
      cbn [messages setTotalCost]. apply recordMessage_messages.
  - intros conv m existing before after Hm Hr Hc.
    rewrite processMessages_fold. cbn [fold_left].
    unfold Spec.step, Spec.recorded. cbn [fst].
    rewrite Hm, existsb_app. cbn [existsb].
    unfold sameMessage at 2. rewrite Hr, Hc, !String.eqb_refl.
    cbn [andb orb]. now rewrite orb_true_r.
  - intros conv conv' batch. apply processMessages_unchanged.
Qed.

(** The candidate shares its content with one recorded message and its role
    with another, and is recorded all the same. *)
Lemma ingest_dedup_witness :
  ObjectPrototype.isInherited (model repliedConversation) = false
  /\ messages repliedConversation = [helloMessage; replyMessage]
  /\ content echoMessage = content helloMessage
  /\ role echoMessage = role replyMessage
  /\ Spec.keyIsNew echoMessage repliedConversation
  /\ Spec.dedupTwice repliedConversation echoMessage
  /\ exists conv1 : Conversation,
       processMessages repliedConversation [echoMessage] = Normal (conv1, true)
       /\ messages conv1 = [helloMessage; replyMessage; echoMessage].
Proof.
  assert (Hkey : Spec.keyIsNew echoMessage repliedConversation).
  { intros existing [<-|[<-|[]]]; [left | right]; discriminate. }
  split; [reflexivity|]. split; [reflexivity|]. split; [reflexivity|].
  split; [reflexivity|]. split; [exact Hkey|].
  destruct (proj1 ingest_dedup repliedConversation echoMessage eq_refl Hkey)
    as [Htwice (conv1 & Hrun & Hmessages)].
  split; [exact Htwice|].
  exists conv1. split; [exact Hrun | exact Hmessages].
Defined.

(** C2, as stated for every conversation, fails on a conversation in which
    the message is already recorded: the first call reports changed=false. *)
Lemma ingest_dedup_counterexample :
  processMessages helloConversation [helloMessage]
  = Normal (helloConversation, false)
  /\ ~ Spec.dedupTwice helloConversation helloMessage.
Proof.
  split; [reflexivity|].
  intros (conv1 & H & _). vm_compute in H. discriminate H.
Qed.

Section BatchOrder.





End BatchOrder.



Section Invariant.

Lemma sumTokens_app (roleName modelId : string) (l1 l2 : list Message) :
  Spec.sumTokens roleName modelId (l1 ++ l2)
  = Spec.sumTokens roleName modelId l1 + Spec.sumTokens roleName modelId l2.
Proof. induction l1 as [|m l1 IH]; simpl; lia. Qed.

Lemma tokensOf_nonneg (modelId : string) (m : Message) :
  0 <= Spec.tokensOf modelId m.
Proof. apply estimate_nonneg. Qed.

Lemma sumTokens_nonneg (roleName modelId : string) (l : list Message) :
  0 <= Spec.sumTokens roleName modelId l.
Proof.
  induction l as [|m l IH]; simpl; [lia|].
  pose proof (tokensOf_nonneg modelId m).
  destruct (role m =? roleName)%string; lia.
Qed.

(** Dropping messages from the front can only lower a sum. *)
Lemma sumTokens_skipn (roleName modelId : string) (k : nat) (l : list Message) :
  Spec.sumTokens roleName modelId (skipn k l) <= Spec.sumTokens roleName modelId l.
Proof.
  rewrite <- (firstn_skipn k l) at 2. rewrite sumTokens_app.
  pose proof (sumTokens_nonneg roleName modelId (firstn k l)). lia.
Qed.

Lemma recordMessage_unaccountedInput (conv : Conversation) (m : Message) :
  Spec.unaccountedInput (Spec.recordMessage conv m) = Spec.unaccountedInput conv.
Proof.
  unfold Spec.unaccountedInput.
  rewrite recordMessage_input, recordMessage_model, recordMessage_messages.
  rewrite sumTokens_app. simpl. lia.
Qed.

Lemma recordMessage_unaccountedOutput (conv : Conversation) (m : Message) :
  Spec.unaccountedOutput (Spec.recordMessage conv m) = Spec.unaccountedOutput conv.
Proof.
  unfold Spec.unaccountedOutput.
  rewrite recordMessage_output, recordMessage_model, recordMessage_messages.
  rewrite sumTokens_app. simpl. lia.
Qed.

(** What the [forEach] loop keeps: the model, the cost and the tokens that
    no recorded message accounts for. *)
Lemma fold_step_keeps (batch : list Message) (conv : Conversation) (b : bool) :
  let conv' := fst (fold_left Spec.step batch (conv, b)) in
  model conv' = model conv
  /\ totalCost conv' = totalCost conv
  /\ Spec.unaccountedInput conv' = Spec.unaccountedInput conv
  /\ Spec.unaccountedOutput conv' = Spec.unaccountedOutput conv.
Proof.
  revert conv b. induction batch as [|m batch IH]; intros conv b; simpl.
  - repeat split.
  - unfold Spec.step at 2 4 6 8. cbn [fst].
    destruct (Spec.recorded m conv); [apply IH|].
    destruct (IH (Spec.recordMessage conv m) true) as (Hm & Hc & Hi & Ho).
    rewrite Hm, Hc, Hi, Ho.
    rewrite recordMessage_model, recordMessage_cost,
      recordMessage_unaccountedInput, recordMessage_unaccountedOutput.
    repeat split.
Qed.

Lemma processMessages_keeps (conv : Conversation) (batch : list Message) :
  exists (conv' : Conversation) (changed : bool),
    processMessages conv batch = Normal (conv', changed)
    /\ model conv' = model conv
    /\ Spec.unaccountedInput conv' = Spec.unaccountedInput conv
    /\ Spec.unaccountedOutput conv' = Spec.unaccountedOutput conv
    /\ (Spec.costConsistent conv -> Spec.costConsistent conv').
Proof.
  rewrite processMessages_fold.
  destruct (fold_step_keeps batch conv false) as (Hm & Hc & Hi & Ho).
  destruct (fold_left Spec.step batch (conv, false)) as [c [|]] eqn:E;
    cbn [fst] in *; do 2 eexists; (split; [reflexivity|]).
  - split; [exact Hm|]. split; [exact Hi|]. split; [exact Ho|].
    intros _. unfold Spec.costConsistent. cbn. reflexivity.
  - split; [exact Hm|]. split; [exact Hi|]. split; [exact Ho|].
    apply fold_step_unchanged in E. now subst c.
Qed.

Lemma performMemoryCleanup_keeps (conv : Conversation) :
  let conv' := performMemoryCleanup conv in
  model conv' = model conv
  /\ totalInputTokens conv' = totalInputTokens conv
  /\ totalOutputTokens conv' = totalOutputTokens conv
  /\ totalCost conv' = totalCost conv
  /\ Spec.unaccountedInput conv <= Spec.unaccountedInput conv'
  /\ Spec.unaccountedOutput conv <= Spec.unaccountedOutput conv'.
Proof.
  unfold performMemoryCleanup, Spec.unaccountedInput, Spec.unaccountedOutput.
  destruct (100 <? List.length (messages conv))%nat; cbn.
  - repeat split; try reflexivity.
    + pose proof (sumTokens_skipn "user" (model conv)
                    (List.length (messages conv) - 50) (messages conv)).
      unfold sliceLast. lia.
    + pose proof (sumTokens_skipn "assistant" (model conv)
                    (List.length (messages conv) - 50) (messages conv)).
      unfold sliceLast. lia.
  - repeat split; try reflexivity; lia.
Qed.

Lemma costConsistent_same (conv conv' : Conversation) :
  model conv' = model conv ->
  totalInputTokens conv' = totalInputTokens conv ->
  totalOutputTokens conv' = totalOutputTokens conv ->
  totalCost conv' = totalCost conv ->
  Spec.costConsistent conv -> Spec.costConsistent conv'.
Proof.
  unfold Spec.costConsistent. intros -> -> -> ->. trivial.
Qed.

(** Every sequence of operations runs to a conversation; the unaccounted
    tokens never decrease, and they stay the same when no cleanup runs. *)
Lemma run_keeps (ops : list Spec.Operation) (conv : Conversation) :
  Spec.costConsistent conv ->
  exists conv' : Conversation,
    Spec.run conv ops = Normal conv'
    /\ Spec.costConsistent conv'
    /\ Spec.unaccountedInput conv <= Spec.unaccountedInput conv'
    /\ Spec.unaccountedOutput conv <= Spec.unaccountedOutput conv'
    /\ (forallb Spec.isIngest ops = true ->
        Spec.unaccountedInput conv' = Spec.unaccountedInput conv
        /\ Spec.unaccountedOutput conv' = Spec.unaccountedOutput conv).
Proof.
  revert conv. induction ops as [|op ops IH]; intros conv Hcost.
  - exists conv. cbn. repeat split; trivial; lia.
  - destruct op as [batch|]; cbn [Spec.run Spec.applyOperation].
    + destruct (processMessages_keeps conv batch)
        as (c1 & changed & -> & Hm & Hi & Ho & Hc).
      cbn [bind fst].
      destruct (IH c1 (Hc Hcost)) as (c2 & -> & Hc2 & Hi2 & Ho2 & Heq).
      exists c2. rewrite <- Hi, <- Ho. repeat split; trivial;
        cbn [forallb Spec.isIngest andb] in *; now apply Heq.
    + cbn [bind].
      destruct (performMemoryCleanup_keeps conv) as (Hm & Hti & Hto & Htc & Hi & Ho).
      destruct (IH (performMemoryCleanup conv)) as (c2 & -> & Hc2 & Hi2 & Ho2 & _).
      { now apply costConsistent_same with conv. }
      exists c2. repeat split; trivial; try lia;
        cbn [forallb Spec.isIngest andb] in *; discriminate.
Qed.

Lemma fresh_consistent (conv : Conversation) :
  Spec.fresh conv ->
  Spec.costConsistent conv
  /\ Spec.unaccountedInput conv = 0 /\ Spec.unaccountedOutput conv = 0.
Proof.
  intros (Hm & Hi & Ho & Hc).
  unfold Spec.costConsistent, Spec.unaccountedInput, Spec.unaccountedOutput.
  rewrite Hm, Hi, Ho, Hc. cbn [Spec.sumTokens].
  split; [|split; reflexivity].
  symmetry. apply calculateCost_zero.
Qed.

End Invariant.

(** C3, as amended.  From a fresh conversation whose model id is not a name
    inherited from [Object.prototype] every sequence of ingests and memory
    cleanups runs through, and after it the cumulative cost is the Cost
    Calculator applied to the two cumulative counts and the active model,
    and each cumulative count is at least the sum of the estimated tokens of
    the recorded messages of its role; the two counts equal those sums when
    only ingests ran.  A memory cleanup keeps the counts, the cost and the
    model; it leaves a sequence of at most 100 messages alone and cuts a
    longer one down to its last 50 messages. *)
Theorem accounting_invariant :
  (forall (conv0 : Conversation) (ops : list Spec.Operation),
      Spec.fresh conv0 ->
      ObjectPrototype.isInherited (model conv0) = false ->
      exists conv : Conversation,
        Spec.run conv0 ops = Normal conv
        /\ Spec.totalsCoverMessages conv
        /\ (forallb Spec.isIngest ops = true -> Spec.accountingInvariant conv))
  /\ (forall conv : Conversation,
        totalInputTokens (performMemoryCleanup conv) = totalInputTokens conv
        /\ totalOutputTokens (performMemoryCleanup conv) = totalOutputTokens conv
        /\ totalCost (performMemoryCleanup conv) = totalCost conv
        /\ model (performMemoryCleanup conv) = model conv
        /\ ((List.length (messages conv) <= 100)%nat ->
            messages (performMemoryCleanup conv) = messages conv)
        /\ ((100 < List.length (messages conv))%nat ->
            List.length (messages (performMemoryCleanup conv)) = 50%nat
            /\ exists dropped : list Message,
                 messages conv
                 = (dropped ++ messages (performMemoryCleanup conv))%list)).
Proof.
  split.
  - intros conv0 ops Hfresh _.
    destruct (fresh_consistent conv0 Hfresh) as (Hc & Hi & Ho).
    destruct (run_keeps ops conv0 Hc) as (conv & Hrun & Hc' & Hi' & Ho' & Heq).
    exists conv. split; [exact Hrun|].
    unfold Spec.totalsCoverMessages, Spec.accountingInvariant.
    unfold Spec.unaccountedInput, Spec.unaccountedOutput in *.
    split.
    + repeat split; trivial; lia.
    + intros Hops. destruct (Heq Hops) as [Ei Eo].
      repeat split; trivial; lia.
  - intros conv.
    destruct (performMemoryCleanup_keeps conv) as (Hm & Hti & Hto & Htc & _).
    split; [exact Hti|]. split; [exact Hto|]. split; [exact Htc|].
    split; [exact Hm|].
    unfold performMemoryCleanup, sliceLast. split.
    + intros Hle. apply Nat.ltb_ge in Hle. now rewrite Hle.
    + intros Hlt. pose proof Hlt as Hb. apply Nat.ltb_lt in Hb. rewrite Hb.
      cbn [messages setMessages]. split.
      * rewrite length_skipn. lia.
      * exists (firstn (List.length (messages conv) - 50) (messages conv)).
        symmetry. apply firstn_skipn.
Qed.

Lemma accounting_invariant_witness :
  Spec.fresh emptyConversation
  /\ ObjectPrototype.isInherited (model emptyConversation) = false
  /\ forallb Spec.isIngest
       [Spec.Ingest [helloMessage]; Spec.Ingest (manyMessages 3)] = true
  /\ (100 < List.length (messages busyConversation))%nat
  /\ (exists conv : Conversation,
        Spec.run emptyConversation
          [Spec.Ingest [helloMessage]; Spec.Ingest (manyMessages 3)]
        = Normal conv
        /\ Spec.accountingInvariant conv)
  /\ List.length (messages (performMemoryCleanup busyConversation)) = 50%nat.
Proof.
  assert (Hlong : (100 < List.length (messages busyConversation))%nat)
    by (vm_compute; lia).
  split; [repeat split|]. split; [reflexivity|]. split; [reflexivity|].
  split; [exact Hlong|]. split.
  - destruct (proj1 accounting_invariant emptyConversation
                [Spec.Ingest [helloMessage]; Spec.Ingest (manyMessages 3)])
      as (conv & Hrun & _ & Hinv).
    + repeat split.
    + reflexivity.
    + exists conv. split; [exact Hrun|]. apply Hinv. reflexivity.
  - destruct (proj2 accounting_invariant busyConversation)
      as (_ & _ & _ & _ & _ & Hcut).
    exact (proj1 (Hcut Hlong)).
Defined.

(** C3, as stated, fails after a memory cleanup: with 101 recorded user
    messages the cleanup keeps the last 50 and leaves the cumulative input
    count at the sum over all 101. *)
Lemma cleanup_invariant_counterexample :
  exists conv : Conversation,
    Spec.run emptyConversation
      [Spec.Ingest (manyMessages 101); Spec.MemoryCleanup] = Normal conv
    /\ List.length (messages conv) = 50%nat
    /\ totalInputTokens conv = 1427
    /\ Spec.sumTokens "user" (model conv) (messages conv) = 1025
    /\ ~ Spec.accountingInvariant conv.
Proof.
  eexists. split; [vm_compute; reflexivity|].
  split; [reflexivity|]. split; [reflexivity|].
  split; [vm_compute; reflexivity|].
  intros (H & _). vm_compute in H. discriminate H.
Qed.

(** ** Conversation boundaries *)

Section Boundary.

(** A boundary is signalled exactly when an id is observed that differs from
    the stored one, or none is observed and the conversation has one. *)
Lemma boundary_signalled (conv : Conversation) (observed : option string) :
  boundary conv observed <> None
  <-> (exists captured : string,
         observed = Some captured /\ urlId conv <> Some captured)
      \/ (observed = None /\ hasUrlId (urlId conv) = true).
Proof.
  unfold boundary, differsFrom. destruct observed as [captured|].
  - destruct (urlId conv) as [s|] eqn:Hs.
    + destruct (captured =? s)%string eqn:E; cbn [negb].
      * apply String.eqb_eq in E. subst s. split; [congruence|].
        intros [(c & [= <-] & Hne)|[H _]]; [congruence | discriminate].
      * apply String.eqb_neq in E. split; [|discriminate].
        intros _. left. exists captured. split; [reflexivity|]. congruence.
    + split; [|discriminate].
      intros _. left. exists captured. split; [reflexivity | discriminate].
  - destruct (hasUrlId (urlId conv)).
    + split; [|discriminate]. intros _. now right.
    + split; [congruence|].
      intros [(c & H & _)|[_ H]]; discriminate.
Qed.

(** The id captured from the address is never empty. *)
Lemma matchConversationUrl_nonempty (url captured : list ascii) :
  matchConversationUrl url = Some captured -> captured <> [].
Proof.
  induction url as [|c url IH]; cbn [matchConversationUrl]; [discriminate|].
  destruct (startsWith (chars "/c/") (c :: url)); [|exact IH].
  destruct (takeWhile isIdChar (skipn 3 (c :: url))) as [|a r]; [exact IH|].
  intros [= <-]. discriminate.
Qed.

(** [startNewConversation] installs a conversation without messages and with
    zero totals, and leaves at most a suspended history save behind. *)
Lemma startNewConversation_fresh (arg : option string) (page : Page)
  (t t' : Tracker) :
  startNewConversation arg page t = Normal t' ->
  Spec.fresh (currentConversation t')
  /\ urlId (currentConversation t') = arg
  /\ detectCurrentModel page t = Normal (model (currentConversation t'))
  /\ conversationsHistory t' = conversationsHistory t
  /\ suspended t'
     = (suspended t
        ++ if (0 <? List.length (messages (currentConversation t)))%nat
           then [SaveConversationToHistory_afterGet] else [])%list.
Proof.
  unfold startNewConversation, detectCurrentModel.
  destruct (0 <? List.length (messages (currentConversation t)))%nat;
    cbn [saveConversationToHistory settingsDefaultModel suspended
         conversationsHistory];
    destruct (detectCurrentModelLoop (modelIndicators page)
                (settingsDefaultModel t)) as [detected|e];
    cbn [bind]; try discriminate; intros [= <-]; cbn;
    rewrite ?app_nil_r; repeat split.
Qed.

(** The history save that a boundary leaves behind stores the conversation
    that is current when it is resumed: the new one. *)
Lemma suspended_save_stores_current (now : Z) (t : Tracker) :
  suspended t = [SaveConversationToHistory_afterGet] ->
  conversationsHistory t = [] ->
  conversationsHistory (runSuspended now t)
  = [ {| closed := currentConversation t; endTime := now |} ].
Proof.
  intros Hs Hh. unfold runSuspended. rewrite Hs, Hh. reflexivity.
Qed.

(** For every tracker with an empty history and nothing suspended, a boundary
    on a conversation with messages ends with the new conversation in the
    history, whatever the closed one held. *)
Lemma boundary_save_stores_new (arg : option string) (page : Page)
  (t t' : Tracker) (now : Z) :
  suspended t = [] ->
  conversationsHistory t = [] ->
  messages (currentConversation t) <> [] ->
  startNewConversation arg page t = Normal t' ->
  messages (currentConversation t') = []
  /\ conversationsHistory (runSuspended now t')
     = [ {| closed := currentConversation t'; endTime := now |} ].
Proof.
  intros Hs Hh Hm Hstart.
  destruct (startNewConversation_fresh arg page t t' Hstart)
    as ((Hfresh & _) & _ & _ & Hh' & Hs').
  split; [exact Hfresh|].
  apply suspended_save_stores_current; [|congruence].
  rewrite Hs', Hs.
  destruct (messages (currentConversation t)); [contradiction | reflexivity].
Qed.

(** The model of a new conversation: the first indicator whose text resolves
    to a model other than the tokenizer's default, else the configured
    default model. *)
Lemma detectCurrentModel_fallback (indicators : list string)
  (settingsDefault : string) :
  (forall textContent : string,
      In textContent indicators ->
      detectModel (JStr textContent) = Normal defaultModel) ->
  detectCurrentModelLoop indicators settingsDefault = Normal settingsDefault.
Proof.
  induction indicators as [|textContent rest IH]; intros H; [reflexivity|].
  cbn [detectCurrentModelLoop].
  assert (Hd : detectModel
                 (JStr (string_of_list_ascii (toLowerCase (chars textContent))))
               = Normal defaultModel).
  { rewrite <- (H textContent (or_introl eq_refl)).
    unfold detectModel. cbn [stringReceiver bind].
    now rewrite chars_of_list, toLowerCase_idempotent. }
  rewrite Hd. cbn [bind]. rewrite String.eqb_refl. cbn [negb].
  apply IH. intros x Hx. apply H. now right.
Qed.

End Boundary.

(** C10, evaluated where it fails.  The conversation opened at /c/abc holds
    one message and the address now shows /c/xyz: a boundary is signalled,
    the new conversation has no messages, zero totals and the detected model,
    and the only thing left of the history save is its suspended
    continuation; once resumed it appends the new, empty conversation with an
    end timestamp, and the conversation that was closed is not in the
    history. *)
Theorem boundary_history_save_evaluated :
  boundary abcConversation (Some "xyz") = Some (Some "xyz")
  /\ exists t : Tracker,
       detectNewConversation xyzPage abcTracker = Normal t
       /\ currentConversation t = xyzConversation
       /\ conversationsHistory t = []
       /\ suspended t = [SaveConversationToHistory_afterGet]
       /\ conversationsHistory (runSuspended 201 t)
          = [ {| closed := xyzConversation; endTime := 201 |} ]
       /\ ~ In abcConversation
            (map closed (conversationsHistory (runSuspended 201 t))).
Proof.
  split; [reflexivity|].
  eexists. split; [vm_compute; reflexivity|].
  split; [reflexivity|]. split; [reflexivity|]. split; [reflexivity|].
  split; [reflexivity|].
  cbn. intros [H|[]]. discriminate H.
Qed.

(** ** Binary64 rounding of the word-based estimate *)

Section Rounding.

Lemma mantissa13_nearest :
  2 ^ 52 <= mantissa13 < 2 ^ 53 /\ 10 * mantissa13 - 13 * 2 ^ 52 = 2.
Proof.
  unfold mantissa13.
  change (2 ^ 52) with 4503599627370496.
  change (2 ^ 53) with 9007199254740992. lia.
Qed.

Lemma ceiling_unique (a d c : Z) :
  0 < d -> d * (c - 1) < a <= d * c -> - ((- a) / d) = c.
Proof.
  intros Hd [Hl Hu].
  pose proof (Z.div_mod (- a) d ltac:(lia)) as E.
  pose proof (Z.mod_pos_bound (- a) d Hd) as B.
  nia.
Qed.

(** The rounded value is a multiple of the unit within half a unit of [n]. *)
Lemma roundToMultiple_near (n shift : Z) :
  0 < shift ->
  exists k : Z,
    roundToMultiple n shift = k * 2 ^ shift
    /\ 2 * n - 2 ^ shift <= 2 * (k * 2 ^ shift) <= 2 * n + 2 ^ shift.
Proof.
  intros Hs. unfold roundToMultiple. cbv zeta.
  assert (HU : 0 < 2 ^ shift) by (apply Z.pow_pos_nonneg; lia).
  pose proof (Z.div_mod n (2 ^ shift) ltac:(lia)) as E.
  pose proof (Z.mod_pos_bound n (2 ^ shift) HU) as B.
  destruct ((2 ^ shift <? 2 * (n mod 2 ^ shift))
            || ((2 * (n mod 2 ^ shift) =? 2 ^ shift) && Z.odd (n / 2 ^ shift)))
    eqn:D.
  - exists (n / 2 ^ shift + 1). split; [reflexivity|].
    apply orb_true_iff in D. destruct D as [D|D].
    + apply Z.ltb_lt in D. nia.
    + apply andb_true_iff in D. destruct D as [D _]. apply Z.eqb_eq in D. nia.
  - exists (n / 2 ^ shift). split; [reflexivity|].
    apply orb_false_iff in D. destruct D as [D _].
    apply Z.ltb_ge in D. nia.
Qed.

(** For every word count below 2^32 the ceiling of the rounded product is
    the ceiling of the exact product [w * 13/10]. *)
Lemma times13_ceiling (w : Z) :
  0 <= w < 2 ^ 32 ->
  Qceiling (times13 w) = Qceiling (inject_Z w * (13 # 10)).
Proof.
  intros [Hw0 Hw].
  set (c := Qceiling (inject_Z w * (13 # 10))).
  assert (Hc : 10 * (c - 1) < 13 * w <= 10 * c).
  { subst c. unfold Qceiling, Qfloor, Qopp, Qmult, inject_Z.
    simpl Qnum. simpl Qden.
    pose proof (Z.div_mod (- (w * 13)) 10 ltac:(lia)) as E.
    pose proof (Z.mod_pos_bound (- (w * 13)) 10 ltac:(lia)) as B.
    change (Z.pos (1 * 10)) with 10. lia. }
  clearbody c.
  destruct (Z.eq_dec w 0) as [->|Hwpos].
  { assert (c = 0) by lia. subst c. reflexivity. }
  unfold Qceiling, Qfloor, Qopp, times13. simpl Qnum. simpl Qden.
  change (Z.pos (2 ^ 52)) with (2 ^ 52).
  apply ceiling_unique; [reflexivity|].
  unfold round53. cbv zeta.
  set (n := w * mantissa13).
  assert (Hn : 10 * n = 13 * w * 2 ^ 52 + 2 * w).
  { subst n. unfold mantissa13. change (2 ^ 52) with 4503599627370496. lia. }
  assert (Hnpos : 0 < n) by (subst n; unfold mantissa13; lia).
  pose proof (Z.log2_spec n Hnpos) as [Hlo Hhi].
  destruct (Z.log2 n - 52 <=? 0) eqn:Hs.
  - (* the product has at most 53 bits: only for w = 1 *)
    apply Z.leb_le in Hs.
    assert (n < 2 ^ 53).
    { eapply Z.lt_le_trans; [exact Hhi|]. apply Z.pow_le_mono_r; lia. }
    assert (w = 1).
    { subst n. unfold mantissa13 in *.
      change (2 ^ 53) with 9007199254740992 in *. lia. }
    subst w. change (2 ^ 52) with 4503599627370496 in *. lia.
  - apply Z.leb_gt in Hs.
    destruct (roundToMultiple_near n (Z.log2 n - 52) Hs) as (k & -> & Hk).
    set (s := Z.log2 n - 52) in *.
    assert (Hlog : Z.log2 n = s + 52) by (subst s; lia).
    rewrite Hlog in Hlo.
    replace (Z.succ (Z.log2 n)) with (s + 53) in Hhi by lia.
    rewrite Z.pow_add_r in Hlo, Hhi by lia.
    assert (HU : 0 < 2 ^ s) by (apply Z.pow_pos_nonneg; lia).
    assert (Hs33 : s < 33).
    { destruct (Z_lt_le_dec s 33) as [|Hge]; [assumption|].
      assert (2 ^ 33 <= 2 ^ s) by (apply Z.pow_le_mono_r; lia).
      subst n. unfold mantissa13 in *.
      change (2 ^ 32) with 4294967296 in *.
      change (2 ^ 33) with 8589934592 in *.
      change (2 ^ 52) with 4503599627370496 in *. nia. }
    assert (HUb : 2 ^ s < 2 ^ 33) by (apply Z.pow_lt_mono_r; lia).
    assert (HT : 2 ^ 52 = 2 ^ (52 - s) * 2 ^ s).
    { rewrite <- Z.pow_add_r by lia. f_equal. lia. }
    assert (HV : 0 < 2 ^ (52 - s)) by (apply Z.pow_pos_nonneg; lia).
    set (U := 2 ^ s) in *. set (V := 2 ^ (52 - s)) in *.
    clearbody U V.
    change (2 ^ 33) with 8589934592 in *.
    change (2 ^ 32) with 4294967296 in *.
    change (2 ^ 53) with 9007199254740992 in *.
    assert (HT' : V * U = 4503599627370496) by (rewrite <- HT; reflexivity).
    change (2 ^ 52) with 4503599627370496 in *.
    assert (Hw2 : w < 2 * U).
    { subst n. unfold mantissa13 in *. nia. }
    split.
    + nia.
    + assert (k < c * V + 1); [|nia].
      apply Z.mul_lt_mono_pos_r with U; [assumption|].
      nia.
Qed.

(** [wordBasedEstimate] as the code computes it in binary64 is the value of
    the model. *)
Lemma wordBasedEstimate_binary64 (words : nat) :
  Z.of_nat words < 2 ^ 32 ->
  Qceiling (times13 (Z.of_nat words)) = Qceiling (ofNat words * (13 # 10)).
Proof.
  intros H. apply times13_ceiling. split; [lia | exact H].
Qed.

End Rounding.

(** * Further properties of the code *)

(** ** Normalization in [encode] *)

Section Normalization.

Lemma dropSpaces_idempotent (s : list ascii) :
  dropSpaces (dropSpaces s) = dropSpaces s.
Proof.
  induction s as [|c s IH]; simpl; [reflexivity|].
  destruct (isSpace c) eqn:Hc; [exact IH|].
  simpl. now rewrite Hc.
Qed.

(** Stripping the two ends can be done in either order. *)
Lemma dropSpaces_trimEnd (s : list ascii) :
  dropSpaces (trimEnd s) = trimEnd (dropSpaces s).
Proof.
  induction s as [|c s IH]; [reflexivity|].
  cbn [trimEnd dropSpaces].
  destruct (isSpace c) eqn:Hc.
  - rewrite <- IH. destruct (trimEnd s) as [|a r]; [reflexivity|].
    cbn [dropSpaces]. now rewrite Hc.
  - destruct (trimEnd s) as [|a r] eqn:Hr.
    + simpl. rewrite ?Hc, ?Hr. simpl. now rewrite ?Hc.
    + simpl. rewrite ?Hc, ?Hr. simpl. now rewrite ?Hc.
Qed.

Lemma trimEnd_idempotent (s : list ascii) : trimEnd (trimEnd s) = trimEnd s.
Proof.
  induction s as [|c s IH]; [reflexivity|].
  cbn [trimEnd]. destruct (trimEnd s) as [|a r] eqn:Hr.
  - destruct (isSpace c) eqn:Hc; [reflexivity|].
    cbn [trimEnd]. now rewrite Hc.
  - cbn [trimEnd] in *. now rewrite IH.
Qed.

Lemma trim_idempotent (s : list ascii) : trim (trim s) = trim s.
Proof.
  unfold trim.
  now rewrite <- dropSpaces_trimEnd, trimEnd_idempotent, dropSpaces_trimEnd,
    dropSpaces_idempotent.
Qed.

Lemma replaceRuns_dropSpaces (s : list ascii) :
  replaceRuns false (dropSpaces s) = replaceRuns true s.
Proof.
  induction s as [|c s IH]; [reflexivity|].
  cbn [dropSpaces replaceRuns]. destruct (isSpace c) eqn:Hc; [exact IH|].
  cbn [replaceRuns]. now rewrite Hc.
Qed.

(** What [trimEnd] leaves is empty or holds a code unit that is not white
    space, and then so does what [replaceRuns] makes of it. *)
Lemma trimEnd_nonspace (s : list ascii) :
  trimEnd s = [] \/ existsb (fun c => negb (isSpace c)) (trimEnd s) = true.
Proof.
  induction s as [|c s IH]; [now left|].
  cbn [trimEnd]. destruct (trimEnd s) as [|a r] eqn:Hr.
  - destruct (isSpace c) eqn:Hc; [now left|].
    right. cbn. now rewrite Hc.
  - right. destruct IH as [IH|IH]; [discriminate|].
    cbn [existsb] in *. rewrite IH. apply orb_true_r.
Qed.

Lemma replaceRuns_nonempty (s : list ascii) (inRun : bool) :
  existsb (fun c => negb (isSpace c)) s = true -> replaceRuns inRun s <> [].
Proof.
  revert inRun. induction s as [|c s IH]; intros inRun H; [discriminate|].
  cbn [existsb replaceRuns] in *. destruct (isSpace c).
  - cbn [negb orb] in H. destruct inRun; [now apply IH | discriminate].
  - discriminate.
Qed.

Lemma replaceRuns_trimEnd_collapsed (s : list ascii) (inRun : bool) :
  replaceRuns inRun (trimEnd s) = []
  \/ collapsedFrom inRun (replaceRuns inRun (trimEnd s)) = true.
Proof.
  revert inRun. induction s as [|c s IH]; intros inRun; [now left|].
  cbn [trimEnd]. destruct (trimEnd s) as [|a r] eqn:Hr.
  - destruct (isSpace c) eqn:Hc; [now left|].
    right. cbn [replaceRuns collapsedFrom]. rewrite Hc.
    cbn [collapsedFrom]. now rewrite Hc.
  - assert (Hne : replaceRuns true (a :: r) <> []).
    { apply replaceRuns_nonempty.
      destruct (trimEnd_nonspace s) as [E|E]; rewrite Hr in E;
        [discriminate | exact E]. }
    pose proof (IH true) as IHt. pose proof (IH false) as IHf.
    revert Hne IHt IHf. generalize (a :: r). intros tr Hne IHt IHf.
    cbn [replaceRuns]. destruct (isSpace c) eqn:Hc.
    + destruct inRun; [exact IHt|].
      right. cbn [collapsedFrom]. 
      destruct IHt as [E|E]; [contradiction|]. now rewrite E.
    + right. cbn [collapsedFrom]. rewrite Hc.
      destruct IHf as [E|E]; [now rewrite E | exact E].
Qed.

(** The text [encode] works on is in normal form. *)
Lemma normalize_isNormalized (s : list ascii) :
  isNormalized (collapseSpaces (trim s)) = true.
Proof.
  unfold collapseSpaces, trim.
  rewrite <- dropSpaces_trimEnd, replaceRuns_dropSpaces.
  destruct (replaceRuns_trimEnd_collapsed s true) as [E|E].
  - now rewrite E.
  - unfold isNormalized. now destruct (replaceRuns true (trimEnd s)).
Qed.

Lemma collapsedFrom_dropSpaces (s : list ascii) :
  collapsedFrom true s = true -> dropSpaces s = s.
Proof.
  destruct s as [|c s]; [reflexivity|].
  cbn [collapsedFrom dropSpaces]. destruct (isSpace c); [discriminate | reflexivity].
Qed.

Lemma collapsedFrom_trimEnd (s : list ascii) (afterSpace : bool) :
  collapsedFrom afterSpace s = true -> trimEnd s = s.
Proof.
  revert afterSpace. induction s as [|c s IH]; intros afterSpace H; [reflexivity|].
  cbn [collapsedFrom trimEnd] in *. destruct (isSpace c) eqn:Hc.
  - apply andb_true_iff in H. destruct H as [_ H].
    rewrite (IH true H). destruct s; [discriminate H | reflexivity].
  - rewrite (IH false H). destruct s; [|reflexivity].
    reflexivity.
Qed.

Lemma collapsedFrom_replaceRuns (s : list ascii) (afterSpace : bool) :
  collapsedFrom afterSpace s = true -> replaceRuns afterSpace s = s.
Proof.
  revert afterSpace. induction s as [|c s IH]; intros afterSpace H; [reflexivity|].
  cbn [collapsedFrom replaceRuns] in *. destruct (isSpace c) eqn:Hc.
  - apply andb_true_iff in H. destruct H as [H Hs].
    apply andb_true_iff in H. destruct H as [Ha Hb].
    destruct afterSpace; [discriminate Ha|].
    apply Ascii.eqb_eq in Hb. subst c. now rewrite (IH true Hs).
  - now rewrite (IH false H).
Qed.

Lemma collapsedFrom_weaken (s : list ascii) :
  collapsedFrom true s = true -> collapsedFrom false s = true.
Proof.
  destruct s as [|c s]; [discriminate|].
  cbn [collapsedFrom]. destruct (isSpace c); [discriminate | trivial].
Qed.

(** A text in normal form is left as it is. *)
Lemma isNormalized_fixed (s : list ascii) :
  isNormalized s = true -> collapseSpaces (trim s) = s.
Proof.
  destruct s as [|c s]; [reflexivity|].
  unfold isNormalized, collapseSpaces, trim. intros H.
  rewrite (collapsedFrom_dropSpaces _ H), (collapsedFrom_trimEnd _ _ H).
  apply collapsedFrom_replaceRuns. now apply collapsedFrom_weaken.
Qed.

Lemma normalize_idempotent (s : list ascii) :
  Spec.normalize (Spec.normalize s) = Spec.normalize s.
Proof.
  unfold Spec.normalize. apply isNormalized_fixed, normalize_isNormalized.
Qed.

End Normalization.

(** X1.  Under a model id that is not a name inherited from
    [Object.prototype], [encode] gives a text and its normalized form (ends trimmed, every
    run of white space replaced by one space) the same estimate, and the
    normalized form is a fixed point of the normalization; so two texts with
    the same normalized form have the same estimate. *)
Theorem encode_whitespace_insensitive (t u modelId : string) :
  ObjectPrototype.isInherited modelId = false ->
  let normalized := collapseSpaces (trim (chars t)) in
  encode (JStr (string_of_list_ascii normalized)) modelId = encode (JStr t) modelId
  /\ collapseSpaces (trim normalized) = normalized
  /\ (collapseSpaces (trim (chars u)) = normalized ->
      encode (JStr u) modelId = encode (JStr t) modelId).
Proof.
  intros _. cbv zeta. split; [|split].
  - rewrite !encode_string, chars_of_list.
    change (collapseSpaces (trim (chars t))) with (Spec.normalize (chars t)).
    unfold Spec.estimate. now rewrite normalize_idempotent.
  - apply normalize_idempotent.
  - intros H. rewrite !encode_string. unfold Spec.estimate, Spec.normalize.
    now rewrite H.
Qed.

Lemma encode_whitespace_insensitive_witness :
  ObjectPrototype.isInherited "gpt-4" = false
  /\ collapseSpaces (trim (chars "Hello,   world! "))
  = collapseSpaces (trim (chars "  Hello, world!"))
  /\ encode (JStr "Hello,   world! ") "gpt-4"
     = encode (JStr "  Hello, world!") "gpt-4".
Proof.
  split; [reflexivity|]. split; [reflexivity|].
  apply (proj2 (proj2 (encode_whitespace_insensitive
                         "  Hello, world!" "Hello,   world! " "gpt-4"
                         eq_refl))).
  reflexivity.
Defined.

(** ** More on the tokenizer *)

Section TokenizerFacts.

Lemma encode_nonneg (x : JsVal) (modelId : string) (n : Z) :
  encode x modelId = Normal n -> 0 <= n.
Proof.
  destruct x as [| |b|k|s|items|fields];
    try (rewrite encode_non_string by reflexivity; intros [= <-]; lia).
  rewrite encode_string. intros [= <-]. apply estimate_nonneg.
Qed.

Lemma blank_dropSpaces (s : list ascii) :
  forallb isSpace s = true -> dropSpaces s = [].
Proof.
  induction s as [|c s IH]; [reflexivity|].
  cbn [forallb dropSpaces]. intros H. apply andb_true_iff in H.
  destruct H as [Hc Hs]. rewrite Hc. now apply IH.
Qed.

Lemma blank_countWords (s : list ascii) :
  forallb isSpace s = false -> (1 <= Spec.countWords true s)%nat.
Proof.
  induction s as [|c s IH]; [discriminate|].
  cbn [forallb Spec.countWords]. destruct (isSpace c); cbn [andb]; [exact IH|].
  intros _. lia.
Qed.

Lemma estimateFrom_word (L W S : nat) :
  (1 <= W)%nat -> 2 <= Spec.estimateFrom L W S 4.
Proof.
  intros HW. unfold Spec.estimateFrom.
  apply Z.le_trans with
    (Qceiling (ofNat W * (13 # 10)) + Qceiling (ofNat S * (1 # 2)));
    [|apply Z.le_max_r].
  assert (H1 : 2 <= Qceiling (ofNat W * (13 # 10))).
  { change 2 with (Qceiling (ofNat 1 * (13 # 10))).
    apply Qceiling_resp_le.
    apply Qmult_le_compat_r; [now apply ofNat_le | discriminate]. }
  assert (H2 : 0 <= Qceiling (ofNat S * (1 # 2))).
  { change 0 with (Qceiling (ofNat 0 * (1 # 2))).
    apply Qceiling_resp_le.
    apply Qmult_le_compat_r; [apply ofNat_le; lia | discriminate]. }
  lia.
Qed.

Lemma estimate_blank (text : list ascii) (modelId : string) :
  forallb isSpace text = true -> Spec.estimate text modelId = 0.
Proof.
  intros H. unfold Spec.estimate, Spec.normalize, collapseSpaces, trim.
  rewrite (blank_dropSpaces _ H), avgCharsPerToken_profile. reflexivity.
Qed.

Lemma estimate_not_blank (text : list ascii) (modelId : string) :
  forallb isSpace text = false -> 2 <= Spec.estimate text modelId.
Proof.
  intros H. unfold Spec.estimate. rewrite avgCharsPerToken_profile.
  apply estimateFrom_word. rewrite wordCount_normalize.
  now apply blank_countWords.
Qed.

(** The loop of [encodeChat] adds the same amount whatever the total it
    starts from, and never a negative one. *)
Lemma encodeChatMessage_nonneg (message : JsVal) (modelId : string) :
  exists n : Z, encodeChatMessage message modelId = Normal n /\ 0 <= n.
Proof.
  unfold encodeChatMessage.
  destruct (negb (truthy message) || negb (typeof message =? "object")%string);
    [exists 0; split; [reflexivity | lia]|].
  assert (Hif : forall x, exists n,
             (if truthy x then encode x modelId else Normal 0) = Normal n
             /\ 0 <= n).
  { intros x. destruct (truthy x).
    - destruct (encode_total x modelId) as [n Hn]. exists n.
      split; [exact Hn | exact (encode_nonneg _ _ _ Hn)].
    - exists 0. split; [reflexivity | lia]. }
  destruct (Hif (getField message "role")) as (r & -> & Hr).
  destruct (Hif (getField message "content")) as (c & -> & Hc).
  cbn [bind].
  destruct (truthy (getField message "name")).
  - destruct (encode_total (getField message "name") modelId) as [n Hn].
    pose proof (encode_nonneg _ _ _ Hn). rewrite Hn. cbn [bind].
    eexists. split; [reflexivity | lia].
  - cbn [bind]. eexists. split; [reflexivity | lia].
Qed.

Lemma encodeChatLoop_adds (items : list JsVal) (modelId : string) :
  exists k : Z,
    0 <= k
    /\ forall totalTokens : Z,
         encodeChatLoop totalTokens items modelId = Normal (totalTokens + k).
Proof.
  induction items as [|message items (k & Hk & IH)].
  - exists 0. split; [lia|]. intros t. cbn. f_equal. lia.
  - destruct (encodeChatMessage_nonneg message modelId) as (n & Hn & Hn0).
    exists (n + k). split; [lia|]. intros t.
    cbn [encodeChatLoop]. rewrite Hn. cbn [bind]. rewrite IH. f_equal. lia.
Qed.

Lemma encodeChatLoop_app (a b : list JsVal) (modelId : string) (t : Z) :
  encodeChatLoop t (a ++ b) modelId
  = (n <- encodeChatLoop t a modelId ;; encodeChatLoop n b modelId).
Proof.
  revert t. induction a as [|message a IH]; intros t; [reflexivity|].
  cbn [app encodeChatLoop].
  destruct (encodeChatMessage message modelId) as [n|e]; cbn [bind];
    [apply IH | reflexivity].
Qed.

Lemma profile_costs_nonneg (modelId : string) :
  (0 <= costPer1kInput (Spec.profile modelId))%Q
  /\ (0 <= costPer1kOutput (Spec.profile modelId))%Q.
Proof.
  unfold Spec.profile.
  destruct (modelId =? "gpt-4")%string; [split; discriminate|].
  destruct (modelId =? "gpt-4o")%string; [split; discriminate|].
  destruct (modelId =? "gpt-4-turbo")%string; [split; discriminate|].
  destruct (modelId =? "gpt-3.5-turbo")%string; split; discriminate.
Qed.

Lemma scaled_le (a b price : Q) :
  (a <= b)%Q -> (0 <= price)%Q -> (a / 1000 * price <= b / 1000 * price)%Q.
Proof.
  intros Hab Hp. apply Qmult_le_compat_r; [|exact Hp].
  unfold Qdiv. apply Qmult_le_compat_r; [exact Hab | discriminate].
Qed.

End TokenizerFacts.

(** X2.  The estimate does not depend on the model: every profile of the
    table has the same characters-per-token constant, so [encode] returns
    the same number for every two model ids, known or not, that are not
    names inherited from [Object.prototype]. *)
Theorem encode_model_independent (x : JsVal) (model1 model2 : string) :
  ObjectPrototype.isInherited model1 = false ->
  ObjectPrototype.isInherited model2 = false ->
  encode x model1 = encode x model2.
Proof.
  intros _ _.
  destruct x as [| |b|k|s|items|fields];
    try (now rewrite !encode_non_string by reflexivity).
  rewrite !encode_string. unfold Spec.estimate.
  now rewrite !avgCharsPerToken_profile.
Qed.

Lemma encode_model_independent_witness :
  ObjectPrototype.isInherited "gpt-4" = false
  /\ ObjectPrototype.isInherited "no-such-model" = false
  /\ encode (JStr "Hello, world!") "gpt-4"
     = encode (JStr "Hello, world!") "no-such-model".
Proof.
  split; [reflexivity|]. split; [reflexivity|].
  exact (encode_model_independent (JStr "Hello, world!")
           "gpt-4" "no-such-model" eq_refl eq_refl).
Defined.

(** X3.  Under a model id that is not a name inherited from
    [Object.prototype], [encode] returns 0 exactly for the texts that hold nothing but
    white space (the empty text among them), and at least 2 for every other
    text. *)
Theorem encode_zero_iff_blank (text modelId : string) :
  ObjectPrototype.isInherited modelId = false ->
  exists n : Z,
    encode (JStr text) modelId = Normal n
    /\ (forallb isSpace (chars text) = true -> n = 0)
    /\ (forallb isSpace (chars text) = false -> 2 <= n)
    /\ (n = 0 <-> forallb isSpace (chars text) = true).
Proof.
  intros _.
  exists (Spec.estimate (chars text) modelId).
  split; [apply encode_string|].
  split; [apply estimate_blank|].
  split; [apply estimate_not_blank|].
  split; [|apply estimate_blank].
  intros H0. destruct (forallb isSpace (chars text)) eqn:E; [reflexivity|].
  pose proof (estimate_not_blank _ modelId E). lia.
Qed.

Lemma encode_zero_iff_blank_witness :
  ObjectPrototype.isInherited "gpt-4o" = false
  /\ forallb isSpace (chars "a") = false
  /\ exists n : Z, encode (JStr "a") "gpt-4o" = Normal n /\ 2 <= n.
Proof.
  split; [reflexivity|]. split; [reflexivity|].
  destruct (encode_zero_iff_blank "a" "gpt-4o" eq_refl)
    as (n & Hn & _ & H2 & _).
  exists n. split; [exact Hn|]. apply H2. reflexivity.
Defined.

(** X4.  Under a model id that is not a name inherited from
    [Object.prototype], [encodeChat] on the concatenation of two arrays is the sum of its
    results on the two arrays less the fixed overhead of 6 that each of them
    carries; the result on every array is at least 6. *)
Theorem encodeChat_concat (a b : list JsVal) (modelId : string) :
  ObjectPrototype.isInherited modelId = false ->
  exists na nb : Z,
    encodeChat (JArr a) modelId = Normal na
    /\ encodeChat (JArr b) modelId = Normal nb
    /\ encodeChat (JArr (a ++ b)) modelId = Normal (na + nb - 6)
    /\ 6 <= na /\ 6 <= nb.
Proof.
  intros _.
  destruct (encodeChatLoop_adds a modelId) as (ka & Ha0 & Ha).
  destruct (encodeChatLoop_adds b modelId) as (kb & Hb0 & Hb).
  exists (0 + 4 + ka + 2), (0 + 4 + kb + 2).
  unfold encodeChat. cbn [isArray negb arrayItems].
  rewrite encodeChatLoop_app, !Ha, !Hb. cbn [bind]. rewrite Hb.
  cbn [bind]. repeat split; try lia. f_equal. lia.
Qed.

Lemma encodeChat_concat_witness :
  ObjectPrototype.isInherited "gpt-4o" = false
  /\ encodeChat (JArr ([Spec.toJs (Spec.Build_ChatMessage "user" "hi" None)]
                       ++ [JNull])) "gpt-4o"
     = Normal 14.
Proof.
  split; [reflexivity|].
  destruct (encodeChat_concat
              [Spec.toJs (Spec.Build_ChatMessage "user" "hi" None)] [JNull]
              "gpt-4o" eq_refl)
    as (na & nb & Ha & Hb & Hab & _).
  vm_compute in Ha, Hb. injection Ha as <-. injection Hb as <-. exact Hab.
Defined.

(** ** Rounding to binary64 *)

Section Rounding64.

Import Doubles.

Lemma pow2_pos (k : Z) : (0 < pow2 k)%Q.
Proof. apply Qpower_0_lt. reflexivity. Qed.

Lemma pow2_add (a b : Z) : (pow2 (a + b) == pow2 a * pow2 b)%Q.
Proof. unfold pow2. apply Qpower_plus. discriminate. Qed.

Lemma pow2_succ (k : Z) : (pow2 (k + 1) == 2 * pow2 k)%Q.
Proof. rewrite pow2_add. unfold pow2 at 2. rewrite Qpower_1_r. ring. Qed.

Lemma pow2_le (k k' : Z) : k <= k' -> (pow2 k <= pow2 k')%Q.
Proof. intros H. apply Qpower_le_compat_l; [exact H|]. discriminate. Qed.

Lemma pow2_inject (k : Z) : 0 <= k -> (pow2 k == inject_Z (2 ^ k))%Q.
Proof. intros H. unfold pow2. now rewrite (Zpower_Qpower 2 k H). Qed.

(** [exponent q] is the integer part of the binary logarithm of [q]. *)
Lemma exponent_spec (q : Q) :
  (0 < q)%Q -> (pow2 (exponent q) <= q)%Q /\ (q < pow2 (exponent q + 1))%Q.
Proof.
  intros Hq. destruct q as [n d].
  assert (Hn : 0 < n) by (unfold Qlt in Hq; cbn in Hq; lia).
  unfold exponent. cbn [Qnum Qden].
  set (ln := Z.log2 n). set (ld := Z.log2 (Z.pos d)).
  destruct (Z.log2_spec n Hn) as [Hn1 Hn2].
  destruct (Z.log2_spec (Z.pos d) eq_refl) as [Hd1 Hd2].
  fold ln in Hn1, Hn2. fold ld in Hd1, Hd2.
  assert (Hln : 0 <= ln) by apply Z.log2_nonneg.
  assert (Hld : 0 <= ld) by apply Z.log2_nonneg.
  replace (Z.succ ln) with (ln + 1) in Hn2 by lia.
  replace (Z.succ ld) with (ld + 1) in Hd2 by lia.
  (* the facts in Q *)
  assert (Nlo : (pow2 ln <= inject_Z n)%Q)
    by (rewrite pow2_inject by lia; now rewrite <- Zle_Qle).
  assert (Nhi : (inject_Z n < 2 * pow2 ln)%Q)
    by (rewrite <- pow2_succ, pow2_inject by lia; now rewrite <- Zlt_Qlt).
  assert (Dlo : (pow2 ld <= inject_Z (Z.pos d))%Q)
    by (rewrite pow2_inject by lia; now rewrite <- Zle_Qle).
  assert (Dhi : (inject_Z (Z.pos d) < 2 * pow2 ld)%Q)
    by (rewrite <- pow2_succ, pow2_inject by lia; now rewrite <- Zlt_Qlt).
  assert (Hqd : ((n # d) * inject_Z (Z.pos d) == inject_Z n)%Q).
  { rewrite (Qmake_Qdiv n d). field. discriminate. }
  assert (He : (pow2 (ln - ld) * pow2 ld == pow2 ln)%Q).
  { rewrite <- pow2_add. now replace (ln - ld + ld) with ln by lia. }
  pose proof (pow2_pos ln) as Pln. pose proof (pow2_pos ld) as Pld.
  pose proof (pow2_pos (ln - ld)) as Pe.
  assert (Pd : (0 < inject_Z (Z.pos d))%Q) by reflexivity.
  set (E := pow2 (ln - ld)) in *. set (A := pow2 ln) in *.
  set (B := pow2 ld) in *. set (D := inject_Z (Z.pos d)) in *.
  set (N := inject_Z n) in *. set (x := (n # d)%Q) in *.
  assert (Hlow : (E < 2 * x)%Q).
  { apply Qnot_le_lt. intros H.
    assert ((2 * x) * D <= E * D)%Q by (apply Qmult_le_compat_r; lra).
    assert (E * D < E * (2 * B))%Q by (apply Qmult_lt_l; lra).
    lra. }
  assert (Hhigh : (x < 2 * E)%Q).
  { apply Qnot_le_lt. intros H.
    assert ((2 * E) * D <= x * D)%Q by (apply Qmult_le_compat_r; lra).
    assert (E * B <= E * D)%Q by (apply Qmult_le_l; lra).
    lra. }
  destruct (Qle_bool E x) eqn:Hb.
  - apply Qle_bool_iff in Hb. split; [exact Hb|].
    rewrite pow2_succ. exact Hhigh.
  - assert (Hlt : (x < E)%Q).
    { apply Qnot_le_lt. intros H. apply Qle_bool_iff in H. congruence. }
    replace (ln - ld - 1 + 1) with (ln - ld) by lia. split; [|exact Hlt].
    assert (Hhalf : (2 * pow2 (ln - ld - 1) == E)%Q).
    { rewrite <- pow2_succ. unfold E.
      now replace (ln - ld - 1 + 1) with (ln - ld) by lia. }
    lra.
Qed.

Lemma exponent_le (x y : Q) :
  (0 < x)%Q -> (x <= y)%Q -> exponent x <= exponent y.
Proof.
  intros Hx Hxy.
  destruct (exponent_spec x Hx) as [Hx1 Hx2].
  destruct (exponent_spec y) as [Hy1 Hy2]; [lra|].
  destruct (Z_le_gt_dec (exponent x) (exponent y)) as [H|H]; [exact H|].
  assert (pow2 (exponent y + 1) <= pow2 (exponent x))%Q by (apply pow2_le; lia).
  lra.
Qed.

Lemma roundHalfEven_bounds (q : Q) :
  Qfloor q <= roundHalfEven q <= Qfloor q + 1.
Proof.
  unfold roundHalfEven. cbv zeta.
  destruct (Qle_bool _ 1); [destruct (_ && _)|]; lia.
Qed.

Lemma roundHalfEven_mono (x y : Q) :
  (x <= y)%Q -> roundHalfEven x <= roundHalfEven y.
Proof.
  intros Hxy.
  pose proof (Qfloor_resp_le x y Hxy) as Hf.
  pose proof (roundHalfEven_bounds x) as Bx.
  pose proof (roundHalfEven_bounds y) as By.
  destruct (Z.eq_dec (Qfloor x) (Qfloor y)) as [E|NE]; [|lia].
  unfold roundHalfEven. cbv zeta. rewrite E.
  set (f := Qfloor y) in *.
  destruct (Qle_bool (2 * (y - inject_Z f)) 1) eqn:Hy.
  - apply Qle_bool_iff in Hy.
    assert (Hx : Qle_bool (2 * (x - inject_Z f)) 1 = true)
      by (apply Qle_bool_iff; lra).
    rewrite Hx.
    destruct (Qeq_bool (2 * (x - inject_Z f)) 1) eqn:Ex; cbn [andb]; [|
      destruct (Qeq_bool (2 * (y - inject_Z f)) 1 && Z.odd f); lia].
    apply Qeq_bool_iff in Ex.
    assert (Ey : Qeq_bool (2 * (y - inject_Z f)) 1 = true)
      by (apply Qeq_bool_iff; lra).
    rewrite Ey. cbn [andb]. destruct (Z.odd f); lia.
  - destruct (Qle_bool (2 * (x - inject_Z f)) 1);
      [destruct (_ && _)|]; lia.
Qed.

Lemma roundHalfEven_inject (z : Z) : roundHalfEven (inject_Z z) = z.
Proof.
  unfold roundHalfEven. cbv zeta. rewrite Qfloor_Z.
  assert (H0 : (2 * (inject_Z z - inject_Z z) == 0)%Q) by ring.
  assert (Hle : Qle_bool (2 * (inject_Z z - inject_Z z)) 1 = true)
    by (apply Qle_bool_iff; rewrite H0; discriminate).
  assert (Hne : Qeq_bool (2 * (inject_Z z - inject_Z z)) 1 = false).
  { destruct (Qeq_bool _ 1) eqn:E; [|reflexivity].
    apply Qeq_bool_iff in E. rewrite H0 in E. discriminate E. }
  now rewrite Hle, Hne.
Qed.

(** The mantissa of a positive number has 53 bits. *)
Lemma mantissa_range (q : Q) :
  (0 < q)%Q ->
  let unit := pow2 (exponent q - 52) in
  (inject_Z (2 ^ 52) <= q / unit)%Q /\ (q / unit <= inject_Z (2 ^ 53))%Q.
Proof.
  intros Hq. cbv zeta.
  destruct (exponent_spec q Hq) as [H1 H2].
  pose proof (pow2_pos (exponent q - 52)) as Pu.
  assert (He : (pow2 (exponent q) == inject_Z (2 ^ 52) * pow2 (exponent q - 52))%Q).
  { rewrite <- (pow2_inject 52) by lia. rewrite <- pow2_add.
    now replace (52 + (exponent q - 52)) with (exponent q) by lia. }
  assert (He' : (pow2 (exponent q + 1)
                 == inject_Z (2 ^ 53) * pow2 (exponent q - 52))%Q).
  { rewrite <- (pow2_inject 53) by lia. rewrite <- pow2_add.
    now replace (53 + (exponent q - 52)) with (exponent q + 1) by lia. }
  split.
  - apply Qle_shift_div_l; [exact Pu|]. now rewrite <- He.
  - apply Qle_shift_div_r; [exact Pu|]. rewrite <- He'. lra.
Qed.

Lemma roundPositive_bounds (q : Q) :
  (0 < q)%Q ->
  (pow2 (exponent q) <= roundPositive q)%Q
  /\ (roundPositive q <= pow2 (exponent q + 1))%Q.
Proof.
  intros Hq. unfold roundPositive. cbv zeta.
  destruct (mantissa_range q Hq) as [M1 M2]. cbv zeta in M1, M2.
  pose proof (pow2_pos (exponent q - 52)) as Pu.
  apply roundHalfEven_mono in M1. apply roundHalfEven_mono in M2.
  rewrite roundHalfEven_inject in M1, M2.
  assert (He : (pow2 (exponent q) == inject_Z (2 ^ 52) * pow2 (exponent q - 52))%Q).
  { rewrite <- (pow2_inject 52) by lia. rewrite <- pow2_add.
    now replace (52 + (exponent q - 52)) with (exponent q) by lia. }
  assert (He' : (pow2 (exponent q + 1)
                 == inject_Z (2 ^ 53) * pow2 (exponent q - 52))%Q).
  { rewrite <- (pow2_inject 53) by lia. rewrite <- pow2_add.
    now replace (53 + (exponent q - 52)) with (exponent q + 1) by lia. }
  rewrite He, He'. split.
  - apply Qmult_le_compat_r; [now rewrite <- Zle_Qle | lra].
  - apply Qmult_le_compat_r; [now rewrite <- Zle_Qle | lra].
Qed.

Lemma roundPositive_mono (x y : Q) :
  (0 < x)%Q -> (x <= y)%Q -> (roundPositive x <= roundPositive y)%Q.
Proof.
  intros Hx Hxy.
  assert (Hy : (0 < y)%Q) by lra.
  pose proof (exponent_le x y Hx Hxy) as He.
  destruct (Z.eq_dec (exponent x) (exponent y)) as [E|NE].
  - unfold roundPositive. cbv zeta. rewrite E.
    pose proof (pow2_pos (exponent y - 52)) as Pu.
    apply Qmult_le_compat_r; [|lra].
    rewrite <- Zle_Qle. apply roundHalfEven_mono.
    apply Qmult_le_compat_r; [exact Hxy|].
    apply Qlt_le_weak, Qinv_lt_0_compat, Pu.
  - destruct (roundPositive_bounds x Hx) as [_ Bx].
    destruct (roundPositive_bounds y Hy) as [By _].
    assert (pow2 (exponent x + 1) <= pow2 (exponent y))%Q
      by (apply pow2_le; lia).
    lra.
Qed.

Lemma roundPositive_pos (q : Q) : (0 < q)%Q -> (0 < roundPositive q)%Q.
Proof.
  intros Hq. destruct (roundPositive_bounds q Hq) as [B _].
  pose proof (pow2_pos (exponent q)). lra.
Qed.

Lemma round_zero (q : Q) : (q == 0)%Q -> round q = 0%Q.
Proof.
  intros H. unfold round.
  assert (Qle_bool q 0 = true) as -> by (apply Qle_bool_iff; lra).
  assert (Qeq_bool q 0 = true) as -> by (now apply Qeq_bool_iff).
  reflexivity.
Qed.

Lemma round_positive (q : Q) : (0 < q)%Q -> round q = roundPositive q.
Proof.
  intros H. unfold round.
  destruct (Qle_bool q 0) eqn:E; [|reflexivity].
  apply Qle_bool_iff in E. lra.
Qed.

Lemma round_nonneg (q : Q) : (0 <= q)%Q -> (0 <= round q)%Q.
Proof.
  intros H. destruct (Qlt_le_dec 0 q) as [Hpos|Hle].
  - rewrite round_positive by exact Hpos.
    apply Qlt_le_weak. now apply roundPositive_pos.
  - rewrite round_zero by lra. lra.
Qed.

(** Rounding to nearest is monotone (on the numbers that are not negative). *)
Lemma round_mono (x y : Q) :
  (0 <= x)%Q -> (x <= y)%Q -> (round x <= round y)%Q.
Proof.
  intros Hx Hxy. destruct (Qlt_le_dec 0 x) as [Hpos|Hle].
  - rewrite !round_positive by lra. now apply roundPositive_mono.
  - rewrite (round_zero x) by lra. apply round_nonneg. lra.
Qed.

Lemma pow2_lt_inv (k k' : Z) : (pow2 k < pow2 k')%Q -> k < k'.
Proof. intros H. apply (Qpower_lt_compat_l_inv 2); [exact H | reflexivity]. Qed.

Lemma exponent_unique (q : Q) (e : Z) :
  (0 < q)%Q -> (pow2 e <= q)%Q -> (q < pow2 (e + 1))%Q -> exponent q = e.
Proof.
  intros Hq H1 H2. destruct (exponent_spec q Hq) as [S1 S2].
  assert (exponent q < e + 1) by (apply pow2_lt_inv; lra).
  assert (e < exponent q + 1) by (apply pow2_lt_inv; lra).
  lia.
Qed.

Lemma roundHalfEven_comp (x y : Q) :
  (x == y)%Q -> roundHalfEven x = roundHalfEven y.
Proof.
  intros H. apply Z.le_antisymm; apply roundHalfEven_mono; lra.
Qed.

Lemma roundPositive_double (x : Q) :
  (0 < x)%Q -> (roundPositive (2 * x) == 2 * roundPositive x)%Q.
Proof.
  intros Hx. destruct (exponent_spec x Hx) as [S1 S2].
  assert (He : exponent (2 * x) = exponent x + 1).
  { apply exponent_unique; [lra| |].
    - rewrite pow2_succ. lra.
    - rewrite (pow2_succ (exponent x + 1)). lra. }
  unfold roundPositive. cbv zeta. rewrite He.
  replace (exponent x + 1 - 52) with (exponent x - 52 + 1) by lia.
  pose proof (pow2_pos (exponent x - 52)) as Pu.
  pose proof (pow2_succ (exponent x - 52)) as Hu.
  set (u := pow2 (exponent x - 52)) in *.
  set (u2 := pow2 (exponent x - 52 + 1)) in *.
  assert (Hm : roundHalfEven (2 * x / u2) = roundHalfEven (x / u)).
  { apply roundHalfEven_comp. rewrite Hu. field. lra. }
  rewrite Hm, Hu. ring.
Qed.

Lemma round_comp (x y : Q) :
  (0 <= x)%Q -> (x == y)%Q -> (round x == round y)%Q.
Proof.
  intros Hx H. apply Qle_antisym; apply round_mono; lra.
Qed.

(** Doubling commutes with rounding. *)
Lemma round_double (x : Q) :
  (0 <= x)%Q -> (round (2 * x) == 2 * round x)%Q.
Proof.
  intros Hx. destruct (Qlt_le_dec 0 x) as [Hpos|Hle].
  - rewrite !round_positive by lra. now apply roundPositive_double.
  - rewrite (round_zero x) by lra. rewrite (round_zero (2 * x)) by lra.
    reflexivity.
Qed.

End Rounding64.

(** X5.  For a fixed model id that is not a name inherited from
    [Object.prototype] the cost grows with each of the two token counts and
    is not negative for counts that are not negative: of the exact value of
    the formula, and of the value the source computes in binary64 for
    counts below 2^53, which is 0 for no tokens and doubles when both
    counts are doubled.  (The sum of two costs is not the cost of the sums
    in binary64, see [calculateCost_binary64_not_additive].) *)
Theorem calculateCost_monotone (a b a' b' : Z) (modelId : string) :
  ObjectPrototype.isInherited modelId = false ->
  (a <= a' -> b <= b' ->
   (calculateCost a b modelId <= calculateCost a' b' modelId)%Q)
  /\ (0 <= a -> 0 <= b -> (0 <= calculateCost a b modelId)%Q)
  /\ (0 <= a <= a' -> a' < 2 ^ 53 -> 0 <= b <= b' -> b' < 2 ^ 53 ->
      (Doubles.calculateCost a b modelId
       <= Doubles.calculateCost a' b' modelId)%Q
      /\ (0 <= Doubles.calculateCost a b modelId)%Q)
  /\ Doubles.calculateCost 0 0 modelId = 0%Q
  /\ (0 <= a -> 2 * a < 2 ^ 53 -> 0 <= b -> 2 * b < 2 ^ 53 ->
      (Doubles.calculateCost (2 * a) (2 * b) modelId
       == 2 * Doubles.calculateCost a b modelId)%Q).
Proof.
  intros _.
  destruct (profile_costs_nonneg modelId) as [Hi Ho].
  split; [|split; [|split; [|split]]].
  - unfold calculateCost. cbv zeta. rewrite getModelConfig_profile.
    intros Ha Hb. apply Qplus_le_compat; apply scaled_le; trivial;
      now rewrite <- Zle_Qle.
  - unfold calculateCost. cbv zeta. rewrite getModelConfig_profile.
    intros Ha Hb.
    setoid_replace 0%Q
      with (inject_Z 0 / 1000 * costPer1kInput (Spec.profile modelId)
            + inject_Z 0 / 1000 * costPer1kOutput (Spec.profile modelId))%Q
      by (unfold Qdiv; rewrite !Qmult_0_l; reflexivity).
    apply Qplus_le_compat; apply scaled_le; trivial; now rewrite <- Zle_Qle.
  - intros Ha _ Hb _. unfold Doubles.calculateCost. cbv zeta.
    rewrite getModelConfig_profile.
    pose proof (round_nonneg _ Hi) as Pi. pose proof (round_nonneg _ Ho) as Po.
    assert (Qa : (0 <= inject_Z a / 1000)%Q /\
                 (inject_Z a / 1000 <= inject_Z a' / 1000)%Q).
    { split.
      - apply Qle_shift_div_l; [reflexivity|]. rewrite Qmult_0_l.
        change 0%Q with (inject_Z 0). rewrite <- Zle_Qle. lia.
      - unfold Qdiv. apply Qmult_le_compat_r; [|discriminate].
        rewrite <- Zle_Qle. lia. }
    assert (Qb : (0 <= inject_Z b / 1000)%Q /\
                 (inject_Z b / 1000 <= inject_Z b' / 1000)%Q).
    { split.
      - apply Qle_shift_div_l; [reflexivity|]. rewrite Qmult_0_l.
        change 0%Q with (inject_Z 0). rewrite <- Zle_Qle. lia.
      - unfold Qdiv. apply Qmult_le_compat_r; [|discriminate].
        rewrite <- Zle_Qle. lia. }
    destruct Qa as [Qa0 Qa]. destruct Qb as [Qb0 Qb].
    pose proof (round_nonneg _ Qa0) as Ra0.
    pose proof (round_nonneg _ Qb0) as Rb0.
    pose proof (round_mono _ _ Qa0 Qa) as Ra.
    pose proof (round_mono _ _ Qb0 Qb) as Rb.
    set (pin := Doubles.round (costPer1kInput (Spec.profile modelId))) in *.
    set (pout := Doubles.round (costPer1kOutput (Spec.profile modelId))) in *.
    set (ia := Doubles.round (inject_Z a / 1000)) in *.
    set (ia' := Doubles.round (inject_Z a' / 1000)) in *.
    set (ib := Doubles.round (inject_Z b / 1000)) in *.
    set (ib' := Doubles.round (inject_Z b' / 1000)) in *.
    assert (Ia0 : (0 <= ia * pin)%Q) by (apply Qmult_le_0_compat; assumption).
    assert (Ib0 : (0 <= ib * pout)%Q) by (apply Qmult_le_0_compat; assumption).
    assert (Ia : (ia * pin <= ia' * pin)%Q)
      by (apply Qmult_le_compat_r; assumption).
    assert (Ib : (ib * pout <= ib' * pout)%Q)
      by (apply Qmult_le_compat_r; assumption).
    pose proof (round_nonneg _ Ia0) as Ca0.
    pose proof (round_nonneg _ Ib0) as Cb0.
    pose proof (round_mono _ _ Ia0 Ia) as Ca.
    pose proof (round_mono _ _ Ib0 Ib) as Cb.
    split.
    + apply round_mono; lra.
    + apply round_nonneg. lra.
  - unfold Doubles.calculateCost. cbv zeta.
    assert (Hz : Doubles.round (inject_Z 0 / 1000) = 0%Q) by reflexivity.
    rewrite Hz.
    rewrite (round_zero (0 * Doubles.round (costPer1kInput (getModelConfig modelId))))
      by apply Qmult_0_l.
    rewrite (round_zero (0 * Doubles.round (costPer1kOutput (getModelConfig modelId))))
      by apply Qmult_0_l.
    reflexivity.
  - intros Ha _ Hb _. unfold Doubles.calculateCost. cbv zeta.
    rewrite getModelConfig_profile.
    pose proof (round_nonneg _ Hi) as Pi. pose proof (round_nonneg _ Ho) as Po.
    set (pin := Doubles.round (costPer1kInput (Spec.profile modelId))) in *.
    set (pout := Doubles.round (costPer1kOutput (Spec.profile modelId))) in *.
    assert (Hhalf : forall (n : Z) (price : Q),
               0 <= n -> (0 <= price)%Q ->
               (0 <= Doubles.round (Doubles.round (inject_Z n / 1000) * price))%Q
               /\ (Doubles.round (Doubles.round (inject_Z (2 * n) / 1000) * price)
                   == 2 * Doubles.round (Doubles.round (inject_Z n / 1000) * price))%Q).
    { intros n price Hn Hprice.
      assert (Qn : (0 <= inject_Z n / 1000)%Q).
      { apply Qle_shift_div_l; [reflexivity|]. rewrite Qmult_0_l.
        change 0%Q with (inject_Z 0). rewrite <- Zle_Qle. lia. }
      pose proof (round_nonneg _ Qn) as Rn.
      assert (E1 : (Doubles.round (inject_Z (2 * n) / 1000)
                    == 2 * Doubles.round (inject_Z n / 1000))%Q).
      { rewrite <- round_double by exact Qn.
        apply round_comp.
        - apply Qle_shift_div_l; [reflexivity|]. rewrite Qmult_0_l.
          change 0%Q with (inject_Z 0). rewrite <- Zle_Qle. lia.
        - rewrite inject_Z_mult. change (inject_Z 2) with 2%Q. field. }
      assert (P0 : (0 <= Doubles.round (inject_Z n / 1000) * price)%Q)
        by (apply Qmult_le_0_compat; assumption).
      split; [now apply round_nonneg|].
      rewrite <- round_double by exact P0.
      apply round_comp.
      - rewrite E1. lra.
      - rewrite E1. ring. }
    destruct (Hhalf a pin Ha Pi) as [Ia0 Ia].
    destruct (Hhalf b pout Hb Po) as [Ib0 Ib].
    rewrite <- round_double by lra.
    apply round_comp; [|rewrite Ia, Ib; ring].
    rewrite Ia, Ib. lra.
Qed.

Lemma calculateCost_monotone_witness :
  ObjectPrototype.isInherited "gpt-4o" = false
  /\ 4 <= 10 /\ 0 <= 7
  /\ (calculateCost 4 0 "gpt-4o" <= calculateCost 10 7 "gpt-4o")%Q
  /\ (Doubles.calculateCost 4 0 "gpt-4o"
      <= Doubles.calculateCost 10 7 "gpt-4o")%Q.
Proof.
  split; [reflexivity|]. split; [lia|]. split; [lia|].
  destruct (calculateCost_monotone 4 0 10 7 "gpt-4o" eq_refl)
    as (Hexact & _ & Hdoubles & _).
  split; [apply Hexact; lia|].
  apply Hdoubles; lia.
Defined.

(** In binary64 the cost of 3 input tokens under gpt-4 is
    8.999999999999999e-05 and the sum of the costs of 1 and of 2 tokens is
    9e-05, one unit in the last place more; the exact costs are equal. *)
Lemma calculateCost_binary64_not_additive :
  Qred (Doubles.calculateCost 3 0 "gpt-4")
  = (3320413933267719 # 36893488147419103232)%Q
  /\ Qred (Doubles.round (Doubles.calculateCost 1 0 "gpt-4"
                          + Doubles.calculateCost 2 0 "gpt-4"))
     = (6640827866535439 # 73786976294838206464)%Q
  /\ (Doubles.calculateCost 3 0 "gpt-4"
      < Doubles.round (Doubles.calculateCost 1 0 "gpt-4"
                       + Doubles.calculateCost 2 0 "gpt-4"))%Q
  /\ (calculateCost 3 0 "gpt-4"
      == calculateCost 1 0 "gpt-4" + calculateCost 2 0 "gpt-4")%Q
  /\ Qred (Doubles.round (3 # 100)) = (1080863910568919 # 36028797018963968)%Q.
Proof.
  split; [vm_compute; reflexivity|]. split; [vm_compute; reflexivity|].
  split; [vm_compute; reflexivity|]. split; [vm_compute; reflexivity|].
  vm_compute; reflexivity.
Qed.

(** X6.  Whatever the text, [detectModel] answers with one of the four keys
    of the pricing table, so the profile looked up for its answer is that
    model's own and never the fallback for an unknown id. *)
Theorem detectModel_known_model (text : string) :
  exists detected : string,
    detectModel (JStr text) = Normal detected
    /\ In detected ["gpt-4o"; "gpt-4-turbo"; "gpt-4"; "gpt-3.5-turbo"]
    /\ assoc detected modelConfigs = Some (getModelConfig detected).
Proof.
  unfold detectModel. cbn [stringReceiver bind].
  repeat match goal with
         | |- context [if ?b then _ else _] => destruct b
         end;
    eexists; (split; [reflexivity|]); (split; [cbn; tauto | reflexivity]).
Qed.

(** ** More on the conversation accumulator *)

Section Batches.

Lemma step_setTotalCost (conv : Conversation) (q : Q) (f : bool) (m : Message) :
  Spec.step (setTotalCost conv q, f) m
  = (setTotalCost (fst (Spec.step (conv, f) m)) q,
     snd (Spec.step (conv, f) m)).
Proof.
  unfold Spec.step, Spec.recorded. cbn [fst messages setTotalCost].
  destruct (existsb (sameMessage m) (messages conv)); [reflexivity|].
  cbn [fst snd]. f_equal.
  unfold Spec.recordMessage. cbv zeta. cbn [model messages setTotalCost setMessages].
  destruct (role m =? "user")%string; [reflexivity|].
  destruct (role m =? "assistant")%string; reflexivity.
Qed.

(** The cost field plays no part in the loop. *)
Lemma fold_step_setTotalCost (batch : list Message) (conv : Conversation)
  (q : Q) (f : bool) :
  fold_left Spec.step batch (setTotalCost conv q, f)
  = (setTotalCost (fst (fold_left Spec.step batch (conv, f))) q,
     snd (fold_left Spec.step batch (conv, f))).
Proof.
  revert conv f. induction batch as [|m batch IH]; intros conv f; [reflexivity|].
  cbn [fold_left]. rewrite step_setTotalCost.
  destruct (Spec.step (conv, f) m) as [c g]. cbn [fst snd]. apply IH.
Qed.

(** The flag the loop starts with is only or-ed into the result. *)
Lemma fold_step_flag_or (batch : list Message) (conv : Conversation) (f : bool) :
  fold_left Spec.step batch (conv, f)
  = (fst (fold_left Spec.step batch (conv, false)),
     f || snd (fold_left Spec.step batch (conv, false))).
Proof.
  revert conv f. induction batch as [|m batch IH]; intros conv f.
  - cbn. now rewrite orb_false_r.
  - cbn [fold_left]. unfold Spec.step at 2 4 6. cbn [fst].
    destruct (Spec.recorded m conv).
    + apply IH.
    + pose proof (fold_step_flag batch (Spec.recordMessage conv m)) as F.
      destruct (fold_left Spec.step batch (Spec.recordMessage conv m, true))
        as [c g].
      cbn [fst snd] in *. subst g. now rewrite orb_true_r.
Qed.

Lemma setTotalCost_twice (conv : Conversation) (p q : Q) :
  setTotalCost (setTotalCost conv p) q = setTotalCost conv q.
Proof. reflexivity. Qed.

(** A message that is recorded stays recorded through the loop. *)
Lemma fold_step_recorded (batch : list Message) (conv : Conversation)
  (f : bool) (m : Message) :
  Spec.recorded m conv = true ->
  Spec.recorded m (fst (fold_left Spec.step batch (conv, f))) = true.
Proof.
  revert conv f. induction batch as [|x batch IH]; intros conv f H; [exact H|].
  cbn [fold_left]. unfold Spec.step at 2. cbn [fst].
  destruct (Spec.recorded x conv); [now apply IH|].
  apply IH. unfold Spec.recorded in *.
  rewrite recordMessage_messages, existsb_app, H. reflexivity.
Qed.

(** After the loop every candidate of the batch is recorded. *)
Lemma fold_step_all_recorded (batch : list Message) (conv : Conversation)
  (f : bool) (m : Message) :
  In m batch ->
  Spec.recorded m (fst (fold_left Spec.step batch (conv, f))) = true.
Proof.
  revert conv f. induction batch as [|x batch IH]; intros conv f Hin;
    [contradiction|].
  cbn [fold_left]. destruct Hin as [->|Hin].
  2: { destruct (Spec.step (conv, f) x) as [c g]. now apply IH. }
  destruct (Spec.step (conv, f) m) as [c g] eqn:Es.
  apply fold_step_recorded. change c with (fst (c, g)). rewrite <- Es.
  unfold Spec.step. cbn [fst].
  destruct (Spec.recorded m conv) eqn:E; cbn [fst]; [exact E|].
  unfold Spec.recorded.
  rewrite recordMessage_messages, existsb_app. cbn [existsb].
  now rewrite sameMessage_refl, orb_true_r.
Qed.

(** A batch of recorded candidates leaves the state of the loop alone. *)
Lemma fold_step_nothing_new (batch : list Message) (conv : Conversation)
  (f : bool) :
  (forall m : Message, In m batch -> Spec.recorded m conv = true) ->
  fold_left Spec.step batch (conv, f) = (conv, f).
Proof.
  revert conv f. induction batch as [|x batch IH]; intros conv f H; [reflexivity|].
  cbn [fold_left]. unfold Spec.step at 2. cbn [fst].
  rewrite (H x (or_introl eq_refl)). apply IH.
  intros m Hm. apply H. now right.
Qed.

End Batches.

(** X7.  One call of [processMessages] on a batch leaves the conversation
    that two calls leave on the two halves of the batch, one after the
    other, and reports a change exactly when one of the two does. *)
Theorem processMessages_split_batch (conv : Conversation)
  (first second : list Message) :
  processMessages conv (first ++ second)
  = (r1 <- processMessages conv first ;;
     r2 <- processMessages (fst r1) second ;;
     Normal (fst r2, snd r1 || snd r2)).
Proof.
  rewrite !processMessages_fold. cbn [bind]. rewrite processMessages_fold.
  rewrite fold_left_app.
  destruct (fold_left Spec.step first (conv, false)) as [c1 f1] eqn:E1.
  rewrite (fold_step_flag_or second c1 f1).
  destruct f1; cbn [fst snd orb].
  - rewrite fold_step_setTotalCost.
    destruct (fold_left Spec.step second (c1, false)) as [c2 f2] eqn:E2.
    cbn [fst snd]. destruct f2.
    + reflexivity.
    + apply fold_step_unchanged in E2. subst c2. reflexivity.
  - destruct (fold_left Spec.step second (c1, false)) as [c2 [|]];
      reflexivity.
Qed.

(** X8.  Ingesting is idempotent: a second call of [processMessages] with
    the batch of the first call reports no change and returns the
    conversation as it is. *)
Theorem processMessages_idempotent (conv : Conversation) (batch : list Message) :
  exists (conv' : Conversation) (changed : bool),
    processMessages conv batch = Normal (conv', changed)
    /\ processMessages conv' batch = Normal (conv', false).
Proof.
  rewrite processMessages_fold.
  pose proof (fun m => fold_step_all_recorded batch conv false m) as Hall.
  destruct (fold_left Spec.step batch (conv, false)) as [c f].
  cbn [fst] in Hall.
  assert (Hc : forall q, processMessages (setTotalCost c q) batch
                         = Normal (setTotalCost c q, false)).
  { intros q. rewrite processMessages_fold.
    rewrite fold_step_nothing_new; [reflexivity|].
    intros m Hm. exact (Hall m Hm). }
  destruct f.
  - do 2 eexists. split; [reflexivity|]. apply Hc.
  - do 2 eexists. split; [reflexivity|].
    rewrite processMessages_fold.
    rewrite fold_step_nothing_new; [reflexivity | exact Hall].
Qed.

Section Keys.




(** With distinct keys, a message of the front part has no match in the
    rest. *)
Lemma distinctKeys_front (front rest : list Message) (m : Message) :
  distinctKeys (front ++ rest) = true ->
  In m front ->
  existsb (sameMessage m) rest = false.
Proof.
  induction front as [|x front IH]; intros Hd Hin; [contradiction|].
  cbn [app distinctKeys] in Hd. apply andb_true_iff in Hd.
  destruct Hd as [Hx Hd]. destruct Hin as [->|Hin]; [|now apply IH].
  apply negb_true_iff in Hx. rewrite existsb_app in Hx.
  now apply orb_false_iff in Hx.
Qed.




End Keys.



(** X10.  A memory cleanup makes the tracker forget what it counted: when
    more than 100 messages with distinct keys are recorded (under a model
    id that is not a name inherited from [Object.prototype]), every message
    that the cleanup drops is taken for new when it is observed again, and
    its tokens are added to the total of its role a second time. *)
Theorem cleanup_then_recount (conv : Conversation) (m : Message) :
  ObjectPrototype.isInherited (model conv) = false ->
  (100 < List.length (messages conv))%nat ->
  distinctKeys (messages conv) = true ->
  In m (firstn (List.length (messages conv) - 50) (messages conv)) ->
  Spec.recorded m conv = true
  /\ exists conv' : Conversation,
       processMessages (performMemoryCleanup conv) [m] = Normal (conv', true)
       /\ totalInputTokens conv'
          = totalInputTokens conv
            + (if (role m =? "user")%string
               then Spec.tokensOf (model conv) m else 0)
       /\ totalOutputTokens conv'
          = totalOutputTokens conv
            + (if (role m =? "assistant")%string
               then Spec.tokensOf (model conv) m else 0).
Proof.
  intros _ Hlen Hd Hin. split.
  - unfold Spec.recorded.
    rewrite <- (firstn_skipn (List.length (messages conv) - 50) (messages conv)).
    rewrite existsb_app. apply orb_true_iff. left.
    apply existsb_exists. exists m. split; [exact Hin | apply sameMessage_refl].
  - assert (Hnew : Spec.recorded m (performMemoryCleanup conv) = false).
    { unfold Spec.recorded, performMemoryCleanup.
      apply Nat.ltb_lt in Hlen. rewrite Hlen. cbn [messages setMessages].
      unfold sliceLast.
      apply distinctKeys_front
        with (front := firstn (List.length (messages conv) - 50) (messages conv));
        [|exact Hin].
      now rewrite firstn_skipn. }
    rewrite processMessages_fold. cbn [fold_left].
    unfold Spec.step. cbn [fst]. rewrite Hnew.
    eexists. split; [reflexivity|].
    cbn [totalInputTokens totalOutputTokens setTotalCost].
    rewrite recordMessage_input, recordMessage_output.
    destruct (performMemoryCleanup_keeps conv) as (Hm & Hi & Ho & _).
    cbv zeta in Hm, Hi, Ho. now rewrite Hm, Hi, Ho.
Qed.

Lemma cleanup_then_recount_witness :
  ObjectPrototype.isInherited (model busyConversation) = false
  /\ (100 < List.length (messages busyConversation))%nat
  /\ distinctKeys (messages busyConversation) = true
  /\ In (userMessage 0)
       (firstn (List.length (messages busyConversation) - 50)
          (messages busyConversation))
  /\ exists conv' : Conversation,
       processMessages (performMemoryCleanup busyConversation) [userMessage 0]
       = Normal (conv', true)
       /\ totalInputTokens conv' = totalInputTokens busyConversation + 2.
Proof.
  assert (H1 : (100 < List.length (messages busyConversation))%nat)
    by (vm_compute; lia).
  assert (H2 : distinctKeys (messages busyConversation) = true)
    by (vm_compute; reflexivity).
  assert (H3 : In (userMessage 0)
                 (firstn (List.length (messages busyConversation) - 50)
                    (messages busyConversation)))
    by (vm_compute; left; reflexivity).
  split; [reflexivity|].
  split; [exact H1|]. split; [exact H2|]. split; [exact H3|].
  destruct (cleanup_then_recount busyConversation (userMessage 0)
              eq_refl H1 H2 H3)
    as (_ & conv' & Hrun & Hin & _).
  exists conv'. split; [exact Hrun|]. rewrite Hin. reflexivity.
Defined.

(** X11.  After [performMemoryCleanup] at most 100 messages are recorded,
    they are the last messages of the sequence it was given, in order, and a
    second cleanup changes nothing. *)
Theorem performMemoryCleanup_bounds (conv : Conversation) :
  (List.length (messages (performMemoryCleanup conv)) <= 100)%nat
  /\ (exists dropped : list Message,
        messages conv = (dropped ++ messages (performMemoryCleanup conv))%list)
  /\ performMemoryCleanup (performMemoryCleanup conv) = performMemoryCleanup conv.
Proof.
  unfold performMemoryCleanup.
  destruct (100 <? List.length (messages conv))%nat eqn:E.
  - apply Nat.ltb_lt in E. cbn [messages setMessages]. unfold sliceLast.
    assert (Hl : List.length (skipn (List.length (messages conv) - 50)
                                (messages conv)) = 50%nat)
      by (rewrite length_skipn; lia).
    split; [lia|]. split.
    + exists (firstn (List.length (messages conv) - 50) (messages conv)).
      now rewrite firstn_skipn.
    + rewrite Hl. reflexivity.
  - apply Nat.ltb_ge in E. split; [exact E|]. split.
    + now exists [].
    + now rewrite (proj2 (Nat.ltb_ge _ _) E).
Qed.

Section Totals.

Lemma recordMessage_totals_grow (conv : Conversation) (m : Message) :
  totalInputTokens conv <= totalInputTokens (Spec.recordMessage conv m)
  /\ totalOutputTokens conv <= totalOutputTokens (Spec.recordMessage conv m).
Proof.
  rewrite recordMessage_input, recordMessage_output.
  pose proof (tokensOf_nonneg (model conv) m).
  destruct (role m =? "user")%string, (role m =? "assistant")%string; lia.
Qed.

Lemma fold_step_totals_grow (batch : list Message) (conv : Conversation)
  (f : bool) :
  totalInputTokens conv
  <= totalInputTokens (fst (fold_left Spec.step batch (conv, f)))
  /\ totalOutputTokens conv
     <= totalOutputTokens (fst (fold_left Spec.step batch (conv, f))).
Proof.
  revert conv f. induction batch as [|m batch IH]; intros conv f; [cbn; lia|].
  cbn [fold_left]. unfold Spec.step at 2 4. cbn [fst].
  destruct (Spec.recorded m conv); [apply IH|].
  pose proof (recordMessage_totals_grow conv m).
  pose proof (IH (Spec.recordMessage conv m) true). lia.
Qed.

End Totals.

(** X12.  No operation on an open conversation whose model id is not a name
    inherited from [Object.prototype] lowers a cumulative count:
    after an ingest or a memory cleanup the input and the output totals are
    at least what they were, and the model is the same. *)
Theorem totals_never_decrease (conv : Conversation) (op : Spec.Operation) :
  ObjectPrototype.isInherited (model conv) = false ->
  exists conv' : Conversation,
    Spec.applyOperation conv op = Normal conv'
    /\ totalInputTokens conv <= totalInputTokens conv'
    /\ totalOutputTokens conv <= totalOutputTokens conv'
    /\ model conv' = model conv.
Proof.
  intros _.
  destruct op as [batch|]; cbn [Spec.applyOperation].
  - rewrite processMessages_fold. cbn [bind].
    pose proof (fold_step_totals_grow batch conv false) as Ht.
    destruct (fold_step_keeps batch conv false) as (Hm & _).
    destruct (fold_left Spec.step batch (conv, false)) as [c [|]];
      cbn [fst] in *; eexists; (split; [reflexivity|]);
      cbn [totalInputTokens totalOutputTokens model setTotalCost];
      (split; [apply Ht|]); (split; [apply Ht | exact Hm]).
  - eexists. split; [reflexivity|].
    destruct (performMemoryCleanup_keeps conv) as (Hm & Hi & Ho & _).
    cbv zeta in Hm, Hi, Ho. rewrite Hi, Ho. repeat split; try lia. exact Hm.
Qed.

Lemma totals_never_decrease_witness :
  ObjectPrototype.isInherited (model emptyConversation) = false
  /\ exists conv' : Conversation,
       processMessages emptyConversation [helloMessage] = Normal (conv', true)
       /\ totalInputTokens emptyConversation <= totalInputTokens conv'.
Proof.
  split; [reflexivity|].
  destruct (totals_never_decrease emptyConversation
              (Spec.Ingest [helloMessage]) eq_refl)
    as (conv' & Hrun & Hin & _).
  exists conv'. split; [|exact Hin].
  cbn [Spec.applyOperation] in Hrun.
  destruct (processMessages emptyConversation [helloMessage])
    as [[c flag]|e] eqn:E; [|discriminate Hrun].
  cbn [bind] in Hrun. injection Hrun as <-.
  vm_compute in E. injection E as <- <-. reflexivity.
Defined.

(** ** More on conversation boundaries *)

Section History.

Lemma length_shift_cap (A : Type) (l : list A) (x : A) :
  let pushed := (l ++ [x])%list in
  List.length (if (100 <? List.length pushed)%nat
               then skipn (List.length pushed - 100) pushed else pushed)
  = Nat.min (S (List.length l)) 100.
Proof.
  cbv zeta. rewrite length_app. cbn [List.length].
  destruct (100 <? List.length l + 1)%nat eqn:E.
  - apply Nat.ltb_lt in E. rewrite length_skipn, length_app. cbn [List.length]. lia.
  - apply Nat.ltb_ge in E. rewrite length_app. cbn [List.length]. lia.
Qed.

End History.

(** X13.  The history never grows past 100 entries: when a suspended
    [saveConversationToHistory] is resumed on a history of [n] entries, the
    history has min(n + 1, 100) entries afterwards, they are the last ones
    of the old history followed by the new entry, and the new entry carries
    the clock reading as its end time. *)
Theorem history_capped (now : Z) (t : Tracker) :
  let t' := resume now SaveConversationToHistory_afterGet t in
  let entry := {| closed := currentConversation t; endTime := now |} in
  List.length (conversationsHistory t')
  = Nat.min (S (List.length (conversationsHistory t))) 100
  /\ (exists evicted : list HistoryEntry,
        (conversationsHistory t ++ [entry])%list
        = (evicted ++ conversationsHistory t')%list)
  /\ last (conversationsHistory t') entry = entry
  /\ currentConversation t' = currentConversation t.
Proof.
  cbv zeta. cbn [resume conversationsHistory currentConversation].
  split; [apply length_shift_cap|]. split; [|split; [|reflexivity]].
  - destruct (100 <? _)%nat.
    + eexists. symmetry. apply firstn_skipn.
    + now exists [].
  - destruct (100 <? _)%nat eqn:E.
    + apply Nat.ltb_lt in E. rewrite length_app in *. cbn [List.length] in *.
      replace (List.length (conversationsHistory t) + 1 - 100)%nat
        with (List.length (conversationsHistory t) - 99)%nat by lia.
      rewrite skipn_app.
      replace (List.length (conversationsHistory t) - 99
               - List.length (conversationsHistory t))%nat with 0%nat by lia.
      cbn [skipn]. apply last_last.
    + apply last_last.
Qed.

(** X14.  Boundary detection settles: when [detectNewConversation] has run
    on a page, a second run on the same page starts no further conversation
    and leaves the tracker as it is. *)
Theorem detectNewConversation_settles (page : Page) (t t' : Tracker) :
  detectNewConversation page t = Normal t' ->
  detectNewConversation page t' = Normal t'.
Proof.
  unfold detectNewConversation.
  set (observed := option_map string_of_list_ascii
                     (matchConversationUrl (chars (href page)))).
  destruct (boundary (currentConversation t) observed) as [arg|] eqn:Hb.
  - intros Hstart.
    destruct (startNewConversation_fresh arg page t t' Hstart)
      as (_ & Hid & _).
    assert (Hnone : boundary (currentConversation t') observed = None).
    { unfold boundary in *. rewrite Hid.
      destruct observed as [captured|].
      - destruct (differsFrom captured (urlId (currentConversation t)));
          [|discriminate].
        injection Hb as <-. cbn [differsFrom].
        now rewrite String.eqb_refl.
      - destruct (hasUrlId (urlId (currentConversation t))); [|discriminate].
        injection Hb as <-. reflexivity. }
    now rewrite Hnone.
  - intros [= <-]. now rewrite Hb.
Qed.

Lemma detectNewConversation_settles_witness :
  exists t' : Tracker,
    detectNewConversation xyzPage abcTracker = Normal t'
    /\ detectNewConversation xyzPage t' = Normal t'.
Proof.
  destruct (detectNewConversation xyzPage abcTracker) as [t'|e] eqn:E;
    [|vm_compute in E; discriminate E].
  exists t'. split; [reflexivity|].
  exact (detectNewConversation_settles xyzPage abcTracker t' E).
Defined.

Section UrlMatch.

Lemma takeWhile_split {A : Type} (p : A -> bool) (l : list A) :
  l = (takeWhile p l ++ skipn (List.length (takeWhile p l)) l)%list
  /\ forallb p (takeWhile p l) = true
  /\ match skipn (List.length (takeWhile p l)) l with
     | [] => True
     | a :: _ => p a = false
     end.
Proof.
  induction l as [|a l (IH1 & IH2 & IH3)]; [repeat split|].
  cbn [takeWhile]. destruct (p a) eqn:Ha.
  - cbn [List.length skipn app forallb]. rewrite Ha, IH2.
    repeat split; [now f_equal | exact IH3].
  - cbn. repeat split. exact Ha.
Qed.

Lemma startsWith_split (sub s : list ascii) :
  startsWith sub s = true -> s = (sub ++ skipn (List.length sub) s)%list.
Proof.
  revert s. induction sub as [|a sub IH]; intros s H; [reflexivity|].
  destruct s as [|b s]; [discriminate|].
  cbn [startsWith] in H. apply andb_true_iff in H. destruct H as [Hab H].
  apply Ascii.eqb_eq in Hab. subst b.
  cbn [app List.length skipn]. f_equal. now apply IH.
Qed.

Lemma startsWith_app_same (sub rest : list ascii) :
  startsWith sub (sub ++ rest) = true.
Proof.
  induction sub as [|a sub IH]; [reflexivity|].
  cbn [app startsWith]. now rewrite Ascii.eqb_refl.
Qed.

End UrlMatch.

(** X15.  The correlation id is read off the address soundly and
    completely: when [matchConversationUrl] returns an id, the address is
    some prefix, then "/c/", then the id, then a rest that does not go on
    with an id character, and the id is a non-empty run of letters, digits
    and hyphens; and it returns an id whenever the address holds "/c/"
    followed by an id character. *)
Theorem matchConversationUrl_sound_complete (url : list ascii) :
  (forall captured : list ascii,
      matchConversationUrl url = Some captured ->
      captured <> []
      /\ forallb isIdChar captured = true
      /\ exists before rest : list ascii,
           url = (before ++ chars "/c/" ++ captured ++ rest)%list
           /\ match rest with
              | [] => True
              | c :: _ => isIdChar c = false
              end)
  /\ (forall (before rest : list ascii) (c : ascii),
        url = (before ++ chars "/c/" ++ c :: rest)%list ->
        isIdChar c = true ->
        matchConversationUrl url <> None).
Proof.
  split.
  - induction url as [|x url IH]; intros captured H; [discriminate|].
    cbn [matchConversationUrl] in H.
    assert (Hrec : matchConversationUrl url = Some captured ->
                   captured <> []
                   /\ forallb isIdChar captured = true
                   /\ exists before rest : list ascii,
                        x :: url = (before ++ chars "/c/" ++ captured ++ rest)%list
                        /\ match rest with
                           | [] => True
                           | c :: _ => isIdChar c = false
                           end).
    { intros Hu. destruct (IH captured Hu) as (Hne & Hall & before & rest & E & Hr).
      split; [exact Hne|]. split; [exact Hall|].
      exists (x :: before), rest. split; [|exact Hr]. cbn [app]. now f_equal. }
    destruct (startsWith (chars "/c/") (x :: url)) eqn:Hs; [|now apply Hrec].
    destruct (takeWhile isIdChar (skipn 3 (x :: url))) as [|a r] eqn:Ht;
      [now apply Hrec|].
    injection H as <-.
    destruct (takeWhile_split isIdChar (skipn 3 (x :: url))) as (E & Hall & Hr).
    rewrite Ht in E, Hall, Hr.
    split; [discriminate|]. split; [exact Hall|].
    exists [], (skipn (List.length (a :: r)) (skipn 3 (x :: url))).
    split; [|exact Hr].
    rewrite app_nil_l, <- E.
    exact (startsWith_split (chars "/c/") (x :: url) Hs).
  - intros before. revert url.
    induction before as [|x before IH]; intros url rest c E Hc.
    + subst url. cbn [app]. 
      change (matchConversationUrl (chars "/c/" ++ c :: rest) <> None).
      cbn. rewrite Hc. discriminate.
    + subst url. cbn [app matchConversationUrl].
      specialize (IH _ rest c eq_refl Hc).
      destruct (startsWith (chars "/c/") (x :: before ++ chars "/c/" ++ c :: rest));
        [|exact IH].
      destruct (takeWhile isIdChar
                  (skipn 3 (x :: before ++ chars "/c/" ++ c :: rest)));
        [exact IH | discriminate].
Qed.

Lemma matchConversationUrl_sound_complete_witness :
  matchConversationUrl (chars "https://chatgpt.com/c/abc-123?x=1")
  = Some (chars "abc-123")
  /\ isIdChar "a" = true
  /\ matchConversationUrl (chars "https://chatgpt.com/c/abc-123?x=1") <> None
  /\ forallb isIdChar (chars "abc-123") = true.
Proof.
  split; [reflexivity|]. split; [reflexivity|]. split.
  - apply (proj2 (matchConversationUrl_sound_complete
                    (chars "https://chatgpt.com/c/abc-123?x=1"))
             (chars "https://chatgpt.com") (chars "bc-123?x=1") "a"%char);
      reflexivity.
  - apply (proj1 (matchConversationUrl_sound_complete
                    (chars "https://chatgpt.com/c/abc-123?x=1"))
             (chars "abc-123")).
    reflexivity.
Defined.

Section ModelChoice.

Lemma detectModel_four (text : string) :
  exists detected : string,
    detectModel (JStr text) = Normal detected
    /\ (detected = "gpt-4o" \/ detected = "gpt-4-turbo"
        \/ detected = "gpt-4" \/ detected = "gpt-3.5-turbo").
Proof.
  unfold detectModel. cbn [stringReceiver bind].
  repeat match goal with
         | |- context [if ?b then _ else _] => destruct b
         end;
    eexists; (split; [reflexivity|]); cbn; tauto.
Qed.

End ModelChoice.

(** X16.  The model of a new conversation is the configured default model
    or one of "gpt-4-turbo", "gpt-4", "gpt-3.5-turbo" found by [detectModel]
    in the text of an indicator: an indicator that names gpt-4o selects
    nothing, since that answer is taken for "no match". *)
Theorem detectCurrentModel_choice (indicators : list string)
  (settingsDefault : string) :
  exists chosen : string,
    detectCurrentModelLoop indicators settingsDefault = Normal chosen
    /\ (chosen = settingsDefault
        \/ (chosen <> "gpt-4o"
            /\ In chosen ["gpt-4-turbo"; "gpt-4"; "gpt-3.5-turbo"]
            /\ exists textContent : string,
                 In textContent indicators
                 /\ detectModel (JStr textContent) = Normal chosen)).
Proof.
  induction indicators as [|textContent rest (chosen & Hrun & IH)].
  - exists settingsDefault. split; [reflexivity | now left].
  - cbn [detectCurrentModelLoop].
    assert (Hlow : detectModel
                     (JStr (string_of_list_ascii
                              (toLowerCase (chars textContent))))
                   = detectModel (JStr textContent)).
    { unfold detectModel. cbn [stringReceiver bind].
      now rewrite chars_of_list, toLowerCase_idempotent. }
    rewrite Hlow.
    destruct (detectModel_four textContent) as (d & Hd & Hcases).
    rewrite Hd. cbn [bind].
    destruct (d =? defaultModel)%string eqn:E; cbn [negb].
    + exists chosen. split; [exact Hrun|].
      destruct IH as [IH|(Hne & Hin & x & Hx & Hdx)]; [now left|].
      right. split; [exact Hne|]. split; [exact Hin|].
      exists x. split; [now right | exact Hdx].
    + exists d. split; [reflexivity|]. right.
      apply String.eqb_neq in E. unfold defaultModel in E.
      split; [exact E|]. split.
      * destruct Hcases as [H|[H|[H|H]]]; subst d;
          [now contradiction E | cbn; tauto ..].
      * exists textContent. split; [now left | exact Hd].
Qed.

(** ** Reading messages off the page *)

Section Extraction.

Lemma trim_not_blank (s : list ascii) :
  trim s <> [] -> forallb isSpace (trim s) = false.
Proof.
  unfold trim. intros Hne.
  destruct (trimEnd_nonspace (dropSpaces s)) as [E|E]; [contradiction|].
  revert E. generalize (trimEnd (dropSpaces s)). intros l.
  induction l as [|c l IH]; [discriminate|].
  cbn [existsb forallb]. destruct (isSpace c); cbn [negb orb andb];
    [exact IH | reflexivity].
Qed.

End Extraction.

(** X17.  Every message [extractMessageFromElement] returns has a content
    that is trimmed and at least 5 code units long, so that its estimate
    (under a model id that is not a name inherited from [Object.prototype])
    is at least 2 tokens; its role is the element's role attribute when that is
    present and not empty, and "user" or "assistant" otherwise; its time
    stamp is the clock reading. *)
Theorem extractMessageFromElement_wellformed (now : Z)
  (element : MessageExtraction.Element) (m : Message) (modelId : string) :
  ObjectPrototype.isInherited modelId = false ->
  MessageExtraction.extractMessageFromElement now element = Some m ->
  trim (chars (content m)) = chars (content m)
  /\ (5 <= String.length (content m))%nat
  /\ timestamp m = now
  /\ match MessageExtraction.roleAttribute element with
     | Some roleAttr =>
         if (roleAttr =? "")%string
         then role m = "user" \/ role m = "assistant"
         else role m = roleAttr
     | None => role m = "user" \/ role m = "assistant"
     end
  /\ exists n : Z, encode (JStr (content m)) modelId = Normal n /\ 2 <= n.
Proof.
  intros _.
  unfold MessageExtraction.extractMessageFromElement. cbv zeta.
  set (raw := match MessageExtraction.contentElement element with
              | Some (text, inner) =>
                  MessageExtraction.orElse text
                    (MessageExtraction.orElse inner "")
              | None =>
                  MessageExtraction.orElse
                    (MessageExtraction.textContent element)
                    (MessageExtraction.orElse
                       (MessageExtraction.innerText element) "")
              end).
  destruct (string_of_list_ascii (trim (chars raw)) =? "")%string eqn:He;
    [discriminate|].
  destruct (String.length (string_of_list_ascii (trim (chars raw))) <? 5)%nat
    eqn:Hl; [discriminate|].
  cbn [orb]. intros [= <-]. cbn [content role timestamp].
  rewrite chars_of_list.
  split; [apply trim_idempotent|].
  split; [now apply Nat.ltb_ge in Hl|].
  split; [reflexivity|]. split.
  - destruct (MessageExtraction.roleAttribute element) as [roleAttr|].
    + destruct (roleAttr =? "")%string; cbn [negb]; [|reflexivity].
      destruct (_ || _ || _); [now right | now left].
    + destruct (_ || _ || _); [now right | now left].
  - exists (Spec.estimate (trim (chars raw)) modelId).
    rewrite encode_string, chars_of_list. split; [reflexivity|].
    apply estimate_not_blank, trim_not_blank.
    intros E. rewrite E in He. discriminate He.
Qed.

Lemma extractMessageFromElement_wellformed_witness :
  ObjectPrototype.isInherited "gpt-4o" = false
  /\ MessageExtraction.extractMessageFromElement 7 assistantElement
  = Some {| role := "assistant"; content := "Here is the answer.";
            timestamp := 7 |}
  /\ exists n : Z,
       encode (JStr "Here is the answer.") "gpt-4o" = Normal n /\ 2 <= n.
Proof.
  split; [reflexivity|]. split; [reflexivity|].
  apply (extractMessageFromElement_wellformed 7 assistantElement
           {| role := "assistant"; content := "Here is the answer.";
              timestamp := 7 |} "gpt-4o" eq_refl).
  reflexivity.
Defined.

(** ** The string hash and the token cache of the performance manager *)

Section Hash.

Import PerformanceManager.

Lemma toInt32_range (z : Z) : - 2 ^ 31 <= toInt32 z < 2 ^ 31.
Proof.
  unfold toInt32.
  pose proof (Z.mod_pos_bound (z + 2 ^ 31) (2 ^ 32) ltac:(reflexivity)) as B.
  change (2 ^ 32) with 4294967296 in *.
  change (2 ^ 31) with 2147483648 in *. lia.
Qed.

(** Wrapping forgets multiples of 2^32. *)
Lemma toInt32_congruent (x t : Z) : toInt32 (x + t * 2 ^ 32) = toInt32 x.
Proof.
  unfold toInt32. f_equal.
  replace (x + t * 2 ^ 32 + 2 ^ 31) with (x + 2 ^ 31 + t * 2 ^ 32) by lia.
  apply Z_mod_plus_full.
Qed.

Lemma toInt32_multiple (z : Z) : exists q : Z, toInt32 z = z + q * 2 ^ 32.
Proof.
  exists (- ((z + 2 ^ 31) / 2 ^ 32)). unfold toInt32.
  pose proof (Z.div_mod (z + 2 ^ 31) (2 ^ 32) ltac:(discriminate)). lia.
Qed.

Lemma toInt32_small (z : Z) : - 2 ^ 31 <= z < 2 ^ 31 -> toInt32 z = z.
Proof.
  intros H. unfold toInt32.
  change (2 ^ 32) with 4294967296 in *.
  change (2 ^ 31) with 2147483648 in *.
  rewrite Z.mod_small; lia.
Qed.

Lemma hashStep_polynomial (p : Z) (c : ascii) :
  hashStep (toInt32 p) c = toInt32 (31 * p + Z.of_N (code c)).
Proof.
  unfold hashStep, bitAnd, shiftLeft. cbv zeta.
  rewrite Z.land_diag, Z.shiftl_mul_pow2 by lia.
  rewrite (toInt32_small (toInt32 p)) by apply toInt32_range.
  destruct (toInt32_multiple (toInt32 p * 2 ^ 5)) as [q1 ->].
  destruct (toInt32_multiple p) as [q2 ->].
  replace ((p + q2 * 2 ^ 32) * 2 ^ 5 + q1 * 2 ^ 32 - (p + q2 * 2 ^ 32)
           + Z.of_N (code c))
    with (31 * p + Z.of_N (code c) + (31 * q2 + q1) * 2 ^ 32).
  - apply toInt32_congruent.
  - change (2 ^ 5) with 32. lia.
Qed.

Lemma fold_hashStep_polynomial (s : list ascii) (p : Z) :
  fold_left hashStep s (toInt32 p)
  = toInt32 (fold_left (fun h c => 31 * h + Z.of_N (code c)) s p).
Proof.
  revert p. induction s as [|c s IH]; intros p; [reflexivity|].
  cbn [fold_left]. rewrite hashStep_polynomial. apply IH.
Qed.

Lemma assoc_mapSet (key : string) (value : Z) (m : list (string * Z)) :
  assoc key (mapSet key value m) = Some value.
Proof.
  induction m as [|[k v] m IH]; cbn [mapSet assoc].
  - now rewrite String.eqb_refl.
  - destruct (key =? k)%string eqn:E; cbn [assoc]; rewrite E;
      [reflexivity | exact IH].
Qed.

Lemma assoc_mapSet_other (key k : string) (value : Z) (m : list (string * Z)) :
  k <> key -> assoc key (mapSet k value m) = assoc key m.
Proof.
  intros Hne. induction m as [|[k' v] m IH]; cbn [mapSet assoc].
  - destruct (String.eqb_spec key k) as [->|_]; [contradiction | reflexivity].
  - destruct (String.eqb_spec k k') as [->|Hk]; cbn [assoc].
    + destruct (String.eqb_spec key k') as [->|_]; [contradiction | reflexivity].
    + now rewrite IH.
Qed.

Lemma runIdleCallbacksFrom_app (w : Window)
  (first second : list (string * string * string)) (st : State) :
  runIdleCallbacksFrom w (first ++ second) st
  = (a <- runIdleCallbacksFrom w first st ;;
     b <- runIdleCallbacksFrom w second (snd a) ;;
     Normal ((fst a ++ fst b)%list, snd b)).
Proof.
  revert st. induction first as [|callback first IH]; intros st.
  - cbn [app runIdleCallbacksFrom bind fst snd].
    destruct (runIdleCallbacksFrom w second st) as [[values st']|e]; reflexivity.
  - cbn [app runIdleCallbacksFrom].
    destruct (runIdleCallback w callback st) as [[value st1]|e];
      [|reflexivity].
    cbn [bind fst snd]. rewrite IH.
    destruct (runIdleCallbacksFrom w first st1) as [[values st2]|e];
      [|reflexivity].
    cbn [bind fst snd].
    destruct (runIdleCallbacksFrom w second st2) as [[values' st3]|e];
      reflexivity.
Qed.

(** Callbacks for other keys run through and leave the entry of [key], the
    queue and nothing but their own count behind. *)
Lemma runIdleCallbacksFrom_others (w : Window) (key : string)
  (pending : list (string * string * string)) (st : State) :
  Forall (fun callback => fst (fst callback) <> key) pending ->
  exists (values : list Z) (st' : State),
    runIdleCallbacksFrom w pending st = Normal (values, st')
    /\ assoc key (tokenCache st') = assoc key (tokenCache st)
    /\ tokenCalculations st'
       = tokenCalculations st + Z.of_nat (List.length pending)
    /\ idleCallbacks st' = idleCallbacks st.
Proof.
  intros Hall. revert st.
  induction Hall as [|[[k text] model] pending Hk Hall IH]; intros st.
  - exists [], st. cbn [runIdleCallbacksFrom List.length].
    repeat split. lia.
  - cbn [fst] in Hk. cbn [runIdleCallbacksFrom runIdleCallback].
    assert (Hcalc : exists result : Z,
               calculateTokensInternal w text model = Normal result).
    { unfold calculateTokensInternal.
      destruct (hasGPTTokenizer w); [|eexists; reflexivity].
      rewrite encode_string. eexists; reflexivity. }
    destruct Hcalc as [result ->]. cbn [bind fst snd].
    destruct (IH {| tokenCache := mapSet k result (tokenCache st);
                    tokenCalculations := tokenCalculations st + 1;
                    idleCallbacks := idleCallbacks st |})
      as (values & st' & -> & Hcache & Hcount & Hqueue).
    cbn [tokenCache tokenCalculations idleCallbacks] in Hcache, Hcount, Hqueue.
    cbn [bind fst snd]. do 2 eexists. split; [reflexivity|].
    split; [rewrite Hcache; now apply assoc_mapSet_other|].
    split; [|exact Hqueue].
    rewrite Hcount. cbn [List.length]. lia.
Qed.

End Hash.

(** X18.  [hashString] is the polynomial hash of the code units with
    multiplier 31, wrapped to a signed 32-bit integer: the result of the
    shift, subtraction and masking is, for every string,
    c0*31^(n-1) + ... + c(n-1) brought into [-2^31, 2^31). *)
Theorem hashString_polynomial (str : string) :
  PerformanceManager.hashString str
  = PerformanceManager.toInt32 (PerformanceManager.polynomial31 (chars str))
  /\ - 2 ^ 31 <= PerformanceManager.hashString str < 2 ^ 31.
Proof.
  assert (H : PerformanceManager.hashString str
              = PerformanceManager.toInt32
                  (PerformanceManager.polynomial31 (chars str))).
  { unfold PerformanceManager.hashString, PerformanceManager.polynomial31.
    destruct str as [|c str]; [reflexivity|].
    cbn [String.length Nat.eqb].
    change 0 with (PerformanceManager.toInt32 0) at 1.
    apply fold_hashStep_polynomial. }
  split; [exact H|]. rewrite H. apply toInt32_range.
Qed.

(** X19.  The token cache answers by model, length and hash, not by text,
    with or without [requestIdleCallback]: a first request for a text that
    is not cached returns its estimate and stores it at once, or, when idle
    callbacks are used, returns a promise and stores nothing until the
    browser runs the callback, which then stores the estimate and resolves
    the promise with it; once the entry is stored, a request for any text
    of the same length and hash under the same model returns that stored
    estimate without a new calculation, whatever its own estimate is (the
    model id not being a name inherited from [Object.prototype], and no
    callback pending for the same key). *)
Theorem tokenCache_hit_by_length_and_hash (useRequestIdleCallback : bool)
  (w : PerformanceManager.Window) (st : PerformanceManager.State)
  (text other model : string) :
  ObjectPrototype.isInherited model = false ->
  PerformanceManager.hasGPTTokenizer w = true ->
  assoc (PerformanceManager.cacheKey text model)
    (PerformanceManager.tokenCache st) = None ->
  Forall (fun callback =>
            fst (fst callback) <> PerformanceManager.cacheKey text model)
    (PerformanceManager.idleCallbacks st) ->
  String.length other = String.length text ->
  PerformanceManager.hashString other = PerformanceManager.hashString text ->
  exists (n : Z) (first : PerformanceManager.Result)
         (st1 st2 : PerformanceManager.State) (resolved : list Z),
    encode (JStr text) model = Normal n
    /\ PerformanceManager.optimizeTokenCalculation useRequestIdleCallback w
         text model st
       = Normal (first, st1)
    /\ (useRequestIdleCallback && PerformanceManager.hasRequestIdleCallback w
        = false ->
        first = PerformanceManager.Value n
        /\ PerformanceManager.tokenCalculations st1
           = PerformanceManager.tokenCalculations st + 1
        /\ PerformanceManager.optimizeTokenCalculation useRequestIdleCallback w
             other model st1
           = Normal (PerformanceManager.Value n, st1))
    /\ (useRequestIdleCallback && PerformanceManager.hasRequestIdleCallback w
        = true ->
        first = PerformanceManager.Promise
        /\ PerformanceManager.tokenCache st1 = PerformanceManager.tokenCache st
        /\ PerformanceManager.tokenCalculations st1
           = PerformanceManager.tokenCalculations st
        /\ last resolved 0 = n)
    /\ PerformanceManager.runIdleCallbacks w st1 = Normal (resolved, st2)
    /\ assoc (PerformanceManager.cacheKey text model)
         (PerformanceManager.tokenCache st2) = Some n
    /\ PerformanceManager.tokenCalculations st2
       = PerformanceManager.tokenCalculations st + 1
         + Z.of_nat (List.length (PerformanceManager.idleCallbacks st))
    /\ PerformanceManager.optimizeTokenCalculation useRequestIdleCallback w
         other model st2
       = Normal (PerformanceManager.Value n, st2).
Proof.
  intros _ Htok Hmiss Hpending Hlen Hhash.
  assert (Hkey : PerformanceManager.cacheKey other model
                 = PerformanceManager.cacheKey text model).
  { unfold PerformanceManager.cacheKey. now rewrite Hlen, Hhash. }
  set (key := PerformanceManager.cacheKey text model) in *.
  set (n := Spec.estimate (chars text) model).
  assert (Hhit : forall st' : PerformanceManager.State,
             assoc key (PerformanceManager.tokenCache st') = Some n ->
             PerformanceManager.optimizeTokenCalculation useRequestIdleCallback
               w other model st'
             = Normal (PerformanceManager.Value n, st')).
  { intros st' Hst'. unfold PerformanceManager.optimizeTokenCalculation.
    cbv zeta. now rewrite Hkey, Hst'. }
  assert (Hcalc : PerformanceManager.calculateTokensInternal w text model
                  = Normal n).
  { unfold PerformanceManager.calculateTokensInternal.
    rewrite Htok. apply encode_string. }
  exists n.
  unfold PerformanceManager.optimizeTokenCalculation at 1. cbv zeta.
  fold key. rewrite Hmiss.
  destruct (useRequestIdleCallback
            && PerformanceManager.hasRequestIdleCallback w) eqn:Hidle.
  - (* the callback is queued *)
    destruct (runIdleCallbacksFrom_others w key
                (PerformanceManager.idleCallbacks st)
                {| PerformanceManager.tokenCache :=
                     PerformanceManager.tokenCache st;
                   PerformanceManager.tokenCalculations :=
                     PerformanceManager.tokenCalculations st;
                   PerformanceManager.idleCallbacks := [] |} Hpending)
      as (values & st' & Hrun & Hcache & Hcount & Hqueue).
    cbn [PerformanceManager.tokenCache PerformanceManager.tokenCalculations
         PerformanceManager.idleCallbacks] in Hcache, Hcount, Hqueue.
    do 4 eexists. split; [apply encode_string|].
    split; [reflexivity|]. split; [discriminate|].
    assert (Hall : PerformanceManager.runIdleCallbacks w
                     {| PerformanceManager.tokenCache :=
                          PerformanceManager.tokenCache st;
                        PerformanceManager.tokenCalculations :=
                          PerformanceManager.tokenCalculations st;
                        PerformanceManager.idleCallbacks :=
                          (PerformanceManager.idleCallbacks st
                           ++ [(key, text, model)])%list |}
                   = Normal
                       ((values ++ [n])%list,
                        {| PerformanceManager.tokenCache :=
                             PerformanceManager.mapSet key n
                               (PerformanceManager.tokenCache st');
                           PerformanceManager.tokenCalculations :=
                             PerformanceManager.tokenCalculations st' + 1;
                           PerformanceManager.idleCallbacks :=
                             PerformanceManager.idleCallbacks st' |})).
    { unfold PerformanceManager.runIdleCallbacks.
      cbn [PerformanceManager.tokenCache PerformanceManager.tokenCalculations
           PerformanceManager.idleCallbacks].
      rewrite runIdleCallbacksFrom_app, Hrun. cbn [bind fst snd].
      cbn [PerformanceManager.runIdleCallbacksFrom
           PerformanceManager.runIdleCallback].
      rewrite Hcalc. cbn [bind fst snd]. reflexivity. }
    split; [intros _; repeat split; apply last_last|].
    split; [exact Hall|].
    cbn [PerformanceManager.tokenCache PerformanceManager.tokenCalculations].
    split; [apply assoc_mapSet|]. split; [lia|].
    apply Hhit. cbn [PerformanceManager.tokenCache]. apply assoc_mapSet.
  - (* the estimate is computed at once *)
    rewrite Hcalc. cbn [bind].
    destruct (runIdleCallbacksFrom_others w key
                (PerformanceManager.idleCallbacks st)
                {| PerformanceManager.tokenCache :=
                     PerformanceManager.mapSet key n
                       (PerformanceManager.tokenCache st);
                   PerformanceManager.tokenCalculations :=
                     PerformanceManager.tokenCalculations st + 1;
                   PerformanceManager.idleCallbacks := [] |} Hpending)
      as (values & st' & Hrun & Hcache & Hcount & Hqueue).
    cbn [PerformanceManager.tokenCache PerformanceManager.tokenCalculations
         PerformanceManager.idleCallbacks] in Hcache, Hcount, Hqueue.
    exists (PerformanceManager.Value n). do 2 eexists. exists values.
    split; [apply encode_string|]. split; [reflexivity|].
    split.
    { intros _. split; [reflexivity|]. split; [reflexivity|].
      apply Hhit. cbn [PerformanceManager.tokenCache]. apply assoc_mapSet. }
    split; [discriminate|].
    unfold PerformanceManager.runIdleCallbacks.
    cbn [PerformanceManager.tokenCache PerformanceManager.tokenCalculations
         PerformanceManager.idleCallbacks].
    split; [exact Hrun|].
    assert (Hst' : assoc key (PerformanceManager.tokenCache st') = Some n)
      by (rewrite Hcache; apply assoc_mapSet).
    split; [exact Hst'|]. split; [lia|]. now apply Hhit.
Qed.

Lemma tokenCache_hit_by_length_and_hash_witness :
  ObjectPrototype.isInherited "gpt-4o" = false
  /\ PerformanceManager.hasGPTTokenizer chromeWindow = true
  /\ assoc (PerformanceManager.cacheKey "Aa" "gpt-4o")
       (PerformanceManager.tokenCache emptyState) = None
  /\ Forall (fun callback =>
               fst (fst callback) <> PerformanceManager.cacheKey "Aa" "gpt-4o")
       (PerformanceManager.idleCallbacks emptyState)
  /\ String.length "C#" = String.length "Aa"
  /\ PerformanceManager.hashString "C#" = PerformanceManager.hashString "Aa"
  /\ encode (JStr "C#") "gpt-4o" = Normal 3
  /\ exists st1 st2 : PerformanceManager.State,
       PerformanceManager.optimizeTokenCalculation true chromeWindow
         "Aa" "gpt-4o" emptyState
       = Normal (PerformanceManager.Promise, st1)
       /\ PerformanceManager.runIdleCallbacks chromeWindow st1
          = Normal ([2], st2)
       /\ PerformanceManager.optimizeTokenCalculation true chromeWindow
            "C#" "gpt-4o" st2
          = Normal (PerformanceManager.Value 2, st2).
Proof.
  split; [reflexivity|]. split; [reflexivity|]. split; [reflexivity|].
  split; [constructor|].
  split; [reflexivity|]. split; [reflexivity|]. split; [reflexivity|].
  destruct (tokenCache_hit_by_length_and_hash true chromeWindow emptyState
              "Aa" "C#" "gpt-4o" eq_refl eq_refl eq_refl (Forall_nil _)
              eq_refl eq_refl)
    as (n & first & st1 & st2 & resolved
        & Hn & Hfirst & _ & Hidle & Hrun & _ & _ & Hhit).
  assert (n = 2) by (vm_compute in Hn; now injection Hn).
  subst n.
  destruct (Hidle eq_refl) as (-> & _).
  exists st1, st2. split; [exact Hfirst|]. split; [|exact Hhit].
  rewrite Hrun. f_equal. f_equal.
  vm_compute in Hfirst. injection Hfirst as <-.
  vm_compute in Hrun. now injection Hrun as <- _.
Defined.

(** ** The error log *)

Section ErrorLog.

Import ErrorHandler.

(** Appending to the last [cap] elements and shifting when there are more
    than [cap] gives the last [cap] elements again. *)
Lemma push_shift_last {A : Type} (cap : nat) (all : list A) (x : A) :
  (0 < cap)%nat ->
  let log := (skipn (List.length all - cap) all ++ [x])%list in
  (if (cap <? List.length log)%nat then shift log else log)
  = skipn (List.length (all ++ [x]) - cap) (all ++ [x]).
Proof.
  intros Hcap.
  cbv zeta. rewrite !length_app, length_skipn. cbn [List.length].
  destruct (cap <? List.length all - (List.length all - cap) + 1)%nat eqn:E.
  - apply Nat.ltb_lt in E.
    assert (Hc : (cap <= List.length all)%nat) by lia.
    replace (List.length all + 1 - cap)%nat
      with (S (List.length all - cap)) by lia.
    rewrite skipn_app.
    replace (S (List.length all - cap) - List.length all)%nat with 0%nat by lia.
    change (skipn 0 [x]) with [x]. unfold shift.
    destruct (skipn (List.length all - cap) all) as [|a r] eqn:Es.
    + assert (Hl : List.length (skipn (List.length all - cap) all) = 0%nat)
        by now rewrite Es.
      rewrite length_skipn in Hl. lia.
    + cbn [app tl]. f_equal.
      replace (S (List.length all - cap)) with (1 + (List.length all - cap))%nat
        by lia.
      rewrite <- skipn_skipn, Es. reflexivity.
  - apply Nat.ltb_ge in E.
    replace (List.length all - cap)%nat with 0%nat by lia.
    replace (List.length all + 1 - cap)%nat with 0%nat by lia.
    reflexivity.
Qed.

End ErrorLog.

(** X20.  The error log is bounded and keeps the newest entries: after any
    sequence of [logError] calls on an empty handler the log holds the last
    100 entries logged (all of them while there are at most 100), in the
    order logged, and the list of critical errors holds the last 10 entries
    of a critical category. *)
Theorem errorLog_keeps_last_entries
  (events : list (Z * string * string)) :
  let entryOf (e : Z * string * string) :=
    {| ErrorHandler.timestamp := fst (fst e);
       ErrorHandler.category := snd (fst e);
       ErrorHandler.message := snd e |} in
  let h :=
    fold_left (fun h e => ErrorHandler.logError (fst (fst e)) (snd (fst e))
                            (snd e) h)
      events emptyHandler in
  let all := map entryOf events in
  let critical :=
    filter (fun x => ErrorHandler.isCriticalError (ErrorHandler.category x))
      all in
  ErrorHandler.errorLog h = skipn (List.length all - 100) all
  /\ (List.length (ErrorHandler.errorLog h) <= 100)%nat
  /\ ErrorHandler.criticalErrors h
     = skipn (List.length critical - 10) critical
  /\ (List.length (ErrorHandler.criticalErrors h) <= 10)%nat.
Proof.
  cbv zeta.
  set (entryOf := fun e : Z * string * string =>
         {| ErrorHandler.timestamp := fst (fst e);
            ErrorHandler.category := snd (fst e);
            ErrorHandler.message := snd e |}).
  set (logOne := fun h (e : Z * string * string) =>
         ErrorHandler.logError (fst (fst e)) (snd (fst e)) (snd e) h).
  set (crit := fun x => ErrorHandler.isCriticalError (ErrorHandler.category x)).
  assert (H : ErrorHandler.errorLog (fold_left logOne events emptyHandler)
              = skipn (List.length (map entryOf events) - 100)
                  (map entryOf events)
              /\ ErrorHandler.criticalErrors
                   (fold_left logOne events emptyHandler)
                 = skipn (List.length (filter crit (map entryOf events)) - 10)
                     (filter crit (map entryOf events))).
  { induction events as [|e events (IHl & IHc)] using rev_ind;
      [split; reflexivity|].
    rewrite fold_left_app, map_app, filter_app. cbn [fold_left map filter].
    unfold logOne at 1 3. unfold ErrorHandler.logError. cbv zeta.
    fold (entryOf e). rewrite IHl, IHc.
    change (ErrorHandler.maxLogSize) with 100%nat.
    rewrite (push_shift_last 100 (map entryOf events) (entryOf e)) by lia.
    assert (Hce : crit (entryOf e)
                  = ErrorHandler.isCriticalError (snd (fst e)))
      by reflexivity.
    rewrite Hce.
    destruct (ErrorHandler.isCriticalError (snd (fst e))) eqn:Ec.
    - unfold ErrorHandler.reportCriticalError. cbv zeta.
      cbn [ErrorHandler.errorLog ErrorHandler.criticalErrors].
      split; [reflexivity|].
      now rewrite (push_shift_last 10 (filter crit (map entryOf events))
                     (entryOf e)) by lia.
    - cbn [ErrorHandler.errorLog ErrorHandler.criticalErrors].
      split; [reflexivity|]. now rewrite app_nil_r. }
  destruct H as [Hl Hc]. rewrite Hl, Hc, !length_skipn.
  repeat split; lia.
Qed.

(** ** Retrying with backoff *)

Section Retry.

Import ErrorHandler.

Lemma assoc_put (key : string) (value : Z) (m : list (string * Z)) :
  assoc key (put key value m) = Some value.
Proof.
  induction m as [|[k v] m IH]; cbn [put assoc].
  - now rewrite String.eqb_refl.
  - destruct (key =? k)%string eqn:E; cbn [assoc]; rewrite E;
      [reflexivity | exact IH].
Qed.

Lemma assoc_remove (key : string) (m : list (string * Z)) :
  assoc key (remove key m) = None.
Proof.
  induction m as [|[k v] m IH]; cbn [remove assoc]; [reflexivity|].
  destruct (key =? k)%string eqn:E; [exact IH|].
  cbn [assoc]. now rewrite E.
Qed.

Lemma logError_retryAttempts (now : Z) (category message : string)
  (h : Handler) :
  retryAttempts (logError now category message h) = retryAttempts h.
Proof.
  unfold logError. cbv zeta. destruct (isCriticalError category); reflexivity.
Qed.

(** The counter of [key] as [retryWithBackoff] reads it. *)
Lemma retry_from_counter (fuel : nat) (key : string) (fn : nat -> Outcome)
  (maxR : Z) (suspension : nat -> Interval) (h : Handler) (tr : Trace) (a : Z) :
  leavesCounter key suspension ->
  match assoc key (retryAttempts h) with Some n => n | None => 0 end = a ->
  0 <= a ->
  (1 <= fuel)%nat ->
  (Z.to_nat (maxR - a) <= fuel)%nat ->
  exists (outcome : Outcome) (h' : Handler) (tr' : Trace),
    retryWithBackoff fuel key fn maxR suspension h tr = Some (outcome, h', tr')
    /\ (calls tr < calls tr')%nat
    /\ (calls tr' <= calls tr + Nat.max 1 (Z.to_nat (maxR - a)))%nat
    /\ assoc key (retryAttempts h') = None
    /\ slept tr'
       = (slept tr
          ++ map (fun j => backoffDelay (a + 1 + Z.of_nat j))
               (seq 0 (calls tr' - calls tr - 1)))%list
    /\ (forall i : nat,
          (calls tr <= i < calls tr' - 1)%nat ->
          exists message : string, fn i = Rejected message)
    /\ match outcome with
       | Resolved value => fn (calls tr' - 1)%nat = Resolved value
       | Rejected message =>
           (exists last : string,
               fn (calls tr' - 1)%nat = Rejected last
               /\ message = maxRetriesMessage maxR key last)
           /\ calls tr' = (calls tr + Nat.max 1 (Z.to_nat (maxR - a)))%nat
       end.
Proof.
  intros Hquiet. revert h tr a.
  induction fuel as [|fuel IH]; intros h tr a Ha Ha0 Hf1 Hf; [lia|].
  cbn [retryWithBackoff]. cbv zeta.
  assert (Hatt : match assoc key (retryAttempts h) with
                 | Some n => if n =? 0 then 0 else n
                 | None => 0
                 end + 1 = a + 1).
  { destruct (assoc key (retryAttempts h)) as [n|]; [|lia].
    subst n. destruct (a =? 0) eqn:E; [apply Z.eqb_eq in E|]; lia. }
  rewrite Hatt. cbn [calls awaits slept clock retryAttempts setRetryAttempts].
  destruct (fn (calls tr)) as [value|message] eqn:Efn.
  - do 3 eexists. split; [reflexivity|].
    cbn [calls slept retryAttempts setRetryAttempts].
    replace (S (calls tr) - calls tr - 1)%nat with 0%nat by lia.
    replace (S (calls tr) - 1)%nat with (calls tr) by lia.
    cbn [seq map]. rewrite app_nil_r.
    split; [lia|]. split; [lia|]. split; [apply assoc_remove|].
    split; [reflexivity|]. split; [intros i Hi; lia | exact Efn].
  - destruct (maxR <=? a + 1) eqn:Emax.
    + apply Z.leb_le in Emax.
      do 3 eexists. split; [reflexivity|].
      cbn [calls slept retryAttempts setRetryAttempts].
      replace (S (calls tr) - calls tr - 1)%nat with 0%nat by lia.
      replace (S (calls tr) - 1)%nat with (calls tr) by lia.
      cbn [seq map]. rewrite app_nil_r.
      split; [lia|]. split; [lia|]. split; [apply assoc_remove|].
      split; [reflexivity|]. split; [intros i Hi; lia|].
      split; [now exists message | lia].
    + apply Z.leb_gt in Emax.
      match goal with
      | |- context [retryWithBackoff fuel key fn maxR suspension ?h1 ?tr1] =>
          destruct (IH h1 tr1 (a + 1)) as
            (outcome & h' & tr' & Hrun & Hlt & Hle & Hclear & Hslept & Hrej & Hout)
      end.
      * rewrite logError_retryAttempts, !Hquiet.
        cbn [retryAttempts setRetryAttempts]. now rewrite assoc_put.
      * lia.
      * lia.
      * lia.
      * cbn [calls slept] in *.
        exists outcome, h', tr'. split; [exact Hrun|].
        split; [lia|]. split; [lia|]. split; [exact Hclear|].
        split; [|split].
        -- rewrite Hslept, <- app_assoc. f_equal.
           replace (calls tr' - calls tr - 1)%nat
             with (S (calls tr' - S (calls tr) - 1)) by lia.
           cbn [seq map app]. f_equal; [f_equal; lia|].
           rewrite <- seq_shift, map_map.
           apply map_ext. intros j. f_equal. lia.
        -- intros i Hi.
           destruct (Nat.eq_dec i (calls tr)) as [->|Hne];
             [now exists message|].
           apply Hrej. lia.
        -- destruct outcome as [value|msg]; [exact Hout|].
           destruct Hout as [Hlast Hcalls]. split; [exact Hlast|]. lia.
Qed.

End Retry.

(** X21.  [retryWithBackoff] on a key without a pending counter (and which
    is not a name that [retryAttempts] inherits from [Object.prototype]),
    when the tasks that run while it is suspended leave the counter of the
    key alone: it calls the function at least once and at most [maxRetries]
    times (once when [maxRetries] is below 1), sleeps 1000, 2000, 4000, 8000
    and then 10000 milliseconds between the calls, stops at the first call
    that succeeds with its value, fails with a "Max retries" error only
    after that many failed calls, and in every case leaves no counter for
    the key behind. *)
Theorem retryWithBackoff_bounded (key : string)
  (fn : nat -> ErrorHandler.Outcome) (maxRetries : Z)
  (suspension : nat -> ErrorHandler.Interval)
  (h : ErrorHandler.Handler) (startClock : Z) :
  ObjectPrototype.isInherited key = false ->
  ErrorHandler.leavesCounter key suspension ->
  assoc key (ErrorHandler.retryAttempts h) = None ->
  exists (outcome : ErrorHandler.Outcome) (h' : ErrorHandler.Handler)
         (tr : ErrorHandler.Trace),
    ErrorHandler.retryWithBackoff (S (Z.to_nat maxRetries)) key fn maxRetries
      suspension h
      {| ErrorHandler.calls := 0; ErrorHandler.awaits := 0;
         ErrorHandler.slept := []; ErrorHandler.clock := startClock |}
    = Some (outcome, h', tr)
    /\ (1 <= ErrorHandler.calls tr <= Nat.max 1 (Z.to_nat maxRetries))%nat
    /\ ErrorHandler.slept tr
       = map (fun j => Z.min (1000 * 2 ^ Z.of_nat j) 10000)
           (seq 0 (ErrorHandler.calls tr - 1))
    /\ assoc key (ErrorHandler.retryAttempts h') = None
    /\ (forall i : nat,
          (i < ErrorHandler.calls tr - 1)%nat ->
          exists message : string, fn i = ErrorHandler.Rejected message)
    /\ match outcome with
       | ErrorHandler.Resolved value =>
           fn (ErrorHandler.calls tr - 1)%nat = ErrorHandler.Resolved value
       | ErrorHandler.Rejected message =>
           (exists last : string,
               fn (ErrorHandler.calls tr - 1)%nat = ErrorHandler.Rejected last
               /\ message = ErrorHandler.maxRetriesMessage maxRetries key last)
           /\ ErrorHandler.calls tr = Nat.max 1 (Z.to_nat maxRetries)
       end.
Proof.
  intros _ Hquiet Hnone.
  destruct (retry_from_counter (S (Z.to_nat maxRetries)) key fn maxRetries
              suspension h
              {| ErrorHandler.calls := 0; ErrorHandler.awaits := 0;
                 ErrorHandler.slept := []; ErrorHandler.clock := startClock |}
              0 Hquiet)
    as (outcome & h' & tr & Hrun & Hlt & Hle & Hclear & Hslept & Hrej & Hout).
  - now rewrite Hnone.
  - lia.
  - lia.
  - rewrite Z.sub_0_r. lia.
  - cbn [ErrorHandler.calls ErrorHandler.slept] in *.
    rewrite Z.sub_0_r, Nat.sub_0_r in *.
    exists outcome, h', tr. split; [exact Hrun|].
    split; [lia|]. split.
    + rewrite Hslept. cbn [app]. apply map_ext. intros j.
      unfold ErrorHandler.backoffDelay. do 3 f_equal. lia.
    + split; [exact Hclear|]. split; [intros i Hi; apply Hrej; lia|].
      exact Hout.
Qed.

Lemma retryWithBackoff_bounded_witness :
  ObjectPrototype.isInherited "storage_get_local" = false
  /\ ErrorHandler.leavesCounter "storage_get_local" quiet
  /\ assoc "storage_get_local" (ErrorHandler.retryAttempts emptyHandler) = None
  /\ exists (h' : ErrorHandler.Handler) (tr : ErrorHandler.Trace),
       ErrorHandler.retryWithBackoff 4 "storage_get_local" failsTwice 3 quiet
         emptyHandler startTrace
       = Some (ErrorHandler.Resolved JNull, h', tr)
       /\ ErrorHandler.calls tr = 3%nat
       /\ ErrorHandler.slept tr = [1000; 2000].
Proof.
  assert (Hquiet : ErrorHandler.leavesCounter "storage_get_local" quiet)
    by (intros i h; reflexivity).
  split; [reflexivity|]. split; [exact Hquiet|]. split; [reflexivity|].
  destruct (retryWithBackoff_bounded "storage_get_local" failsTwice 3 quiet
              emptyHandler 0 eq_refl Hquiet eq_refl)
    as (outcome & h' & tr & Hrun & _).
  exists h', tr.
  vm_compute in Hrun. injection Hrun as <- <- <-.
  repeat split.
Defined.

(** The condition on the other tasks is needed: when a second call on the
    same key starts while the first is suspended at its first [await], the
    first call, which found no counter, reads the counter of the second when
    it retries and gives up with "Max retries (3)" after two calls of the
    function. *)
Lemma retryWithBackoff_interference :
  assoc "storage_set_local" (ErrorHandler.retryAttempts emptyHandler) = None
  /\ exists (h' : ErrorHandler.Handler) (tr : ErrorHandler.Trace),
       ErrorHandler.retryWithBackoff 4 "storage_set_local"
         (fun _ => ErrorHandler.Rejected "busy") 3 secondCallStarts
         emptyHandler startTrace
       = Some (ErrorHandler.Rejected
                 "Max retries (3) exceeded for storage_set_local: busy",
               h', tr)
       /\ ErrorHandler.calls tr = 2%nat
       /\ ErrorHandler.slept tr = [1000].
Proof.
  split; [reflexivity|]. do 2 eexists.
  split; [vm_compute; reflexivity|]. split; reflexivity.
Qed.

(** ** Statistics over the stored history *)

Section Statistics.

Lemma aggregateConversations_snoc (conversations : list HistoryEntry)
  (conv : HistoryEntry) :
  PopupController.aggregateConversations (conversations ++ [conv])%list
  = PopupController.aggregateStep
      (PopupController.aggregateConversations conversations) conv.
Proof.
  unfold PopupController.aggregateConversations.
  now rewrite fold_left_app.
Qed.

Lemma calculateSummary_snoc (conversations : list HistoryEntry)
  (conv : HistoryEntry) :
  TokenCounterBackground.calculateSummary (conversations ++ [conv])%list
  = TokenCounterBackground.summaryStep
      (TokenCounterBackground.calculateSummary conversations) conv.
Proof.
  unfold TokenCounterBackground.calculateSummary.
  now rewrite fold_left_app.
Qed.

Lemma sumZ_snoc (l : list Z) (x : Z) :
  Spec.sumZ (l ++ [x])%list = Spec.sumZ l + x.
Proof.
  unfold Spec.sumZ. induction l as [|y l IH]; cbn [app fold_right]; lia.
Qed.

Lemma assoc_countModel (model key : string)
  (usage : list (string * TokenCounterBackground.Count)) :
  ObjectPrototype.isInherited model = false ->
  assoc key (TokenCounterBackground.countModel model usage)
  = if (key =? model)%string
    then Some match assoc model usage with
              | Some value => TokenCounterBackground.increment value
              | None => TokenCounterBackground.Number (0 + 1)
              end
    else assoc key usage.
Proof.
  intros Hown.
  induction usage as [|[k value] usage IH];
    cbn [TokenCounterBackground.countModel assoc].
  - rewrite Hown. cbn [assoc].
    now destruct (key =? model)%string.
  - destruct (model =? k)%string eqn:Emk; cbn [assoc].
    + apply String.eqb_eq in Emk. subst k.
      now destruct (key =? model)%string.
    + rewrite IH.
      destruct (key =? k)%string eqn:Ekk; [|reflexivity].
      apply String.eqb_eq in Ekk. subst k.
      now rewrite String.eqb_sym, Emk.
Qed.

Lemma usageTotal_countModel (model : string)
  (usage : list (string * TokenCounterBackground.Count)) :
  ObjectPrototype.isInherited model = false ->
  TokenCounterBackground.usageTotal
    (TokenCounterBackground.countModel model usage)
  = TokenCounterBackground.usageTotal usage + 1.
Proof.
  intros Hown. unfold TokenCounterBackground.usageTotal.
  induction usage as [|[k value] usage IH];
    cbn [TokenCounterBackground.countModel fold_right].
  - rewrite Hown. cbn [fold_right snd]. lia.
  - destruct (model =? k)%string; cbn [fold_right snd].
    + destruct value as [n|]; cbn [TokenCounterBackground.increment];
        [destruct (n =? 0) eqn:E; [apply Z.eqb_eq in E|]|]; lia.
    + rewrite IH. destruct value; lia.
Qed.

Lemma conversationsOf_snoc (model : string) (conversations : list HistoryEntry)
  (conv : HistoryEntry) :
  TokenCounterBackground.conversationsOf model (conversations ++ [conv])%list
  = (TokenCounterBackground.conversationsOf model conversations
     ++ if (ChatGPTTokenTracker.model (closed conv) =? model)%string
        then [conv] else [])%list.
Proof.
  unfold TokenCounterBackground.conversationsOf.
  rewrite filter_app. cbn [filter].
  now destruct (ChatGPTTokenTracker.model (closed conv) =? model)%string.
Qed.

End Statistics.

(** X22.  The popup's [aggregateConversations] and the background's
    [calculateSummary] compute the same figures from the same history: the
    number of conversations, the sums of the input and of the output counts
    of the conversations, the sum of both as the total, and the same cost. *)
Theorem aggregate_and_summary_agree (conversations : list HistoryEntry) :
  let popup := PopupController.aggregateConversations conversations in
  let background := TokenCounterBackground.calculateSummary conversations in
  PopupController.count popup = Z.of_nat (List.length conversations)
  /\ PopupController.inputTokens popup
     = Spec.sumZ (map (fun conv => totalInputTokens (closed conv)) conversations)
  /\ PopupController.outputTokens popup
     = Spec.sumZ (map (fun conv => totalOutputTokens (closed conv)) conversations)
  /\ PopupController.totalTokens popup
     = PopupController.inputTokens popup + PopupController.outputTokens popup
  /\ TokenCounterBackground.totalConversations background
     = PopupController.count popup
  /\ TokenCounterBackground.inputTokens background
     = PopupController.inputTokens popup
  /\ TokenCounterBackground.outputTokens background
     = PopupController.outputTokens popup
  /\ TokenCounterBackground.totalTokens background
     = PopupController.totalTokens popup
  /\ TokenCounterBackground.totalCost background
     = PopupController.totalCost popup.
Proof.
  cbv zeta.
  induction conversations as [|conv conversations IH] using rev_ind.
  - repeat split.
  - destruct IH as (Hc & Hi & Ho & Ht & Hbc & Hbi & Hbo & Hbt & Hbq).
    rewrite aggregateConversations_snoc, calculateSummary_snoc.
    rewrite length_app, !map_app. cbn [map]. rewrite !sumZ_snoc.
    cbn [PopupController.aggregateStep TokenCounterBackground.summaryStep
         PopupController.count PopupController.inputTokens
         PopupController.outputTokens PopupController.totalTokens
         PopupController.totalCost
         TokenCounterBackground.totalConversations
         TokenCounterBackground.inputTokens TokenCounterBackground.outputTokens
         TokenCounterBackground.totalTokens TokenCounterBackground.totalCost
         List.length map].
    rewrite Hbc, Hbi, Hbo, Hbt, Hbq, <- Hi, <- Ho.
    repeat split; lia.
Qed.

(** X23.  When no conversation of the history has a model id that is a name
    inherited from [Object.prototype], [calculateSummary] stores under every
    model id the number of conversations of that model (and nothing under an
    id that no conversation has), and the numbers of [modelUsage] add up to
    [totalConversations]. *)
Theorem modelUsage_counts_conversations (conversations : list HistoryEntry) :
  (forall conv : HistoryEntry,
      In conv conversations ->
      ObjectPrototype.isInherited (ChatGPTTokenTracker.model (closed conv))
      = false) ->
  let summary := TokenCounterBackground.calculateSummary conversations in
  (forall model : string,
      assoc model (TokenCounterBackground.modelUsage summary)
      = match TokenCounterBackground.conversationsOf model conversations with
        | [] => None
        | found =>
            Some (TokenCounterBackground.Number (Z.of_nat (List.length found)))
        end)
  /\ TokenCounterBackground.usageTotal (TokenCounterBackground.modelUsage summary)
     = TokenCounterBackground.totalConversations summary.
Proof.
  cbv zeta.
  induction conversations as [|conv conversations IH] using rev_ind;
    intros Hown.
  - split; [intros model|]; reflexivity.
  - destruct IH as [Hassoc Htotal].
    { intros c Hc. apply Hown. apply in_or_app. now left. }
    assert (Hconv : ObjectPrototype.isInherited
                      (ChatGPTTokenTracker.model (closed conv)) = false).
    { apply Hown. apply in_or_app. right. now left. }
    rewrite calculateSummary_snoc.
    cbn [TokenCounterBackground.summaryStep TokenCounterBackground.modelUsage
         TokenCounterBackground.totalConversations].
    split.
    + intros model.
      rewrite assoc_countModel by exact Hconv.
      rewrite conversationsOf_snoc.
      destruct (model =? ChatGPTTokenTracker.model (closed conv))%string eqn:E.
      * apply String.eqb_eq in E. subst model.
        rewrite String.eqb_refl, Hassoc.
        destruct (TokenCounterBackground.conversationsOf
                    (ChatGPTTokenTracker.model (closed conv)) conversations)
          as [|c found]; [reflexivity|].
        cbn [app List.length TokenCounterBackground.increment].
        rewrite length_app. cbn [List.length]. do 2 f_equal.
        destruct (Z.of_nat (S (List.length found)) =? 0) eqn:Ez;
          [apply Z.eqb_eq in Ez|]; lia.
      * rewrite String.eqb_sym, E, app_nil_r. apply Hassoc.
    + rewrite usageTotal_countModel by exact Hconv. now rewrite Htotal.
Qed.

Lemma modelUsage_counts_conversations_witness :
  (forall conv : HistoryEntry,
      In conv exampleHistory ->
      ObjectPrototype.isInherited (ChatGPTTokenTracker.model (closed conv))
      = false)
  /\ assoc "gpt-4o"
       (TokenCounterBackground.modelUsage
          (TokenCounterBackground.calculateSummary exampleHistory))
     = Some (TokenCounterBackground.Number 2)
  /\ TokenCounterBackground.usageTotal
       (TokenCounterBackground.modelUsage
          (TokenCounterBackground.calculateSummary exampleHistory))
     = 3.
Proof.
  assert (Hown : forall conv : HistoryEntry,
             In conv exampleHistory ->
             ObjectPrototype.isInherited
               (ChatGPTTokenTracker.model (closed conv)) = false).
  { intros conv [<-|[<-|[<-|[]]]]; reflexivity. }
  split; [exact Hown|].
  destruct (modelUsage_counts_conversations exampleHistory Hown)
    as [Hassoc Htotal].
  split; [exact (Hassoc "gpt-4o") | exact Htotal].
Defined.

(** The condition on the model ids is needed: a conversation whose model id
    is "constructor" is counted in [totalConversations] and leaves [NaN] in
    [modelUsage]. *)
Lemma modelUsage_inherited_name :
  let summary :=
    TokenCounterBackground.calculateSummary
      [closedConversation "constructor" 1 1] in
  TokenCounterBackground.modelUsage summary
  = [("constructor", TokenCounterBackground.NaN)]
  /\ TokenCounterBackground.totalConversations summary = 1.
Proof. split; reflexivity. Qed.

(** ** The context window shown by the popup *)

Section ContextWindow.

Lemma getModelMaxTokens_cases (model : string) :
  PopupController.getModelMaxTokens model = 128000
  \/ PopupController.getModelMaxTokens model = 8192
  \/ PopupController.getModelMaxTokens model = 4096.
Proof.
  unfold PopupController.getModelMaxTokens, PopupController.modelLimits.
  cbn [assoc].
  destruct (model =? "gpt-4o")%string; [now left|].
  destruct (model =? "gpt-4-turbo")%string; [now left|].
  destruct (model =? "gpt-4")%string; [right; now left|].
  destruct (model =? "gpt-3.5-turbo")%string; [right; now right | now left].
Qed.

Lemma percentage_le (current maxTokens bound : Z) :
  0 < maxTokens ->
  (inject_Z current / inject_Z maxTokens * 100 <= inject_Z bound)%Q
  <-> 100 * current <= bound * maxTokens.
Proof.
  intros Hmax.
  destruct maxTokens as [|p|p]; try lia.
  unfold Qle, Qdiv, Qmult, Qinv, inject_Z. cbn [Qnum Qden].
  rewrite ?Pos.mul_1_l, ?Pos.mul_1_r, ?Z.mul_1_r.
  lia.
Qed.

End ContextWindow.

(** X24.  The popup's table of context limits agrees with the tokenizer's
    model table: for every model id that is not a name inherited from
    [Object.prototype], known or not, [getModelMaxTokens] is the
    [maxTokens] of the configuration [getModelConfig] resolves the id to. *)
Theorem getModelMaxTokens_matches_config (model : string) :
  ObjectPrototype.isInherited model = false ->
  PopupController.getModelMaxTokens model = maxTokens (getModelConfig model).
Proof.
  intros _.
  unfold PopupController.getModelMaxTokens, PopupController.modelLimits,
    getModelConfig, modelConfigs.
  cbn [assoc].
  destruct (String.eqb_spec model "gpt-4o") as [->|H1]; [reflexivity|].
  destruct (String.eqb_spec model "gpt-4-turbo") as [->|H2]; [reflexivity|].
  destruct (String.eqb_spec model "gpt-4") as [->|H3]; [reflexivity|].
  destruct (String.eqb_spec model "gpt-3.5-turbo") as [->|H4]; reflexivity.
Qed.

Lemma getModelMaxTokens_matches_config_witness :
  ObjectPrototype.isInherited "gpt-4" = false
  /\ PopupController.getModelMaxTokens "gpt-4" = 8192
  /\ maxTokens (getModelConfig "gpt-4") = 8192.
Proof.
  split; [reflexivity|].
  pose proof (getModelMaxTokens_matches_config "gpt-4" eq_refl) as H.
  split; [reflexivity | now rewrite <- H].
Defined.

(** X25.  The context bar of the popup, for a conversation whose model id is
    not a name inherited from [Object.prototype]: the percentage is the
    share of the model's context limit that the two cumulative counts fill,
    capped at 100; no warning is shown up to four fifths of the limit, the
    "nearly reached" warning exactly above nineteen twentieths of it, and
    the "approaching" warning in between. *)
Theorem updateContextProgress_thresholds (data : Conversation) :
  ObjectPrototype.isInherited (model data) = false ->
  let maxTokens := PopupController.getModelMaxTokens (model data) in
  let currentTokens := totalInputTokens data + totalOutputTokens data in
  let percentage := fst (PopupController.updateContextProgress data) in
  let warning := snd (PopupController.updateContextProgress data) in
  0 < maxTokens
  /\ (currentTokens <= maxTokens ->
      (percentage == inject_Z (100 * currentTokens) / inject_Z maxTokens)%Q)
  /\ (maxTokens <= currentTokens -> (percentage == 100)%Q)
  /\ (warning = PopupController.Hidden <-> 5 * currentTokens <= 4 * maxTokens)
  /\ (warning = PopupController.ApproachingLimit
      <-> 4 * maxTokens < 5 * currentTokens
          /\ 20 * currentTokens <= 19 * maxTokens)
  /\ (warning = PopupController.LimitNearlyReached
      <-> 19 * maxTokens < 20 * currentTokens).
Proof.
  intros _. cbv zeta.
  assert (Hmax : 0 < PopupController.getModelMaxTokens (model data)).
  { destruct (getModelMaxTokens_cases (model data)) as [H|[H|H]];
      rewrite H; lia. }
  unfold PopupController.updateContextProgress. cbv zeta. cbn [fst snd].
  set (maxTokens := PopupController.getModelMaxTokens (model data)) in *.
  set (currentTokens := totalInputTokens data + totalOutputTokens data).
  set (share := (inject_Z currentTokens / inject_Z maxTokens * 100)%Q).
  pose proof (percentage_le currentTokens maxTokens 100 Hmax) as H100.
  pose proof (percentage_le currentTokens maxTokens 95 Hmax) as H95.
  pose proof (percentage_le currentTokens maxTokens 80 Hmax) as H80.
  fold share in H100, H95, H80.
  change (inject_Z 100) with 100%Q in H100.
  change (inject_Z 95) with 95%Q in H95.
  change (inject_Z 80) with 80%Q in H80.
  assert (Hshare : (share == inject_Z (100 * currentTokens) / inject_Z maxTokens)%Q).
  { unfold share. rewrite inject_Z_mult.
    change (inject_Z 100) with 100%Q. field.
    intros Hz. apply (Qeq_bool_neq 0 1); [reflexivity|].
    destruct maxTokens; try lia. discriminate Hz. }
  unfold PopupController.mathMin, PopupController.greater.
  split; [exact Hmax|].
  destruct (Qle_bool share 100) eqn:E100.
  - apply Qle_bool_iff in E100. apply H100 in E100.
    destruct (Qle_bool share 80) eqn:E80; cbn [negb].
    + apply Qle_bool_iff in E80. apply H80 in E80.
      split; [intros _; exact Hshare|].
      split; [intros Hge; assert (Heq : 100 * currentTokens = 100 * maxTokens) by lia; lia|].
      split; [split; [lia | reflexivity]|].
      split; split; try discriminate; lia.
    + assert (H80' : ~ 100 * currentTokens <= 80 * maxTokens).
      { intros H. apply H80 in H. apply Qle_bool_iff in H. congruence. }
      destruct (Qle_bool share 95) eqn:E95; cbn [negb].
      * apply Qle_bool_iff in E95. apply H95 in E95.
        split; [intros _; exact Hshare|].
        split; [intros Hge; lia|].
        split; [split; [discriminate | lia]|].
        split; split; try discriminate; try reflexivity; lia.
      * assert (H95' : ~ 100 * currentTokens <= 95 * maxTokens).
        { intros H. apply H95 in H. apply Qle_bool_iff in H. congruence. }
        split; [intros _; exact Hshare|].
        split.
        { intros Hge. assert (Heq : currentTokens = maxTokens) by lia.
          rewrite Hshare, Heq, inject_Z_mult.
          change (inject_Z 100) with 100%Q. field.
          intros Hz. destruct maxTokens; try lia. discriminate Hz. }
        split; [split; [discriminate | lia]|].
        split; split; try discriminate; try reflexivity; lia.
  - assert (H100' : ~ 100 * currentTokens <= 100 * maxTokens).
    { intros H. apply H100 in H. apply Qle_bool_iff in H. congruence. }
    change (Qle_bool 100 80) with false.
    change (Qle_bool 100 95) with false. cbn [negb].
    split; [intros Hle; lia|].
    split; [intros _; reflexivity|].
    split; [split; [discriminate | lia]|].
    split; split; try discriminate; try reflexivity; lia.
Qed.

Lemma updateContextProgress_thresholds_witness :
  ObjectPrototype.isInherited (model busyConversation) = false
  /\ snd (PopupController.updateContextProgress busyConversation)
     = PopupController.Hidden.
Proof.
  split; [reflexivity|].
  destruct (updateContextProgress_thresholds busyConversation eq_refl)
    as (_ & _ & _ & [_ Hhidden] & _).
  apply Hhidden. vm_compute. discriminate.
Defined.

(** ** Supported domains *)

Section Domains.

Lemma includes_here (sub rest : list ascii) :
  includes (sub ++ rest)%list sub = true.
Proof.
  destruct sub as [|a sub]; [now destruct rest|].
  cbn [app includes].
  change (a :: (sub ++ rest))%list with ((a :: sub) ++ rest)%list.
  now rewrite startsWith_app_same.
Qed.

Lemma includes_later (before s sub : list ascii) :
  includes s sub = true -> includes (before ++ s)%list sub = true.
Proof.
  intros H. induction before as [|a before IH]; [exact H|].
  cbn [app includes]. rewrite IH. apply orb_true_r.
Qed.

Lemma includes_middle (before sub rest : list ascii) :
  includes (before ++ sub ++ rest)%list sub = true.
Proof. apply includes_later, includes_here. Qed.

Lemma endsWith_split (sub s : list ascii) :
  ErrorHandler.endsWith sub s = true ->
  exists before : list ascii, s = (before ++ sub)%list.
Proof.
  unfold ErrorHandler.endsWith. intros H.
  apply startsWith_split in H.
  exists (rev (skipn (List.length (rev sub)) (rev s))).
  rewrite <- (rev_involutive s), H at 1.
  now rewrite rev_app_distr, rev_involutive.
Qed.

(** A supported host name ends with one of the two domains. *)
Lemma isSupported_split (currentDomain : string) :
  ErrorHandler.isSupported currentDomain = true ->
  exists before : list ascii,
    chars currentDomain = (before ++ chars "chat.openai.com")%list
    \/ chars currentDomain = (before ++ chars "chatgpt.com")%list.
Proof.
  unfold ErrorHandler.isSupported, ErrorHandler.supportedDomains.
  cbn [existsb]. rewrite orb_false_r.
  intros H. apply orb_true_iff in H.
  destruct H as [H|H]; apply orb_true_iff in H; destruct H as [H|H].
  - apply String.eqb_eq in H. subst. exists []. now left.
  - apply endsWith_split in H. destruct H as [before H].
    exists (before ++ chars ".")%list. left.
    rewrite H, <- app_assoc. reflexivity.
  - apply String.eqb_eq in H. subst. exists []. now right.
  - apply endsWith_split in H. destruct H as [before H].
    exists (before ++ chars ".")%list. right.
    rewrite H, <- app_assoc. reflexivity.
Qed.

End Domains.

(** X26.  Every address whose text holds a host name that
    [validateChatGPTDomain] accepts is a ChatGPT address for the background
    worker's [isChatGPTUrl]; accepting a host name leaves the error log as
    it is, and refusing one logs one error.  The converse fails:
    [isChatGPTUrl] also accepts an address that only mentions a domain, on
    a host that [validateChatGPTDomain] refuses. *)
Theorem supported_domain_is_ChatGPT_url (now : Z) (currentDomain : string)
  (h : ErrorHandler.Handler) :
  (fst (ErrorHandler.validateChatGPTDomain now currentDomain h) = true ->
   snd (ErrorHandler.validateChatGPTDomain now currentDomain h) = h
   /\ forall before rest : string,
        TokenCounterBackground.isChatGPTUrl
          (before ++ currentDomain ++ rest) = true)
  /\ (fst (ErrorHandler.validateChatGPTDomain now currentDomain h) = false ->
      exists entry : ErrorHandler.ErrorEntry,
        ErrorHandler.category entry = "Unsupported Domain"
        /\ ErrorHandler.timestamp entry = now
        /\ last (ErrorHandler.errorLog
                   (snd (ErrorHandler.validateChatGPTDomain now currentDomain h)))
             entry = entry
        /\ ErrorHandler.errorLog
             (snd (ErrorHandler.validateChatGPTDomain now currentDomain h))
           <> [])
  /\ (fst (ErrorHandler.validateChatGPTDomain now "example.com" h) = false
      /\ TokenCounterBackground.isChatGPTUrl "https://example.com/?q=chatgpt.com"
         = true).
Proof.
  split; [|split].
  - unfold ErrorHandler.validateChatGPTDomain.
    destruct (ErrorHandler.isSupported currentDomain) eqn:E;
      cbn [fst snd]; [|discriminate].
    intros _. split; [reflexivity|].
    intros before rest.
    apply isSupported_split in E. destruct E as [pre [E|E]];
      unfold TokenCounterBackground.isChatGPTUrl;
      rewrite !chars_append, E, <- !app_assoc, app_assoc.
    + now rewrite includes_middle.
    + rewrite (includes_middle _ (chars "chatgpt.com")). apply orb_true_r.
  - unfold ErrorHandler.validateChatGPTDomain.
    destruct (ErrorHandler.isSupported currentDomain) eqn:E;
      cbn [fst snd]; [discriminate|].
    intros _.
    exists {| ErrorHandler.timestamp := now;
              ErrorHandler.category := "Unsupported Domain";
              ErrorHandler.message :=
                "Domain " ++ currentDomain ++ " not supported" |}.
    split; [reflexivity|]. split; [reflexivity|].
    unfold ErrorHandler.logError. cbv zeta.
    change (ErrorHandler.isCriticalError "Unsupported Domain") with false.
    cbv iota. cbn [ErrorHandler.errorLog].
    destruct (ErrorHandler.maxLogSize <? _)%nat eqn:Ecap.
    + destruct (ErrorHandler.errorLog h) as [|e log].
      * cbn in Ecap. discriminate.
      * cbn [app ErrorHandler.shift tl]. rewrite last_last.
        split; [reflexivity|]. now destruct log.
    + rewrite last_last. split; [reflexivity|].
      now destruct (ErrorHandler.errorLog h).
  - split; reflexivity.
Qed.

Lemma supported_domain_is_ChatGPT_url_witness :
  fst (ErrorHandler.validateChatGPTDomain 0 "www.chatgpt.com" emptyHandler)
  = true
  /\ TokenCounterBackground.isChatGPTUrl
       ("https://" ++ "www.chatgpt.com" ++ "/c/abc") = true.
Proof.
  split; [reflexivity|].
  destruct (supported_domain_is_ChatGPT_url 0 "www.chatgpt.com" emptyHandler)
    as [Hyes _].
  destruct (Hyes eq_refl) as [_ Hurl].
  exact (Hurl "https://" "/c/abc").
Defined.
